(** * Indian stock screener: a shallow embedding of the screening pipeline

    The development follows the source files of the repository:
    - [Py]: the Python / pandas value semantics the code relies on
      (truthiness, [None] versus [NaN], comparisons, slicing);
    - [Config]: [screener/config.py];
    - [Technical]: [screener/technical.py];
    - [Screen]: [screener/screen.py];
    - [Universe]: [screener/universe.py];
    - [Nse]: [screener/nse.py];
    - [RunScreener]: [run_screener.py].

    Floating point numbers are modelled by exact rationals ([Q]); a value
    that is [NaN] in the source is [None] in a series and [CNaN] in a row.
    Every comparison the code performs is on finite floats, whose order is
    the order of the rationals they denote. The quotients of the RSI are
    floats that a division by zero can make infinite ([Technical.float64]). *)

From Stdlib Require Import Ascii QArith Qminmax Qabs Lqa.
From stdpp Require Import gmap strings list fin_maps sorting.

Open Scope string_scope.
Set Warnings "-clear-no-such-hyp".

(* ===================================================================== *)
(** ** Python and pandas values *)
(* ===================================================================== *)

Module Py.

(** A value stored in a row dictionary or in a DataFrame cell. *)
Inductive cell :=
| CNone                (* Python [None] *)
| CNaN                 (* [np.nan] *)
| CNum (q : Q)         (* a finite float *)
| CBool (b : bool)
| CStr (s : string).

Definition Qltb (a b : Q) : bool := negb (Qle_bool b a).

(** [bool(x)]: [None], [0.0], [False] and the empty string are falsy;
    [NaN] is truthy. *)
Definition truthy (c : cell) : bool :=
  match c with
  | CNone => false
  | CNaN => true
  | CNum q => negb (Qeq_bool q 0)
  | CBool b => b
  | CStr s => negb (String.eqb s "")
  end.

(** [x is not None] *)
Definition is_not_None (c : cell) : bool :=
  match c with CNone => false | _ => true end.

(** [Series.isna()]: both [None] and [NaN] are missing values. *)
Definition isna (c : cell) : bool :=
  match c with CNone | CNaN => true | _ => false end.

(** [np.isfinite(x)] on the floats of a snapshot. *)
Definition isfinite (c : cell) : bool :=
  match c with CNum _ => true | _ => false end.

(** The number a cell compares as. Comparisons with [NaN] are false, and
    pandas compares a missing value as false too; booleans compare as 0/1.
    (Strings are never compared with numbers by the code.) *)
Definition as_float (c : cell) : option Q :=
  match c with
  | CNum q => Some q
  | CBool b => Some (if b then 1 else 0)%Q
  | _ => None
  end.

(** [c <= x], [c >= x], [c > x] and [c == True]. *)
Definition cle (c : cell) (x : Q) : bool :=
  match as_float c with Some q => Qle_bool q x | None => false end.
Definition cge (c : cell) (x : Q) : bool :=
  match as_float c with Some q => Qle_bool x q | None => false end.
Definition eq_True (c : cell) : bool :=
  match as_float c with Some q => Qeq_bool q 1 | None => false end.

(** [Series.between(lo, hi)] and the chained [lo <= c <= hi]. *)
Definition between (c : cell) (lo hi : Q) : bool := cge c lo && cle c hi.

(** An optional float of a dataclass ([float | None]) as a cell. *)
Definition of_option (o : option Q) : cell :=
  match o with Some q => CNum q | None => CNone end.

(** A float that may be [NaN] as a cell. *)
Definition of_float (o : option Q) : cell :=
  match o with Some q => CNum q | None => CNaN end.

(** [l[:n]] for a Python int [n]: a negative bound counts from the end. *)
Definition slice_to {A} (n : Z) (l : list A) : list A :=
  if (0 <=? n)%Z then take (Z.to_nat n) l
  else take (length l - Z.to_nat (- n)) l.

(** [dict.get(k)] with its default [None]. *)
Definition get (d : gmap string cell) (k : string) : cell :=
  default CNone (d !! k).

(** [dict.setdefault(k, v)] *)
Definition setdefault (k : string) (v : cell) (d : gmap string cell)
  : gmap string cell :=
  match d !! k with Some _ => d | None => <[k := v]> d end.

(** [d.update(e)]: the keys of [e] win. *)
Definition update (d e : gmap string cell) : gmap string cell := e ∪ d.

End Py.
Import Py.

(* ===================================================================== *)
(** ** screener/config.py *)
(* ===================================================================== *)

Module Config.

Record UniverseConfig := {
  name : string;
  limit : option Z;
}.

Record ValuationConfig := {
  min_pe : Q;
  max_pe : Q;
  max_pb : Q;
  max_ev_ebitda : option Q;
}.

Record GrowthConfig := {
  min_revenue_cagr_3y : Q;
  min_eps_cagr_3y : Q;
}.

Record QualityConfig := {
  min_roe : Q;
  min_roce : Q;
  max_debt_to_equity : Q;
  min_interest_coverage : Q;
}.

Record PromoterConfig := {
  min_promoter_change_qoq_pct_pts : Q;
  max_pledge_percent : option Q;
}.

Record TechnicalConfig := {
  price_above_200d : bool;
  sma50_above_200d : bool;
  within_pct_52w_high : Q;
  rsi_min : Q;
  rsi_max : Q;
  min_volume_multiple_vs_50d : Q;
}.

Record RunConfig := {
  lookback_days : Z;
  batch_size : Z;
  http_timeout : Z;
  single_download : bool;
  download_pause_sec : Q;
  use_yahoo_info_fallback : bool;
  fundamentals_max_symbols : option Z;
}.

Record ScreenerConfig := {
  universe : UniverseConfig;
  valuation : ValuationConfig;
  growth : GrowthConfig;
  quality : QualityConfig;
  promoter : PromoterConfig;
  technical : TechnicalConfig;
  run : RunConfig;
}.

Definition DEFAULT_CONFIG : ScreenerConfig := {|
  universe := {| name := "NIFTY500"; limit := None |};
  valuation := {| min_pe := 5; max_pe := 35; max_pb := 6;
                  max_ev_ebitda := Some 20%Q |};
  growth := {| min_revenue_cagr_3y := 10; min_eps_cagr_3y := 10 |};
  quality := {| min_roe := 12; min_roce := 15;
                max_debt_to_equity := 8 # 10; min_interest_coverage := 3 |};
  promoter := {| min_promoter_change_qoq_pct_pts := 1 # 10;
                 max_pledge_percent := Some 5%Q |};
  technical := {| price_above_200d := true; sma50_above_200d := true;
                  within_pct_52w_high := 10; rsi_min := 45; rsi_max := 70;
                  min_volume_multiple_vs_50d := 13 # 10 |};
  run := {| lookback_days := 420; batch_size := 50; http_timeout := 20;
            single_download := true; download_pause_sec := 8 # 10;
            use_yahoo_info_fallback := false;
            fundamentals_max_symbols := Some 150%Z |};
|}.

End Config.

(* ===================================================================== *)
(** ** screener/technical.py *)
(* ===================================================================== *)

Module Technical.

(** A pandas Series of floats, oldest first; [None] is [NaN]. *)
Abbreviation series := (list (option Q)).

(** One day of a price DataFrame with columns Close, High, Low, Volume. *)
Record bar := {
  Close : option Q;
  High : option Q;
  Low : option Q;
  Volume : option Q;
}.

Abbreviation frame := (list bar).

Definition dropna (s : series) : series :=
  filter (λ x, is_Some x) s.

(** [s.iloc[-1] if not s.empty else np.nan] *)
Definition iloc_last (s : series) : option Q := mjoin (last s).

(** The observations a rolling window of width [w] sees at position [i]. *)
Definition window_at (w i : nat) (s : series) : series :=
  drop (S i - w) (take (S i) s).

Definition nobs (win : series) : nat := length (dropna win).

Definition fsum (win : series) : Q :=
  foldr (λ x acc, match x with Some q => q + acc | None => acc end)%Q 0%Q win.

(** The mean of the valid observations of a window, [NaN] when there are
    fewer than [min_periods] of them. *)
Definition window_mean (min_periods : nat) (win : series) : option Q :=
  if (0 <? nobs win)%nat && (min_periods <=? nobs win)%nat
  then Some (fsum win / inject_Z (Z.of_nat (nobs win)))%Q
  else None.

(** [s.rolling(window, min_periods).mean()] *)
Definition rolling_mean (window min_periods : nat) (s : series) : series :=
  imap (λ i _, window_mean min_periods (window_at window i s)) s.

Definition simple_moving_average (s : series) (window : nat) : series :=
  rolling_mean window (Nat.max 1 (window / 2)) s.

(** [s.diff()]: the first element has no predecessor. *)
Definition diff (s : series) : series :=
  match s with
  | [] => []
  | _ :: t =>
      None :: zip_with (λ prev cur,
                match prev, cur with
                | Some p, Some c => Some (c - p)%Q
                | _, _ => None
                end) s t
  end.

Definition clip_lower (lo : Q) (s : series) : series :=
  fmap (M := option) (Qmax lo) <$> s.
Definition clip_upper (hi : Q) (s : series) : series :=
  fmap (M := option) (Qmin hi) <$> s.
Definition scale (k : Q) (s : series) : series :=
  fmap (M := option) (Qmult k) <$> s.

(** [s.replace(0, np.nan)] *)
Definition replace_zero_nan (s : series) : series :=
  (λ x, match x with
        | Some q => if Qeq_bool q 0 then None else Some q
        | None => None
        end) <$> s.

(** A float that a division may have taken out of the finite numbers. *)
Inductive float64 :=
| Finite (q : Q)
| Infinity (negative : bool)
| NaN.

(** A value of a series as a float. *)
Definition to_float (x : option Q) : float64 :=
  match x with Some q => Finite q | None => NaN end.

(** Float division [a / b], element by element: a finite number that is
    not zero, over zero, is an infinity with the sign of the number; zero
    over zero is [NaN]; a finite number over an infinity is zero. (Zero
    has no sign here: it divides like [+0.0].) *)
Definition fdiv (a b : float64) : float64 :=
  match a, b with
  | Finite x, Finite y =>
      if Qeq_bool y 0
      then (if Qeq_bool x 0 then NaN else Infinity (Qltb x 0))
      else Finite (x / y)%Q
  | Finite _, Infinity _ => Finite 0%Q
  | Infinity s, Finite y => Infinity (xorb s (Qltb y 0))
  | _, _ => NaN
  end.

(** Float addition and subtraction. *)
Definition fadd (a b : float64) : float64 :=
  match a, b with
  | Finite x, Finite y => Finite (x + y)%Q
  | Finite _, Infinity s => Infinity s
  | Infinity s, Finite _ => Infinity s
  | Infinity s, Infinity t => if Bool.eqb s t then Infinity s else NaN
  | _, _ => NaN
  end.
Definition fsub (a b : float64) : float64 :=
  match a, b with
  | Finite x, Finite y => Finite (x - y)%Q
  | Finite _, Infinity s => Infinity (negb s)
  | Infinity s, Finite _ => Infinity s
  | Infinity s, Infinity t => if Bool.eqb s t then NaN else Infinity s
  | _, _ => NaN
  end.

Definition rsi_up (s : series) : series := clip_lower 0 (diff s).
Definition rsi_down (s : series) : series := scale (-1) (clip_upper 0 (diff s)).
Definition rsi_avg_gain (s : series) (period : nat) : series :=
  rolling_mean period period (rsi_up s).
Definition rsi_avg_loss (s : series) (period : nat) : series :=
  rolling_mean period period (rsi_down s).

Definition rsi (s : series) (period : nat) : list float64 :=
  let avg_gain := rsi_avg_gain s period in
  let avg_loss := rsi_avg_loss s period in
  let rs := zip_with fdiv (to_float <$> avg_gain)
                          (to_float <$> replace_zero_nan avg_loss) in
  (λ x, fsub (Finite 100) (fdiv (Finite 100) (fadd (Finite 1) x))) <$> rs.

(** [float(s.iloc[-1]) if not s.empty else np.nan] for the RSI series, as
    a cell. The cells of a row hold finite floats and [NaN]; the RSI
    series holds no infinity (lemma [rsi_not_infinite] below: [rsi]
    divides by an average loss whose zeros are replaced, and by [1 + rs]
    with [rs] not negative), so that the second case of [float_cell]
    never applies. *)
Definition float_cell (x : float64) : cell :=
  match x with
  | Finite q => CNum q
  | Infinity _ => CNaN
  | NaN => CNaN
  end.
Definition iloc_last_cell (s : list float64) : cell :=
  float_cell (default NaN (last s)).

(** [s.tail(n)] *)
Definition tail (n : nat) (s : series) : series := drop (length s - n) s.

(** [s.max()] and [s.min()] of a series without missing values. *)
Definition series_max (s : series) : option Q :=
  match dropna s with
  | Some q :: t => Some (foldl (λ m x, match x with Some y => Qmax m y | None => m end) q t)
  | _ => None
  end.
Definition series_min (s : series) : option Q :=
  match dropna s with
  | Some q :: t => Some (foldl (λ m x, match x with Some y => Qmin m y | None => m end) q t)
  | _ => None
  end.

Definition gt_finite (a b : option Q) : bool :=
  match a, b with Some x, Some y => Qltb y x | _, _ => false end.

Definition compute_technical_snapshot (df : frame) : gmap string cell :=
  match df with
  | [] => ∅
  | _ =>
    let close := dropna (Close <$> df) in
    let high := dropna (High <$> df) in
    let low := dropna (Low <$> df) in
    let volume := dropna (Volume <$> df) in
    let last_close := iloc_last close in
    let sma50 := simple_moving_average close 50 in
    let sma200 := simple_moving_average close 200 in
    let rsi14 := rsi close 14 in
    let vol50 := rolling_mean 50 10 volume in
    let l_sma50 := iloc_last sma50 in
    let l_sma200 := iloc_last sma200 in
    let l_vol := iloc_last volume in
    let l_vol50 := iloc_last vol50 in
    let l_high := if (20 <=? length high)%nat then series_max (tail 252 high) else None in
    let l_low := if (20 <=? length low)%nat then series_min (tail 252 low) else None in
    let last : gmap string cell :=
      <["low_52w" := of_float l_low]> (
      <["high_52w" := of_float l_high]> (
      <["vol50" := of_float l_vol50]> (
      <["vol" := of_float l_vol]> (
      <["rsi14" := iloc_last_cell rsi14]> (
      <["sma200" := of_float l_sma200]> (
      <["sma50" := of_float l_sma50]> (
      <["close" := of_float last_close]> ∅))))))) in
    let last := <["price_above_200d" := CBool (gt_finite last_close l_sma200)]> last in
    let last := <["sma50_above_200d" := CBool (gt_finite l_sma50 l_sma200)]> last in
    let last := <["within_10pct_52w_high" :=
                   CBool (match l_high, last_close with
                          | Some h, Some c => Qle_bool ((9 # 10) * h) c
                          | _, _ => false
                          end)]> last in
    let last := <["volume_mult_vs_50d" :=
                   of_float (match l_vol, l_vol50 with
                             | Some v, Some a => if Qltb 0 a then Some (v / a)%Q else None
                             | _, _ => None
                             end)]> last in
    last
  end.

End Technical.

(* ===================================================================== *)
(** ** screener/screen.py *)
(* ===================================================================== *)

Module Screen.
Import Config Technical.

(** A row dictionary, and a row of a DataFrame. *)
Abbreviation row := (gmap string cell).

(** [fundamentals.FundamentalSnapshot] *)
Record FundamentalSnapshot := {
  market_cap : option Q;
  pe : option Q;
  pb : option Q;
  roe : option Q;
  roce : option Q;
  debt_to_equity : option Q;
  interest_coverage : option Q;
  revenue_cagr_3y : option Q;
  eps_cagr_3y : option Q;
  ev_ebitda : option Q;
}.

(** [nse.PromoterSnapshot] *)
Record PromoterSnapshot := {
  latest_percent : option Q;
  prev_percent : option Q;
  change_qoq_pct_pts : option Q;
}.

(** The external collaborators of [run_screen].
    - [hist_all]: the price histories gathered by the download phase; a
      symbol whose download failed or came back empty has no entry.
    - [compute_fundamental_snapshot]: the fundamentals of a ticker, given
      the fallback flag.
    - [fetch_promoter_shareholding_percent]: the promoter snapshot of a
      root symbol; [None] also when the call raised. *)
Record providers := {
  hist_all : gmap string frame;
  compute_fundamental_snapshot : string → bool → FundamentalSnapshot;
  fetch_promoter_shareholding_percent : string → option PromoterSnapshot;
}.

(** A pandas DataFrame: its column labels and its rows. Every row has a
    cell for every column. *)
Record DataFrame := {
  columns : gset string;
  rows : list row;
}.

(** [pd.DataFrame(dicts)]: the columns are the keys of all dictionaries, a
    key a dictionary lacks is [NaN] in its row. (In a column that also
    holds floats pandas stores a [None] of a dictionary as [NaN]; here it
    stays [None]. The two are missing values alike: [isna], the
    comparisons and the tests of the scorer on such a column give the
    same results on both.) *)
Definition DataFrame_of (dicts : list row) : DataFrame :=
  let cols : gset string := ⋃ (dom <$> dicts) in
  {| columns := cols;
     rows := (λ d, d ∪ gset_to_gmap CNaN cols) <$> dicts |}.

(** [df.empty]: no rows or no columns. *)
Definition empty (df : DataFrame) : bool :=
  match rows df with [] => true | _ => false end
  || bool_decide (columns df = ∅).

(** The cell of a row in a column. *)
Definition at_col (r : row) (col : string) : cell := default CNaN (r !! col).

(** [df.get(col, default)], seen from one row of a frame with the columns
    [cols]. *)
Definition col_get (cols : gset string) (col : string) (dflt : cell) (r : row) : cell :=
  if decide (col ∈ cols) then at_col r col else dflt.

(** [df[mask]] *)
Definition select (mask : row → bool) (df : DataFrame) : DataFrame :=
  {| columns := columns df; rows := filter (λ r, mask r) (rows df) |}.

(** [df[col] = np.nan] for a column that is missing. *)
Definition ensure_column (df : DataFrame) (col : string) : DataFrame :=
  if decide (col ∈ columns df) then df
  else {| columns := columns df ∪ {[col]};
          rows := <[col := CNaN]> <$> rows df |}.

(** [df.assign(score=scores)] with the scores computed row by row. *)
Definition assign_score (f : row → Q) (df : DataFrame) : DataFrame :=
  {| columns := columns df ∪ {["score"]};
     rows := (λ r, <["score" := CNum (f r)]> r) <$> rows df |}.

(** *** The scorer *)

Definition opt_truthy (o : option Q) : bool :=
  match o with Some q => negb (Qeq_bool q 0) | None => false end.

Definition _score_buy_row (row : row) (cfg : ScreenerConfig) : Q :=
  let score := 0%Q in
  (* Valuation *)
  let score :=
    if truthy (get row "pe")
       && between (get row "pe") (min_pe (valuation cfg)) (max_pe (valuation cfg))
    then (score + 1)%Q else score in
  let score :=
    if truthy (get row "pb") && cle (get row "pb") (max_pb (valuation cfg))
    then (score + 1)%Q else score in
  let score :=
    if truthy (get row "ev_ebitda")
       && opt_truthy (max_ev_ebitda (valuation cfg))
       && match max_ev_ebitda (valuation cfg) with
          | Some m => cle (get row "ev_ebitda") m
          | None => false
          end
    then (score + 1)%Q else score in
  (* Growth *)
  let score :=
    if truthy (get row "revenue_cagr_3y")
       && cge (get row "revenue_cagr_3y") (min_revenue_cagr_3y (growth cfg))
    then (score + 1)%Q else score in
  let score :=
    if truthy (get row "eps_cagr_3y")
       && cge (get row "eps_cagr_3y") (min_eps_cagr_3y (growth cfg))
    then (score + 1)%Q else score in
  (* Quality *)
  let score :=
    if truthy (get row "roe") && cge (get row "roe") (min_roe (quality cfg))
    then (score + 1)%Q else score in
  let score :=
    if truthy (get row "roce") && cge (get row "roce") (min_roce (quality cfg))
    then (score + 1)%Q else score in
  let score :=
    if is_not_None (get row "debt_to_equity")
       && cle (get row "debt_to_equity") (max_debt_to_equity (quality cfg))
    then (score + 1)%Q else score in
  let score :=
    if truthy (get row "interest_coverage")
       && cge (get row "interest_coverage") (min_interest_coverage (quality cfg))
    then (score + 1)%Q else score in
  (* Promoter *)
  let score :=
    if is_not_None (get row "promoter_change_qoq_pct_pts")
       && cge (get row "promoter_change_qoq_pct_pts")
              (min_promoter_change_qoq_pct_pts (promoter cfg))
    then (score + 1)%Q else score in
  (* Technicals *)
  let score :=
    if truthy (get row "price_above_200d") then (score + 1)%Q else score in
  let score :=
    if truthy (get row "sma50_above_200d") then (score + 1)%Q else score in
  let score :=
    if is_not_None (get row "within_pct_52w_high")
       && cle (get row "within_pct_52w_high") (within_pct_52w_high (technical cfg))
    then (score + 1)%Q else score in
  let score :=
    if truthy (get row "rsi14")
       && between (get row "rsi14") (rsi_min (technical cfg)) (rsi_max (technical cfg))
    then (score + (1 # 2))%Q else score in
  let score :=
    if truthy (get row "volume_mult_vs_50d")
       && cge (get row "volume_mult_vs_50d") (min_volume_multiple_vs_50d (technical cfg))
    then (score + (1 # 2))%Q else score in
  score.

(** *** Building the technical rows *)

Definition frame_empty (df : frame) : bool :=
  match df with [] => true | _ => false end.

Definition tech_defaults : list string :=
  ["close"; "high_52w"; "low_52w"; "sma50"; "sma200"; "rsi14"; "vol"; "vol50";
   "price_above_200d"; "sma50_above_200d"; "volume_mult_vs_50d"].

(** [(1.0 - close / high_52w) * 100.0] on two truthy cells. *)
Definition pct_below_high (close high : cell) : cell :=
  match as_float close, as_float high with
  | Some c, Some h => CNum ((1 - c / h) * 100)%Q
  | _, _ => CNaN
  end.

Definition tech_row (P : providers) (yticker : string) : row :=
  let base : row := {["ticker" := CStr yticker]} in
  let tech_df := default [] (hist_all P !! yticker) in
  let tech := if negb (frame_empty tech_df)
              then compute_technical_snapshot tech_df else ∅ in
  let base := update base tech in
  let base := foldl (λ b key, setdefault key CNone b) base tech_defaults in
  if truthy (get base "close") && truthy (get base "high_52w")
  then <["within_pct_52w_high" :=
          pct_below_high (get base "close") (get base "high_52w")]> base
  else <["within_pct_52w_high" := CNone]> base.

(** *** The prefilter and the hard filter *)

Definition technical_mask (tc : TechnicalConfig) (cols : gset string) (r : row) : bool :=
  let mask := true in
  let mask := if price_above_200d tc
              then mask && eq_True (col_get cols "price_above_200d" (CBool false) r)
              else mask in
  let mask := if sma50_above_200d tc
              then mask && eq_True (col_get cols "sma50_above_200d" (CBool false) r)
              else mask in
  let mask := mask && (cle (col_get cols "within_pct_52w_high" CNaN r) (within_pct_52w_high tc)
                       || isna (at_col r "within_pct_52w_high")) in
  let mask := mask && (between (col_get cols "rsi14" CNaN r) (rsi_min tc) (rsi_max tc)
                       || isna (at_col r "rsi14")) in
  let mask := mask && (cge (col_get cols "volume_mult_vs_50d" CNaN r) (min_volume_multiple_vs_50d tc)
                       || isna (at_col r "volume_mult_vs_50d")) in
  mask.

Definition prefilter (cfg : ScreenerConfig) (df : DataFrame) : DataFrame :=
  if negb (empty df)
  then select (technical_mask (technical cfg) (columns df)) df else df.

Definition hard_mask (cfg : ScreenerConfig) (r : row) : bool :=
  let mask := true in
  (* Valuation *)
  let vc := valuation cfg in
  let mask := mask && (between (at_col r "pe") (min_pe vc) (max_pe vc) || isna (at_col r "pe")) in
  let mask := mask && (cle (at_col r "pb") (max_pb vc) || isna (at_col r "pb")) in
  let mask := match max_ev_ebitda vc with
              | Some m => mask && (cle (at_col r "ev_ebitda") m || isna (at_col r "ev_ebitda"))
              | None => mask
              end in
  (* Growth *)
  let gc := growth cfg in
  let mask := mask && (cge (at_col r "revenue_cagr_3y") (min_revenue_cagr_3y gc)
                       || isna (at_col r "revenue_cagr_3y")) in
  let mask := mask && (cge (at_col r "eps_cagr_3y") (min_eps_cagr_3y gc)
                       || isna (at_col r "eps_cagr_3y")) in
  (* Quality *)
  let qc := quality cfg in
  let mask := mask && (cge (at_col r "roe") (min_roe qc) || isna (at_col r "roe")) in
  let mask := mask && (cge (at_col r "roce") (min_roce qc) || isna (at_col r "roce")) in
  let mask := mask && (cle (at_col r "debt_to_equity") (max_debt_to_equity qc)
                       || isna (at_col r "debt_to_equity")) in
  let mask := mask && (cge (at_col r "interest_coverage") (min_interest_coverage qc)
                       || isna (at_col r "interest_coverage")) in
  (* Promoter *)
  let pc := promoter cfg in
  let mask := mask && (cge (at_col r "promoter_change_qoq_pct_pts")
                           (min_promoter_change_qoq_pct_pts pc)
                       || isna (at_col r "promoter_change_qoq_pct_pts")) in
  (* Technicals *)
  let tc := technical cfg in
  let mask := if price_above_200d tc
              then mask && eq_True (at_col r "price_above_200d") else mask in
  let mask := if sma50_above_200d tc
              then mask && eq_True (at_col r "sma50_above_200d") else mask in
  let mask := mask && (cle (at_col r "within_pct_52w_high") (within_pct_52w_high tc)
                       || isna (at_col r "within_pct_52w_high")) in
  let mask := mask && (between (at_col r "rsi14") (rsi_min tc) (rsi_max tc)
                       || isna (at_col r "rsi14")) in
  let mask := mask && (cge (at_col r "volume_mult_vs_50d") (min_volume_multiple_vs_50d tc)
                       || isna (at_col r "volume_mult_vs_50d")) in
  mask.

Definition hard_filter (cfg : ScreenerConfig) (df : DataFrame) : DataFrame :=
  if negb (empty df) then select (hard_mask cfg) df else df.

(** *** Enrichment *)

(** [yticker.replace(".NS", "")] *)
Fixpoint remove_dot_NS (s : string) : string :=
  match s with
  | String "."%char (String "N"%char (String "S"%char rest)) => remove_dot_NS rest
  | String c rest => String c (remove_dot_NS rest)
  | EmptyString => EmptyString
  end.

Definition as_str (c : cell) : string :=
  match c with CStr s => s | _ => "" end.

(** [df[col].tolist()] for a column of strings. *)
Definition tolist_str (col : string) (df : DataFrame) : list string :=
  (λ r, as_str (at_col r col)) <$> rows df.

(** [{r["ticker"]: r for r in tech_rows}]: a later row replaces an earlier
    one with the same ticker. *)
Definition make_tech_map (tech_rows : list row) : gmap string row :=
  foldl (λ m r, <[as_str (get r "ticker") := r]> m) ∅ tech_rows.

Definition enrich (P : providers) (cfg : ScreenerConfig)
    (tech_map : gmap string row) (yticker : string) : row :=
  let base : row := default {["ticker" := CStr yticker]} (tech_map !! yticker) in
  let f := compute_fundamental_snapshot P yticker
             (use_yahoo_info_fallback (run cfg)) in
  let base :=
    <["ev_ebitda" := of_option (ev_ebitda f)]> (
    <["eps_cagr_3y" := of_option (eps_cagr_3y f)]> (
    <["revenue_cagr_3y" := of_option (revenue_cagr_3y f)]> (
    <["interest_coverage" := of_option (interest_coverage f)]> (
    <["debt_to_equity" := of_option (debt_to_equity f)]> (
    <["roce" := of_option (roce f)]> (
    <["roe" := of_option (roe f)]> (
    <["pb" := of_option (pb f)]> (
    <["pe" := of_option (pe f)]> (
    <["market_cap" := of_option (market_cap f)]> base))))))))) in
  let root := remove_dot_NS yticker in
  match fetch_promoter_shareholding_percent P root with
  | Some prom =>
      <["promoter_change_qoq_pct_pts" := of_option (change_qoq_pct_pts prom)]> (
      <["promoter_prev_pct" := of_option (prev_percent prom)]> (
      <["promoter_latest_pct" := of_option (latest_percent prom)]> base))
  | None =>
      <["promoter_change_qoq_pct_pts" := CNone]> (
      <["promoter_prev_pct" := CNone]> (
      <["promoter_latest_pct" := CNone]> base))
  end.

Definition expected_cols : list string :=
  ["market_cap"; "pe"; "pb"; "roe"; "roce"; "debt_to_equity"; "interest_coverage";
   "revenue_cagr_3y"; "eps_cagr_3y"; "ev_ebitda";
   "promoter_change_qoq_pct_pts"; "promoter_latest_pct"; "promoter_prev_pct";
   "price_above_200d"; "sma50_above_200d"; "within_pct_52w_high"; "rsi14";
   "volume_mult_vs_50d"].

(** *** Sorting *)

(** The sort key a column gives a row; a missing value has no key. *)
Definition sort_key (r : row) (col : string) : option Q := as_float (at_col r col).

(** Descending order on keys, rows without a key last. [Lt]: the first
    comes earlier. *)
Definition cmp_desc (a b : option Q) : comparison :=
  match a, b with
  | Some x, Some y => (y ?= x)%Q
  | Some _, None => Lt
  | None, Some _ => Gt
  | None, None => Eq
  end.

Definition sort_cmp (r1 r2 : row) : comparison :=
  match cmp_desc (sort_key r1 "score") (sort_key r2 "score") with
  | Eq => cmp_desc (sort_key r1 "market_cap") (sort_key r2 "market_cap")
  | c => c
  end.

Definition not_after (r1 r2 : row) : Prop :=
  match sort_cmp r1 r2 with Gt => False | _ => True end.

#[global] Instance not_after_dec : RelDecision not_after.
Proof. intros r1 r2. unfold not_after. destruct (sort_cmp r1 r2); apply _. Defined.

(** [df.sort_values(["score", "market_cap"], ascending=[False, False])]:
    missing values last; the sort on several keys is stable, rows that
    compare equal keep the order they have in [df]. Here, by insertion:
    a row goes before the first row it is not after. *)
Fixpoint insert_row (r : row) (l : list row) : list row :=
  match l with
  | [] => [r]
  | r' :: l' =>
      if decide (not_after r r') then r :: r' :: l' else r' :: insert_row r l'
  end.

Definition sort_rows (l : list row) : list row := foldr insert_row [] l.

Definition sort_values (df : DataFrame) : DataFrame :=
  {| columns := columns df; rows := sort_rows (rows df) |}.

(** *** The pipeline *)

Definition run_screen (P : providers) (symbols : list string)
    (cfg : ScreenerConfig) (for_buy : bool) : DataFrame :=
  (* Build technical-only rows first *)
  let tech_rows := tech_row P <$> symbols in
  let df := DataFrame_of tech_rows in
  (* Prefilter on technicals only if buy screen *)
  let df := if for_buy then prefilter cfg df else df in
  (* Limit number of symbols for fundamentals/promoter *)
  let symbols_for_funda := if negb (empty df) then tolist_str "ticker" df else [] in
  let symbols_for_funda :=
    match fundamentals_max_symbols (run cfg) with
    | Some n => slice_to n symbols_for_funda
    | None => symbols_for_funda
    end in
  (* Attach fundamentals and promoter *)
  let tech_map := make_tech_map tech_rows in
  let enriched_rows := enrich P cfg tech_map <$> symbols_for_funda in
  let df := match enriched_rows with
            | [] => DataFrame_of tech_rows
            | _ => DataFrame_of enriched_rows
            end in
  (* Ensure expected columns *)
  let df := foldl ensure_column df expected_cols in
  (* Apply hard filters for buy *)
  let df := if for_buy then hard_filter cfg df else df in
  (* Score and sort *)
  if negb (empty df)
  then sort_values (assign_score (λ r, _score_buy_row r cfg) df)
  else df.

End Screen.

(* ===================================================================== *)
(** ** screener/universe.py *)
(* ===================================================================== *)

Module Universe.

Definition NIFTY_CSV_URLS : gmap string string :=
  <["NIFTY500" := "https://archives.nseindia.com/content/indices/ind_nifty500list.csv"]> (
  <["NIFTY200" := "https://archives.nseindia.com/content/indices/ind_nifty200list.csv"]> (
  <["NIFTY50" := "https://archives.nseindia.com/content/indices/ind_nifty50list.csv"]> ∅)).

(** [str.upper()], [str.lower()] and [str.strip()] on ASCII text. *)
Definition upper_char (c : ascii) : ascii :=
  let n := nat_of_ascii c in
  if (97 <=? n)%nat && (n <=? 122)%nat then ascii_of_nat (n - 32) else c.
Definition lower_char (c : ascii) : ascii :=
  let n := nat_of_ascii c in
  if (65 <=? n)%nat && (n <=? 90)%nat then ascii_of_nat (n + 32) else c.

Fixpoint upper (s : string) : string :=
  match s with
  | EmptyString => EmptyString
  | String c r => String (upper_char c) (upper r)
  end.
Fixpoint lower (s : string) : string :=
  match s with
  | EmptyString => EmptyString
  | String c r => String (lower_char c) (lower r)
  end.

Definition is_space (c : ascii) : bool :=
  let n := nat_of_ascii c in
  ((9 <=? n)%nat && (n <=? 13)%nat) || ((28 <=? n)%nat && (n <=? 32)%nat).

Fixpoint lstrip (s : string) : string :=
  match s with
  | String c r => if is_space c then lstrip r else s
  | EmptyString => EmptyString
  end.
Fixpoint rstrip (s : string) : string :=
  match s with
  | String c r =>
      match rstrip r with
      | EmptyString => if is_space c then EmptyString else String c EmptyString
      | r' => String c r'
      end
  | EmptyString => EmptyString
  end.
Definition strip (s : string) : string := rstrip (lstrip s).

(** The table [pd.read_csv] returns: the column labels with their values,
    already as text. *)
Abbreviation table := (list (string * list string)).

(** What one HTTP request for a CSV file comes to. *)
Inductive response :=
| ConnectionFailed               (* [requests.get] raised *)
| BadStatus                      (* [raise_for_status] raised *)
| Content (csv : option table).  (* the body; [None] if it cannot be parsed *)

Inductive exn :=
| ValueError (msg : string)
| RequestException
| HTTPError
| ParserError
| KeyError (key : string)
| AttributeError (msg : string)
| RetryError (last : exn).

Inductive outcome (A : Type) :=
| Returned (a : A)
| Raised (e : exn).
Arguments Returned {A} a.
Arguments Raised {A} e.

(** Computations that count the HTTP requests sent so far for the index
    file, and may raise. *)
Definition M (A : Type) : Type := nat → outcome A * nat.

Definition ret {A} (a : A) : M A := λ n, (Returned a, n).
Definition raise {A} (e : exn) : M A := λ n, (Raised e, n).
Definition bind {A B} (m : M A) (k : A → M B) : M B :=
  λ n, match m n with
       | (Returned a, n') => k a n'
       | (Raised e, n') => (Raised e, n')
       end.

#[global] Instance M_ret : MRet M := @ret.
#[global] Instance M_bind : MBind M := λ A B k m, bind m k.

(** [tenacity.retry(stop=stop_after_attempt(k + 1))]: any exception leads
    to another attempt; after the last one the wrapper raises its own
    error. The waits between attempts are not modelled. *)
Fixpoint retry {A} (more : nat) (f : M A) : M A :=
  λ n, match f n with
       | (Returned a, n') => (Returned a, n')
       | (Raised e, n') =>
           match more with
           | O => (Raised (RetryError e), n')
           | S k => retry k f n'
           end
       end.

Definition to_yahoo_ticker (nse_symbol : string) : string :=
  upper (strip nse_symbol) ++ ".NS".

(** [df[name].astype(str).tolist()]: the values of the column labelled
    [name]. Without such a column [df[name]] raises [KeyError]; with
    several columns of that label it is a DataFrame, not a Series, and a
    DataFrame has no [tolist]. *)
Definition column (name : string) (df : table) : M (list string) :=
  match filter (λ c, c.1 = name) df with
  | [] => raise (KeyError name)
  | [c] => ret c.2
  | _ => raise (AttributeError "'DataFrame' object has no attribute 'tolist'")
  end.

Section Network.

(** The network: the answer to the [n]-th request, for a URL. *)
Variable net : nat → string → response.

Definition requests_get (url : string) : M response :=
  λ n, (Returned (net n url), S n).

(** The body of [fetch_nifty_constituents]: one attempt. *)
Definition fetch_nifty_constituents_once (index_name : string) : M table :=
  let index_name := upper index_name in
  match NIFTY_CSV_URLS !! index_name with
  | None => raise (ValueError ("Unsupported index: " ++ index_name))
  | Some url =>
      resp ← requests_get url;
      match resp with
      | ConnectionFailed => raise RequestException
      | BadStatus => raise HTTPError
      | Content None => raise ParserError
      | Content (Some df) =>
          (* Normalize column names *)
          let df := prod_map strip id <$> df in
          if bool_decide ("Symbol" ∈ df.*1) then ret df
          else
            match List.find (λ c, String.eqb (lower c) "symbol") df.*1 with
            | None => raise (ValueError "Symbol column not found in index CSV")
            | Some sym_col =>
                ret (prod_map (λ c, if String.eqb c sym_col then "Symbol" else c) id <$> df)
            end
      end
  end.

Definition fetch_nifty_constituents (index_name : string) : M table :=
  retry 3 (fetch_nifty_constituents_once index_name).

Definition build_universe (index_name : string) (limit : option Z) : M (list string) :=
  df ← fetch_nifty_constituents index_name;
  values ← column "Symbol" df;
  let symbols := to_yahoo_ticker <$> values in
  ret (match limit with
       | Some l => slice_to l symbols
       | None => symbols
       end).

End Network.

End Universe.

(* ===================================================================== *)
(** ** screener/nse.py *)
(* ===================================================================== *)

Module Nse.
Import Screen Universe.

(** The JSON document of the shareholding API, as far as the parser reads
    it: the categories under [shareholding.data], each with its name and
    its quarterly entries. A key that is absent or [null] is [None]; the
    percentages are numbers and the dates are text. *)
Record entry := {
  percent : option Q;
  quarterBeginDate : option string;
  quarterEndDate : option string;
}.

Record category_series := {
  category : option string;
  data : list entry;
}.

(** [str(x)] for a name that may be [None]. *)
Definition str (x : option string) : string := default "None" x.

(** [str(cat.get("category"))[:8].lower().startswith("promoter")] *)
Definition is_promoter (cat : category_series) : bool :=
  String.prefix "promoter" (lower (String.substring 0 8 (str (category cat)))).

(** The key of the sort: the begin date of the quarter, or else its end
    date, or else the empty string. *)
Definition quarter_key (x : entry) : string :=
  match quarterBeginDate x with
  | Some (String c s) => String c s
  | _ => default "" (quarterEndDate x)
  end.

(** [sorted(l, key=quarter_key)]: ascending, entries with equal keys in
    their order in [l]. *)
Fixpoint insert_sorted (x : entry) (l : list entry) : list entry :=
  match l with
  | [] => [x]
  | y :: l' =>
      if String.leb (quarter_key x) (quarter_key y) then x :: y :: l'
      else y :: insert_sorted x l'
  end.

Definition sorted (l : list entry) : list entry := foldr insert_sorted [] l.

Section Api.

(** The answer of the API for a symbol: the categories of the document,
    [None] when the request fails or the body is not such a document. *)
Variable nse_api : string → option (list category_series).

Definition fetch_promoter_shareholding_percent (symbol : string)
  : option PromoterSnapshot :=
  match nse_api symbol with
  | None => None
  | Some categories =>
      (* Find promoter category time series *)
      match List.find is_promoter categories with
      | None => None
      | Some cat =>
          match data cat with
          | [] => None
          | promoter_series =>
              let promoter_series_sorted := sorted promoter_series in
              let percents := omap percent promoter_series_sorted in
              match last percents with
              | None => None
              | Some latest =>
                  let prev := if (2 <=? length percents)%nat
                              then percents !! (length percents - 2)%nat else None in
                  let change := match prev with
                                | Some p => Some (latest - p)%Q
                                | None => None
                                end in
                  Some {| latest_percent := Some latest;
                          prev_percent := prev;
                          change_qoq_pct_pts := change |}
              end
          end
      end
  end.

End Api.

End Nse.

(* ===================================================================== *)
(** ** run_screener.py *)
(* ===================================================================== *)

Module RunScreener.
Import Config Screen Universe.

(** The parsed command line. *)
Record Namespace := {
  universe : string;
  limit : Z;
  buy : bool;
  sell : bool;
  out : string;
}.

Section Run.

Variable P : providers.
Variable net : nat → string → response.

(** [main], from the parsed arguments on. Its result here is the frame
    it writes to the output file. The counter of [M] counts the requests
    [build_universe] sends for the index file; the downloads and lookups
    of [run_screen] are the answers of its providers [P]. *)
Definition main (args : Namespace) : M DataFrame :=
  let limit := if negb (limit args =? 0)%Z && (0 <? limit args)%Z
               then Some (limit args) else None in
  let cfg := DEFAULT_CONFIG in
  let cfg := {|
    Config.universe := {| name := upper (universe args); Config.limit := limit |};
    valuation := valuation cfg;
    growth := growth cfg;
    quality := quality cfg;
    promoter := promoter cfg;
    technical := technical cfg;
    run := run cfg;
  |} in
  symbols ← build_universe net (name (Config.universe cfg))
              (Config.limit (Config.universe cfg));
  let df := run_screen P symbols cfg (negb (sell args)) in
  ret df.

End Run.

End RunScreener.

Import Config Technical Screen.

(* ===================================================================== *)
(** ** The signals of the scorer *)
(* ===================================================================== *)

(** The fifteen signals [_score_buy_row] looks at, in its order. *)
Inductive signal :=
| SigPe | SigPb | SigEvEbitda
| SigRevenueCagr | SigEpsCagr
| SigRoe | SigRoce | SigDebtToEquity | SigInterestCoverage
| SigPromoterChange
| SigPriceAbove200d | SigSma50Above200d | SigWithin52wHigh
| SigRsi | SigVolumeMultiple.

#[global] Instance signal_eq_dec : EqDecision signal.
Proof. solve_decision. Defined.

Definition all_signals : list signal :=
  [SigPe; SigPb; SigEvEbitda; SigRevenueCagr; SigEpsCagr; SigRoe; SigRoce;
   SigDebtToEquity; SigInterestCoverage; SigPromoterChange;
   SigPriceAbove200d; SigSma50Above200d; SigWithin52wHigh;
   SigRsi; SigVolumeMultiple].

(** The row key a signal is read from. *)
Definition signal_key (s : signal) : string :=
  match s with
  | SigPe => "pe"
  | SigPb => "pb"
  | SigEvEbitda => "ev_ebitda"
  | SigRevenueCagr => "revenue_cagr_3y"
  | SigEpsCagr => "eps_cagr_3y"
  | SigRoe => "roe"
  | SigRoce => "roce"
  | SigDebtToEquity => "debt_to_equity"
  | SigInterestCoverage => "interest_coverage"
  | SigPromoterChange => "promoter_change_qoq_pct_pts"
  | SigPriceAbove200d => "price_above_200d"
  | SigSma50Above200d => "sma50_above_200d"
  | SigWithin52wHigh => "within_pct_52w_high"
  | SigRsi => "rsi14"
  | SigVolumeMultiple => "volume_mult_vs_50d"
  end.

(** The fixed weight of a signal. *)
Definition weight (s : signal) : Q :=
  match s with
  | SigRsi | SigVolumeMultiple => 1 # 2
  | _ => 1
  end.

(** The two boolean signals; the others are numeric. *)
Definition is_flag (s : signal) : bool :=
  match s with
  | SigPriceAbove200d | SigSma50Above200d => true
  | _ => false
  end.

(** The test [_score_buy_row] applies to the cell of a signal. *)
Definition earns (cfg : ScreenerConfig) (s : signal) (c : cell) : bool :=
  match s with
  | SigPe => truthy c && between c (min_pe (valuation cfg)) (max_pe (valuation cfg))
  | SigPb => truthy c && cle c (max_pb (valuation cfg))
  | SigEvEbitda =>
      truthy c && opt_truthy (max_ev_ebitda (valuation cfg))
      && match max_ev_ebitda (valuation cfg) with
         | Some m => cle c m
         | None => false
         end
  | SigRevenueCagr => truthy c && cge c (min_revenue_cagr_3y (growth cfg))
  | SigEpsCagr => truthy c && cge c (min_eps_cagr_3y (growth cfg))
  | SigRoe => truthy c && cge c (min_roe (quality cfg))
  | SigRoce => truthy c && cge c (min_roce (quality cfg))
  | SigDebtToEquity => is_not_None c && cle c (max_debt_to_equity (quality cfg))
  | SigInterestCoverage => truthy c && cge c (min_interest_coverage (quality cfg))
  | SigPromoterChange =>
      is_not_None c && cge c (min_promoter_change_qoq_pct_pts (promoter cfg))
  | SigPriceAbove200d => truthy c
  | SigSma50Above200d => truthy c
  | SigWithin52wHigh => is_not_None c && cle c (within_pct_52w_high (technical cfg))
  | SigRsi => truthy c && between c (rsi_min (technical cfg)) (rsi_max (technical cfg))
  | SigVolumeMultiple => truthy c && cge c (min_volume_multiple_vs_50d (technical cfg))
  end.

(** What a signal adds to the score of a row. *)
Definition contribution (cfg : ScreenerConfig) (r : row) (s : signal) : Q :=
  if earns cfg s (get r (signal_key s)) then weight s else 0.

Definition Qsum (l : list Q) : Q := foldr Qplus 0%Q l.

(** The cells a signal can hold in a row built by [run_screen]: a flag is
    [None] or a boolean, a numeric field is [None], [NaN] or a finite
    float. *)
Definition admissible (s : signal) (c : cell) : bool :=
  match c with
  | CNone => true
  | CNaN => negb (is_flag s)
  | CNum _ => negb (is_flag s)
  | CBool _ => is_flag s
  | CStr _ => false
  end.

(** A cell meets the favourable threshold of its signal. *)
Definition favorable (cfg : ScreenerConfig) (s : signal) (c : cell) : bool :=
  match s, c with
  | SigPe, CNum q =>
      Qle_bool (min_pe (valuation cfg)) q && Qle_bool q (max_pe (valuation cfg))
  | SigPb, CNum q => Qle_bool q (max_pb (valuation cfg))
  | SigEvEbitda, CNum q =>
      match max_ev_ebitda (valuation cfg) with
      | Some m => Qle_bool q m
      | None => false
      end
  | SigRevenueCagr, CNum q => Qle_bool (min_revenue_cagr_3y (growth cfg)) q
  | SigEpsCagr, CNum q => Qle_bool (min_eps_cagr_3y (growth cfg)) q
  | SigRoe, CNum q => Qle_bool (min_roe (quality cfg)) q
  | SigRoce, CNum q => Qle_bool (min_roce (quality cfg)) q
  | SigDebtToEquity, CNum q => Qle_bool q (max_debt_to_equity (quality cfg))
  | SigInterestCoverage, CNum q => Qle_bool (min_interest_coverage (quality cfg)) q
  | SigPromoterChange, CNum q =>
      Qle_bool (min_promoter_change_qoq_pct_pts (promoter cfg)) q
  | SigPriceAbove200d, CBool b => b
  | SigSma50Above200d, CBool b => b
  | SigWithin52wHigh, CNum q => Qle_bool q (within_pct_52w_high (technical cfg))
  | SigRsi, CNum q =>
      Qle_bool (rsi_min (technical cfg)) q && Qle_bool q (rsi_max (technical cfg))
  | SigVolumeMultiple, CNum q =>
      Qle_bool (min_volume_multiple_vs_50d (technical cfg)) q
  | _, _ => false
  end.

(* ===================================================================== *)
(** ** The conditions of the filters, column by column *)
(* ===================================================================== *)

(** The columns the filters compare with a numeric threshold. *)
Definition threshold_columns : list string :=
  ["within_pct_52w_high"; "rsi14"; "volume_mult_vs_50d";
   "pe"; "pb"; "ev_ebitda"; "revenue_cagr_3y"; "eps_cagr_3y";
   "roe"; "roce"; "debt_to_equity"; "interest_coverage";
   "promoter_change_qoq_pct_pts"].

Definition technical_columns : list string :=
  ["price_above_200d"; "sma50_above_200d"; "within_pct_52w_high"; "rsi14";
   "volume_mult_vs_50d"].

Definition hard_columns : list string :=
  ["pe"; "pb"; "ev_ebitda"; "revenue_cagr_3y"; "eps_cagr_3y"; "roe"; "roce";
   "debt_to_equity"; "interest_coverage"; "promoter_change_qoq_pct_pts";
   "price_above_200d"; "sma50_above_200d"; "within_pct_52w_high"; "rsi14";
   "volume_mult_vs_50d"].

(** What the hard filter asks of the cell of a column. *)
Definition hard_condition (cfg : ScreenerConfig) (col : string) (c : cell) : bool :=
  if String.eqb col "pe" then
    between c (min_pe (valuation cfg)) (max_pe (valuation cfg)) || isna c
  else if String.eqb col "pb" then cle c (max_pb (valuation cfg)) || isna c
  else if String.eqb col "ev_ebitda" then
    match max_ev_ebitda (valuation cfg) with
    | Some m => cle c m || isna c
    | None => true
    end
  else if String.eqb col "revenue_cagr_3y" then
    cge c (min_revenue_cagr_3y (growth cfg)) || isna c
  else if String.eqb col "eps_cagr_3y" then
    cge c (min_eps_cagr_3y (growth cfg)) || isna c
  else if String.eqb col "roe" then cge c (min_roe (quality cfg)) || isna c
  else if String.eqb col "roce" then cge c (min_roce (quality cfg)) || isna c
  else if String.eqb col "debt_to_equity" then
    cle c (max_debt_to_equity (quality cfg)) || isna c
  else if String.eqb col "interest_coverage" then
    cge c (min_interest_coverage (quality cfg)) || isna c
  else if String.eqb col "promoter_change_qoq_pct_pts" then
    cge c (min_promoter_change_qoq_pct_pts (promoter cfg)) || isna c
  else if String.eqb col "price_above_200d" then
    if price_above_200d (technical cfg) then eq_True c else true
  else if String.eqb col "sma50_above_200d" then
    if sma50_above_200d (technical cfg) then eq_True c else true
  else if String.eqb col "within_pct_52w_high" then
    cle c (within_pct_52w_high (technical cfg)) || isna c
  else if String.eqb col "rsi14" then
    between c (rsi_min (technical cfg)) (rsi_max (technical cfg)) || isna c
  else if String.eqb col "volume_mult_vs_50d" then
    cge c (min_volume_multiple_vs_50d (technical cfg)) || isna c
  else true.

(** What the prefilter asks of the cell of a column, in a frame with the
    columns [cols]. *)
Definition technical_condition (tc : TechnicalConfig) (cols : gset string)
    (col : string) (c : cell) : bool :=
  if String.eqb col "price_above_200d" then
    if price_above_200d tc
    then eq_True (if decide (col ∈ cols) then c else CBool false) else true
  else if String.eqb col "sma50_above_200d" then
    if sma50_above_200d tc
    then eq_True (if decide (col ∈ cols) then c else CBool false) else true
  else if String.eqb col "within_pct_52w_high" then
    cle (if decide (col ∈ cols) then c else CNaN) (within_pct_52w_high tc) || isna c
  else if String.eqb col "rsi14" then
    between (if decide (col ∈ cols) then c else CNaN) (rsi_min tc) (rsi_max tc) || isna c
  else if String.eqb col "volume_mult_vs_50d" then
    cge (if decide (col ∈ cols) then c else CNaN) (min_volume_multiple_vs_50d tc) || isna c
  else true.

(** A symbol universe without any price history, fundamentals or promoter
    data. *)
Definition no_data : providers := {|
  hist_all := ∅;
  compute_fundamental_snapshot := λ _ _,
    {| market_cap := None; pe := None; pb := None; roe := None; roce := None;
       debt_to_equity := None; interest_coverage := None;
       revenue_cagr_3y := None; eps_cagr_3y := None; ev_ebitda := None |};
  fetch_promoter_shareholding_percent := λ _, None;
|}.


(** A row whose two flags are set and whose other fields are missing. *)
Definition flags_set_row : row :=
  <["sma50_above_200d" := CBool true]> (<["price_above_200d" := CBool true]> ∅).


(* ===================================================================== *)
(** ** The indicators, point by point *)
(* ===================================================================== *)

(** A value of a series is missing or not negative. *)
Definition nonneg (x : option Q) : Prop :=
  match x with Some q => (0 <= q)%Q | None => True end.

(** A value of a series is missing or zero. *)
Definition zero_or_nan (x : option Q) : Prop :=
  match x with Some q => (q == 0)%Q | None => True end.

(** The RSI of one day, from the average gain and the average loss of
    that day, as [rsi] computes it. *)
Definition rsi_point (avg_gain avg_loss : option Q) : float64 :=
  let rs := fdiv (to_float avg_gain)
              (to_float (match avg_loss with
                         | Some q => if Qeq_bool q 0 then None else Some q
                         | None => None
                         end)) in
  fsub (Finite 100) (fdiv (Finite 100) (fadd (Finite 1) rs)).

(** Price histories used as examples: [n] days at one price, and [n] days
    of closes going up and down by turns. *)
Definition flat_frame (n : nat) : frame :=
  replicate n {| Close := Some 10%Q; High := Some 11%Q; Low := Some 9%Q;
                 Volume := Some 100%Q |}.

Definition zigzag_frame (n : nat) : frame :=
  (λ i, let q := (if Nat.even i then 10 else 12)%Q in
        {| Close := Some q; High := Some q; Low := Some q;
           Volume := Some 100%Q |}) <$> seq 0 n.


(* ===================================================================== *)
(** ** The final order *)
(* ===================================================================== *)

(** The market capitalisation of the first row is not below that of the
    second; a row whose market capitalisation is unknown comes last. *)
Definition cap_order (m1 m2 : option Q) : Prop :=
  match m1, m2 with
  | Some a, Some b => (b <= a)%Q
  | Some _, None => True
  | None, None => True
  | None, Some _ => False
  end.

(** The first row may stand before the second: its score is higher, or
    the scores are equal and the market capitalisations are in order. *)
Definition ranked (r1 r2 : row) : Prop :=
  ∃ q1 q2 : Q,
    at_col r1 "score" = CNum q1 ∧ at_col r2 "score" = CNum q2
    ∧ ((q2 < q1)%Q
       ∨ ((q1 == q2)%Q
          ∧ cap_order (sort_key r1 "market_cap") (sort_key r2 "market_cap"))).


(* ===================================================================== *)
(** ** The stages of the pipeline *)
(* ===================================================================== *)

(** The fundamentals cap. *)
Definition capped_symbols (cfg : ScreenerConfig) (l : list string) : list string :=
  match fundamentals_max_symbols (run cfg) with
  | Some n => slice_to n l
  | None => l
  end.

(** The symbols whose fundamentals are fetched. *)
Definition symbols_for_funda (P : providers) (symbols : list string)
    (cfg : ScreenerConfig) (for_buy : bool) : list string :=
  let df := DataFrame_of (tech_row P <$> symbols) in
  let df := if for_buy then prefilter cfg df else df in
  capped_symbols cfg (if negb (empty df) then tolist_str "ticker" df else []).

(** The row dictionaries the table is built from: the enriched rows, or
    the technical rows when nothing was enriched. *)
Definition table_dicts (P : providers) (symbols : list string)
    (cfg : ScreenerConfig) (for_buy : bool) : list row :=
  match enrich P cfg (make_tech_map (tech_row P <$> symbols))
          <$> symbols_for_funda P symbols cfg for_buy with
  | [] => tech_row P <$> symbols
  | enriched_rows => enriched_rows
  end.

(** The table with the expected columns, before the hard filter. *)
Definition enriched_table (P : providers) (symbols : list string)
    (cfg : ScreenerConfig) (for_buy : bool) : DataFrame :=
  foldl ensure_column (DataFrame_of (table_dicts P symbols cfg for_buy)) expected_cols.

(** The table the scorer sees. *)
Definition filtered_table (P : providers) (symbols : list string)
    (cfg : ScreenerConfig) (for_buy : bool) : DataFrame :=
  let df := enriched_table P symbols cfg for_buy in
  if for_buy then hard_filter cfg df else df.

(** Every row of a table has a cell in every column, and no other. *)
Definition complete (df : DataFrame) : Prop :=
  Forall (λ r : row, dom r = columns df) (rows df).

(** The keys of a technical row. *)
Definition tech_row_keys : list string :=
  "ticker" :: (tech_defaults ++ ["within_pct_52w_high"])%list.

(** The keys [compute_technical_snapshot] writes. *)
Definition snapshot_keys : list string :=
  ["close"; "sma50"; "sma200"; "rsi14"; "vol"; "vol50"; "high_52w"; "low_52w";
   "price_above_200d"; "sma50_above_200d"; "within_10pct_52w_high";
   "volume_mult_vs_50d"].

(** The keys [enrich] writes. *)
Definition enrich_keys : list string :=
  ["market_cap"; "pe"; "pb"; "roe"; "roce"; "debt_to_equity"; "interest_coverage";
   "revenue_cagr_3y"; "eps_cagr_3y"; "ev_ebitda";
   "promoter_latest_pct"; "promoter_prev_pct"; "promoter_change_qoq_pct_pts"].

(** The fields of a ScreenRow, without the score. *)
Definition screen_row_fields : list string :=
  ["ticker";
   "close"; "sma50"; "sma200"; "rsi14"; "vol"; "vol50"; "high_52w"; "low_52w";
   "price_above_200d"; "sma50_above_200d"; "within_pct_52w_high";
   "volume_mult_vs_50d";
   "market_cap"; "pe"; "pb"; "roe"; "roce"; "debt_to_equity"; "interest_coverage";
   "revenue_cagr_3y"; "eps_cagr_3y"; "ev_ebitda";
   "promoter_latest_pct"; "promoter_prev_pct"; "promoter_change_qoq_pct_pts"].

(** Two symbols without price history; the second has the larger market
    capitalisation. *)
Definition two_caps : providers := {|
  hist_all := ∅;
  compute_fundamental_snapshot := λ ticker _,
    {| market_cap := if String.eqb ticker "A.NS" then Some 5%Q else Some 7%Q;
       pe := None; pb := None; roe := None; roce := None;
       debt_to_equity := None; interest_coverage := None;
       revenue_cagr_3y := None; eps_cagr_3y := None; ev_ebitda := None |};
  fetch_promoter_shareholding_percent := λ _, None;
|}.

(** The default configuration with fundamentals for one symbol only. *)
Definition cap_one_config : ScreenerConfig := {|
  universe := universe DEFAULT_CONFIG;
  valuation := valuation DEFAULT_CONFIG;
  growth := growth DEFAULT_CONFIG;
  quality := quality DEFAULT_CONFIG;
  promoter := promoter DEFAULT_CONFIG;
  technical := technical DEFAULT_CONFIG;
  run := {| lookback_days := 420; batch_size := 50; http_timeout := 20;
            single_download := true; download_pause_sec := 8 # 10;
            use_yahoo_info_fallback := false;
            fundamentals_max_symbols := Some 1%Z |};
|}.


(** What the pipeline relies on in the row dictionary of the symbol [y]:
    it names its ticker, has no score yet, and has every technical key. *)
Definition dict_of (y : string) (d : row) : Prop :=
  d !! "ticker" = Some (CStr y)
  ∧ d !! "score" = None
  ∧ ∀ k, k ∈ tech_row_keys → is_Some (d !! k).

(** The ticker a row names. *)
Definition ticker_of (d : row) : string := as_str (get d "ticker").


(** The default configuration without a fundamentals cap. *)
Definition no_cap_config : ScreenerConfig := {|
  universe := universe DEFAULT_CONFIG;
  valuation := valuation DEFAULT_CONFIG;
  growth := growth DEFAULT_CONFIG;
  quality := quality DEFAULT_CONFIG;
  promoter := promoter DEFAULT_CONFIG;
  technical := technical DEFAULT_CONFIG;
  run := {| lookback_days := 420; batch_size := 50; http_timeout := 20;
            single_download := true; download_pause_sec := 8 # 10;
            use_yahoo_info_fallback := false;
            fundamentals_max_symbols := None |};
|}.

(* ===================================================================== *)
(** ** The answers of the index provider *)
(* ===================================================================== *)

Import Universe.

(** An answer from which [fetch_nifty_constituents] gets a table: it
    arrives, parses, and has a column that is [Symbol] up to case and
    surrounding blanks. *)
Definition response_ok (resp : response) : bool :=
  match resp with
  | Content (Some df) =>
      existsb (λ c, String.eqb (lower (strip c)) "symbol") df.*1
  | _ => false
  end.

(** The number of columns of an answer that [fetch_nifty_constituents]
    hands on under the label [Symbol]: the columns whose header strips to
    [Symbol] or, when there is none, the columns whose stripped header is
    the first that reads [symbol] in lower case. *)
Definition symbol_columns (resp : response) : nat :=
  match resp with
  | Content (Some df) =>
      let labels := strip <$> df.*1 in
      if bool_decide ("Symbol" ∈ labels)
      then length (filter (λ c, c = "Symbol") labels)
      else match List.find (λ c, String.eqb (lower c) "symbol") labels with
           | Some sym_col => length (filter (λ c, c = sym_col) labels)
           | None => 0%nat
           end
  | _ => 0%nat
  end.

Definition raises {A} (r : outcome A * nat) : Prop :=
  match r.1 with Raised _ => True | Returned _ => False end.

(** A network on which every request ends with an HTTP error status. *)
Definition always_bad_status : nat → string → response := λ _ _, BadStatus.




(** The cells [enrich] writes for the symbol [y]: what the fundamentals
    provider and the promoter provider report, [None] for a field they
    do not report. *)
Definition provided_cells (P : providers) (cfg : ScreenerConfig) (y : string)
  : list (string * cell) :=
  let f := compute_fundamental_snapshot P y (use_yahoo_info_fallback (run cfg)) in
  let prom := fetch_promoter_shareholding_percent P (remove_dot_NS y) in
  let of_prom (field : PromoterSnapshot → option Q) : cell :=
    match prom with Some p => of_option (field p) | None => CNone end in
  [("market_cap", of_option (market_cap f));
   ("pe", of_option (pe f));
   ("pb", of_option (pb f));
   ("roe", of_option (roe f));
   ("roce", of_option (roce f));
   ("debt_to_equity", of_option (debt_to_equity f));
   ("interest_coverage", of_option (interest_coverage f));
   ("revenue_cagr_3y", of_option (revenue_cagr_3y f));
   ("eps_cagr_3y", of_option (eps_cagr_3y f));
   ("ev_ebitda", of_option (ev_ebitda f));
   ("promoter_latest_pct", of_prom latest_percent);
   ("promoter_prev_pct", of_prom prev_percent);
   ("promoter_change_qoq_pct_pts", of_prom change_qoq_pct_pts)].

(** The cells the technical phase writes for the symbol [y]: for each
    default key the cell of the snapshot of its price history, [None]
    when the snapshot has none or there is no history; and the distance
    from the 52-week high, [None] unless the close and the high are both
    there and not zero. *)
Definition technical_cells (P : providers) (y : string) : list (string * cell) :=
  let tech := match hist_all P !! y with
              | Some df => compute_technical_snapshot df
              | None => ∅
              end in
  let close := get tech "close" in
  let high := get tech "high_52w" in
  ((λ k, (k, get tech k)) <$> tech_defaults)
  ++ [("within_pct_52w_high",
       if truthy close && truthy high then pct_below_high close high else CNone)].

(** The row of the symbol [y] at any stage of the pipeline: its technical
    cells are those of the technical row of [y], and a fundamentals or
    promoter cell is not there yet, is [NaN], or is what the providers
    report for [y]. *)
Definition row_of (P : providers) (cfg : ScreenerConfig) (y : string) (d : row) : Prop :=
  (∀ k, k ∈ tech_row_keys → d !! k = tech_row P y !! k)
  ∧ (∀ k c, (k, c) ∈ provided_cells P cfg y →
       d !! k = None ∨ d !! k = Some CNaN ∨ d !! k = Some c).

(** A table of the pipeline before scoring: complete, without a score
    column, every row the row of one of the symbols. *)
Definition table_ok (P : providers) (symbols : list string) (cfg : ScreenerConfig)
    (df : DataFrame) : Prop :=
  complete df
  ∧ ("score" ∉ columns df)
  ∧ Forall (λ r, ∃ y, y ∈ symbols ∧ dict_of y r ∧ row_of P cfg y r) (rows df).

(* ===================================================================== *)
(** ** Further notions used in the properties *)
(* ===================================================================== *)

(** The second row shows the same cell as the first in every column. *)
Definition same_cells (r r' : row) : Prop := ∀ c, at_col r' c = at_col r c.

(** The signals [_score_buy_row] tests for truth ([if row.get(k) and ...]);
    the other three are tested with [is not None]. *)
Definition truth_tested (s : signal) : bool :=
  match s with
  | SigDebtToEquity | SigPromoterChange | SigWithin52wHigh => false
  | _ => true
  end.

(** The default configuration with a fundamentals cap of zero. *)
Definition cap_zero_config : ScreenerConfig := {|
  universe := universe DEFAULT_CONFIG;
  valuation := valuation DEFAULT_CONFIG;
  growth := growth DEFAULT_CONFIG;
  quality := quality DEFAULT_CONFIG;
  promoter := promoter DEFAULT_CONFIG;
  technical := technical DEFAULT_CONFIG;
  run := {| lookback_days := 420; batch_size := 50; http_timeout := 20;
            single_download := true; download_pause_sec := 8 # 10;
            use_yahoo_info_fallback := false;
            fundamentals_max_symbols := Some 0%Z |};
|}.

(** The fundamentals and promoter cells of a row are all missing. *)
Definition unenriched (r : row) : Prop := ∀ k, k ∈ enrich_keys → at_col r k = CNaN.

(** [n] days of closes that rise by one every day. *)
Definition rising_frame (n : nat) : frame :=
  (λ i, let q := inject_Z (Z.of_nat (S i)) in
        {| Close := Some q; High := Some q; Low := Some q;
           Volume := Some 100%Q |}) <$> seq 0 n.

(** A symbol listed 99 days ago, its price rising every day. *)
Definition young_listing : providers := {|
  hist_all := {["X.NS" := rising_frame 99]};
  compute_fundamental_snapshot := compute_fundamental_snapshot no_data;
  fetch_promoter_shareholding_percent := fetch_promoter_shareholding_percent no_data;
|}.

(** A network on which the first two requests fail and the third is
    answered with a small index file. *)
Definition flaky_network : nat → string → response :=
  λ n _, if (n <? 2)%nat then ConnectionFailed
         else Content (Some [("Company Name", ["Reliance Industries Ltd."; "TCS Ltd."]);
                             (" symbol", ["reliance "; "Tcs"])]).

(** The string has a full stop in it. *)
Fixpoint has_dot (s : string) : bool :=
  match s with
  | EmptyString => false
  | String c r => Ascii.eqb c "."%char || has_dot r
  end.

(** The configuration [main] runs with. *)
Definition main_config (args : RunScreener.Namespace) : ScreenerConfig := {|
  universe := {| name := upper (RunScreener.universe args);
                 limit := if negb (RunScreener.limit args =? 0)%Z
                             && (0 <? RunScreener.limit args)%Z
                          then Some (RunScreener.limit args) else None |};
  valuation := valuation DEFAULT_CONFIG;
  growth := growth DEFAULT_CONFIG;
  quality := quality DEFAULT_CONFIG;
  promoter := promoter DEFAULT_CONFIG;
  technical := technical DEFAULT_CONFIG;
  run := run DEFAULT_CONFIG;
|}.

(** A quick run on the first symbol of an index, in sell mode. *)
Definition quick_run : RunScreener.Namespace := {|
  RunScreener.universe := "nifty50";
  RunScreener.limit := 1;
  RunScreener.buy := true;
  RunScreener.sell := true;
  RunScreener.out := "results.csv";
|}.

(** The key of the first entry is not after the key of the second. *)
Definition key_le (x y : Nse.entry) : Prop :=
  String.leb (Nse.quarter_key x) (Nse.quarter_key y) = true.

(** The answer of the API used as an example: a category of public
    holdings, then two quarters of promoter holdings, the later one
    listed first. *)
Definition public_holdings : Nse.category_series :=
  {| Nse.category := Some "Public";
     Nse.data := [ {| Nse.percent := Some 49%Q;
                      Nse.quarterBeginDate := Some "2024-01-01";
                      Nse.quarterEndDate := None |} ] |}.

Definition promoter_holdings : Nse.category_series :=
  {| Nse.category := Some "Promoter & Promoter Group";
     Nse.data := [ {| Nse.percent := Some 51%Q;
                      Nse.quarterBeginDate := Some "2024-01-01";
                      Nse.quarterEndDate := None |};
                   {| Nse.percent := Some 50%Q;
                      Nse.quarterBeginDate := Some "2023-10-01";
                      Nse.quarterEndDate := None |} ] |}.

Definition two_quarters : string → option (list Nse.category_series) :=
  λ _, Some [public_holdings; promoter_holdings].

(** The providers of a run without price histories and fundamentals,
    its promoter data read from the answers [api] of the NSE. *)
Definition nse_providers (api : string → option (list Nse.category_series)) : providers := {|
  hist_all := ∅;
  compute_fundamental_snapshot := compute_fundamental_snapshot no_data;
  fetch_promoter_shareholding_percent := Nse.fetch_promoter_shareholding_percent api;
|}.

(** An answer with a single quarter of promoter holdings. *)
Definition one_quarter : string → option (list Nse.category_series) :=
  λ _, Some [public_holdings;
             {| Nse.category := Some "PROMOTERS";
                Nse.data := [ {| Nse.percent := Some 51%Q;
                                 Nse.quarterBeginDate := None;
                                 Nse.quarterEndDate := Some "2024-03-31" |} ] |}].

(** The default configuration without a maximal EV/EBITDA. *)
Definition no_ev_config : ScreenerConfig := {|
  universe := universe DEFAULT_CONFIG;
  valuation := {| min_pe := 5; max_pe := 35; max_pb := 6; max_ev_ebitda := None |};
  growth := growth DEFAULT_CONFIG;
  quality := quality DEFAULT_CONFIG;
  promoter := promoter DEFAULT_CONFIG;
  technical := technical DEFAULT_CONFIG;
  run := run DEFAULT_CONFIG;
|}.


(* ===================================================================== *)
(** * Properties *)
(* ===================================================================== *)

(* ===================================================================== *)
(** ** Facts about the scorer *)
(* ===================================================================== *)

Section ScoreFacts.

Lemma Qsum_nonneg (l : list Q) :
  Forall (λ q, 0 <= q)%Q l → (0 <= Qsum l)%Q.
Proof.
  induction 1 as [|q l Hq _ IH]; simpl.
  - apply Qle_refl.
  - replace 0%Q with (0 + 0)%Q by reflexivity. by apply Qplus_le_compat.
Qed.

Lemma Qsum_le {A} (f g : A → Q) (l : list A) :
  Forall (λ x, f x <= g x)%Q l → (Qsum (f <$> l) <= Qsum (g <$> l))%Q.
Proof.
  induction 1 as [|x l Hx _ IH]; simpl.
  - apply Qle_refl.
  - by apply Qplus_le_compat.
Qed.

(** Running through a list of tests, adding the weight of each that holds,
    is adding the weights that hold. *)
Lemma accumulate_sum (l : list (bool * Q)) (s0 : Q) :
  (foldl (λ score (t : bool * Q), if t.1 then score + t.2 else score) s0 l
   == s0 + Qsum ((λ t : bool * Q, if t.1 then t.2 else 0) <$> l))%Q.
Proof.
  revert s0. induction l as [|[b w] l IH]; intros s0; csimpl.
  - ring.
  - rewrite IH. destruct b; csimpl; ring.
Qed.

Lemma score_as_fold (r : row) (cfg : ScreenerConfig) :
  _score_buy_row r cfg
  = foldl (λ score (t : bool * Q), if t.1 then score + t.2 else score)%Q 0%Q
      ((λ s, (earns cfg s (get r (signal_key s)), weight s)) <$> all_signals).
Proof. reflexivity. Qed.

(** The score is the sum of the contributions of the fifteen signals. *)
Lemma score_sum (r : row) (cfg : ScreenerConfig) :
  (_score_buy_row r cfg == Qsum (contribution cfg r <$> all_signals))%Q.
Proof.
  rewrite score_as_fold, accumulate_sum, Qplus_0_l.
  rewrite <- list_fmap_compose. reflexivity.
Qed.

Lemma contribution_nonneg cfg r s : (0 <= contribution cfg r s)%Q.
Proof. unfold contribution. destruct (earns _ _ _), s; simpl; discriminate. Qed.

Lemma contribution_le_weight cfg r s : (contribution cfg r s <= weight s)%Q.
Proof. unfold contribution. destruct (earns _ _ _), s; simpl; discriminate. Qed.

Lemma signal_key_inj s1 s2 : signal_key s1 = signal_key s2 → s1 = s2.
Proof. destruct s1, s2; simpl; intros H; first [reflexivity | discriminate H]. Qed.

Lemma get_insert_eq (r : row) k v : get (<[k := v]> r) k = v.
Proof. unfold get. by rewrite lookup_insert_eq. Qed.

Lemma get_insert_ne (r : row) k k' v : k ≠ k' → get (<[k := v]> r) k' = get r k'.
Proof. intros Hne. unfold get. by rewrite lookup_insert_ne. Qed.

(** Writing the cell of one signal leaves the other contributions alone. *)
Lemma contribution_insert_ne cfg r s s' v :
  s ≠ s' →
  contribution cfg (<[signal_key s := v]> r) s' = contribution cfg r s'.
Proof.
  intros Hne. unfold contribution. rewrite get_insert_ne; [done|].
  intros Heq. by apply Hne, signal_key_inj.
Qed.

Lemma contribution_insert_eq cfg r s v :
  contribution cfg (<[signal_key s := v]> r) s
  = if earns cfg s v then weight s else 0%Q.
Proof. unfold contribution. by rewrite get_insert_eq. Qed.

(** An unknown cell of its signal's type earns nothing. *)
Lemma earns_unknown cfg s c :
  admissible s c = true → isna c = true → earns cfg s c = false.
Proof.
  destruct s, c; simpl; try discriminate; intros _ _;
    unfold between, cle, cge; simpl; rewrite ?andb_false_r; try reflexivity.
  destruct (max_ev_ebitda _); simpl; rewrite ?andb_false_r; reflexivity.
Qed.

(** A cell that does not meet the threshold earns nothing. *)
Lemma earns_favorable cfg s c :
  admissible s c = true → earns cfg s c = true → favorable cfg s c = true.
Proof.
  destruct s, c; simpl; try discriminate; try reflexivity;
    unfold between, cle, cge, opt_truthy; simpl;
    try (destruct (max_ev_ebitda (valuation cfg)); simpl);
    rewrite ?andb_true_iff; try tauto; intros; try discriminate; tauto.
Qed.

(** Changing the cell of one signal moves the score the way its own
    contribution moves. *)
Lemma score_insert_le cfg r s v :
  (contribution cfg r s <= contribution cfg (<[signal_key s := v]> r) s)%Q →
  (_score_buy_row r cfg <= _score_buy_row (<[signal_key s := v]> r) cfg)%Q.
Proof.
  intros Hs. rewrite !score_sum. apply Qsum_le, Forall_forall. intros s' _.
  destruct (decide (s = s')) as [<-|Hne]; [done|].
  rewrite contribution_insert_ne by done. apply Qle_refl.
Qed.

Lemma score_insert_ge cfg r s v :
  (contribution cfg (<[signal_key s := v]> r) s <= contribution cfg r s)%Q →
  (_score_buy_row (<[signal_key s := v]> r) cfg <= _score_buy_row r cfg)%Q.
Proof.
  intros Hs. rewrite !score_sum. apply Qsum_le, Forall_forall. intros s' _.
  destruct (decide (s = s')) as [<-|Hne]; [done|].
  rewrite contribution_insert_ne by done. apply Qle_refl.
Qed.

End ScoreFacts.

(* ===================================================================== *)
(** ** The score of a row *)
(* ===================================================================== *)

Section ScoreClaims.

Lemma Qsum_filter_weights (P : signal → bool) (l : list signal) :
  (Qsum (weight <$> filter (λ s, P s) l)
   == Qsum ((λ s, if P s then weight s else 0) <$> l))%Q.
Proof.
  induction l as [|s l IH]; csimpl; [reflexivity|].
  rewrite filter_cons. destruct (P s) eqn:HP.
  - rewrite decide_True by done. csimpl.
    apply Qplus_comp; [reflexivity|apply IH].
  - rewrite decide_False by (cbv; tauto). rewrite IH, Qplus_0_l. reflexivity.
Qed.

(** C10: for every row and every configuration the score lies between 0
    and 14 (thirteen weights of 1.0 and two of 0.5), and it is the sum of
    the weights of a sub-list of the fifteen signals. *)
Theorem score_range (r : row) (cfg : ScreenerConfig) :
  (0 <= _score_buy_row r cfg)%Q ∧ (_score_buy_row r cfg <= 14)%Q
  ∧ weight <$> all_signals = (replicate 13 1%Q ++ replicate 2 (1 # 2)%Q)%list
  ∧ ∃ chosen : list signal,
      sublist chosen all_signals
      ∧ (_score_buy_row r cfg == Qsum (weight <$> chosen))%Q.
Proof.
  split; [|split; [|split]].
  - rewrite score_sum. apply Qsum_nonneg, Forall_fmap, Forall_forall.
    intros s _. apply contribution_nonneg.
  - rewrite score_sum.
    apply Qle_trans with (Qsum (weight <$> all_signals)); [|discriminate].
    apply Qsum_le, Forall_forall. intros s _. apply contribution_le_weight.
  - reflexivity.
  - exists (filter (λ s, earns cfg s (get r (signal_key s))) all_signals).
    split; [apply sublist_filter|].
    rewrite score_sum, Qsum_filter_weights. reflexivity.
Qed.

(** C7: scoring is monotone in the available signals. Writing a value
    that meets its favourable threshold into a signal that was unknown
    never lowers the score; writing an unknown or an unfavourable value
    into a signal never raises it; a signal that is unknown contributes
    exactly zero and no contribution is negative. *)
Theorem score_monotone (cfg : ScreenerConfig) (r : row) (s : signal) (v : cell) :
  admissible s v = true →
  admissible s (get r (signal_key s)) = true →
  (isna (get r (signal_key s)) = true → favorable cfg s v = true →
     (_score_buy_row r cfg <= _score_buy_row (<[signal_key s := v]> r) cfg)%Q)
  ∧ (isna v = true ∨ favorable cfg s v = false →
     (_score_buy_row (<[signal_key s := v]> r) cfg <= _score_buy_row r cfg)%Q)
  ∧ (isna (get r (signal_key s)) = true → (contribution cfg r s == 0)%Q)
  ∧ (0 <= contribution cfg r s)%Q
  ∧ (_score_buy_row r cfg == Qsum (contribution cfg r <$> all_signals))%Q.
Proof.
  intros Hv Hr. split; [|split; [|split; [|split]]].
  - intros Hna _. apply score_insert_le.
    unfold contribution at 1. rewrite (earns_unknown cfg s _ Hr Hna).
    apply contribution_nonneg.
  - intros Hbad. apply score_insert_ge.
    rewrite contribution_insert_eq.
    assert (earns cfg s v = false) as ->; [|apply contribution_nonneg].
    destruct Hbad as [Hna|Hunf]; [by apply earns_unknown|].
    destruct (earns cfg s v) eqn:He; [|done].
    apply earns_favorable in He; congruence.
  - intros Hna. unfold contribution. by rewrite (earns_unknown cfg s _ Hr Hna).
  - apply contribution_nonneg.
  - apply score_sum.
Qed.

Lemma score_monotone_witness :
  admissible SigPe (CNum 20) = true
  ∧ admissible SigPe (get ∅ (signal_key SigPe)) = true
  ∧ isna (get ∅ (signal_key SigPe)) = true
  ∧ favorable DEFAULT_CONFIG SigPe (CNum 20) = true
  ∧ (_score_buy_row ∅ DEFAULT_CONFIG
     <= _score_buy_row (<[signal_key SigPe := CNum 20]> ∅) DEFAULT_CONFIG)%Q.
Proof.
  split; [reflexivity|]. split; [reflexivity|].
  split; [reflexivity|]. split; [reflexivity|].
  exact (proj1 (score_monotone DEFAULT_CONFIG ∅ SigPe (CNum 20) eq_refl eq_refl)
           eq_refl eq_refl).
Defined.

End ScoreClaims.

(* ===================================================================== *)
(** ** The prefilter and the hard filter *)
(* ===================================================================== *)

Section FilterFacts.

Lemma at_col_insert_eq (r : row) col v : at_col (<[col := v]> r) col = v.
Proof. unfold at_col. by rewrite lookup_insert_eq. Qed.

Lemma at_col_insert_ne (r : row) col col' v :
  col ≠ col' → at_col (<[col := v]> r) col' = at_col r col'.
Proof. intros Hne. unfold at_col. by rewrite lookup_insert_ne. Qed.

(** The masks are the conjunction of the conditions on their columns. *)
Lemma hard_mask_columns (cfg : ScreenerConfig) (r : row) :
  hard_mask cfg r = forallb (λ col, hard_condition cfg col (at_col r col)) hard_columns.
Proof.
  unfold hard_mask, hard_columns, hard_condition, forallb. cbn [String.eqb Ascii.eqb Bool.eqb].
  destruct (max_ev_ebitda (valuation cfg)),
    (price_above_200d (technical cfg)), (sma50_above_200d (technical cfg));
    rewrite ?andb_true_l, ?andb_true_r, <- ?andb_assoc; reflexivity.
Qed.

Lemma technical_mask_columns (tc : TechnicalConfig) (cols : gset string) (r : row) :
  technical_mask tc cols r
  = forallb (λ col, technical_condition tc cols col (at_col r col)) technical_columns.
Proof.
  unfold technical_mask, technical_columns, technical_condition, col_get, forallb.
  cbn [String.eqb Ascii.eqb Bool.eqb].
  destruct (price_above_200d tc), (sma50_above_200d tc);
    rewrite ?andb_true_l, ?andb_true_r, <- ?andb_assoc; reflexivity.
Qed.

(** On a threshold column, an unknown cell meets the condition. *)
Lemma hard_condition_unknown cfg col u :
  col ∈ threshold_columns → isna u = true → hard_condition cfg col u = true.
Proof.
  intros Hcol Hu. unfold threshold_columns in Hcol.
  repeat (apply elem_of_cons in Hcol as [->|Hcol]);
    [..|by apply elem_of_nil in Hcol];
    unfold hard_condition; cbn [String.eqb Ascii.eqb Bool.eqb];
    try destruct (max_ev_ebitda _); rewrite ?Hu, ?orb_true_r; reflexivity.
Qed.

Lemma technical_condition_unknown tc cols col u :
  col ∈ threshold_columns → isna u = true → technical_condition tc cols col u = true.
Proof.
  intros Hcol Hu. unfold threshold_columns in Hcol.
  repeat (apply elem_of_cons in Hcol as [->|Hcol]);
    [..|by apply elem_of_nil in Hcol];
    unfold technical_condition; cbn [String.eqb Ascii.eqb Bool.eqb];
    rewrite ?Hu, ?orb_true_r; reflexivity.
Qed.

Lemma forallb_insert_unknown (f : string → cell → bool) (r : row) col u v l :
  f col u = true →
  forallb (λ c, f c (at_col (<[col := v]> r) c)) l = true →
  forallb (λ c, f c (at_col (<[col := u]> r) c)) l = true.
Proof.
  intros Hu. rewrite !forallb_forall. intros H c Hc. specialize (H c Hc).
  destruct (decide (col = c)) as [<-|Hne].
  - by rewrite at_col_insert_eq.
  - rewrite at_col_insert_ne in * by done. done.
Qed.

Lemma forallb_exists_false {A} (f : A → bool) (x : A) (l : list A) :
  x ∈ l → f x = false → forallb f l = false.
Proof.
  intros Hx Hf. destruct (forallb f l) eqn:E; [|done].
  rewrite forallb_forall in E. rewrite <- Hf. symmetry. apply E.
  by apply list_elem_of_In.
Qed.

Lemma filter_idemp {A} (P : A → Prop) `{!∀ x, Decision (P x)} (l : list A) :
  filter P (filter P l) = filter P l.
Proof.
  induction l as [|x l IH]; [done|].
  rewrite filter_cons. destruct (decide (P x)) as [HP|HP]; [|done].
  rewrite filter_cons, decide_True by done. by rewrite IH.
Qed.

Lemma select_idemp mask df : select mask (select mask df) = select mask df.
Proof. unfold select. simpl. by rewrite filter_idemp. Qed.

End FilterFacts.

Section FilterClaims.

(** C6: the prefilter and the hard filter are idempotent: applied to its
    own output, either filter returns the same table. *)
Theorem filters_idempotent (cfg : ScreenerConfig) (df : DataFrame) :
  prefilter cfg (prefilter cfg df) = prefilter cfg df
  ∧ hard_filter cfg (hard_filter cfg df) = hard_filter cfg df.
Proof.
  split.
  - unfold prefilter. destruct (empty df) eqn:E; simpl; [by rewrite E|].
    destruct (empty (select _ df)) eqn:E2; simpl; [done|].
    apply select_idemp.
  - unfold hard_filter. destruct (empty df) eqn:E; simpl; [by rewrite E|].
    destruct (empty (select _ df)) eqn:E2; simpl; [done|].
    apply select_idemp.
Qed.

(** C1 (amended): an unknown numeric field never causes a row to be
    excluded: if the row passes the prefilter mask, or the hard filter
    mask, with some value in a threshold column, it passes with that
    column unknown, for every configuration. The two boolean conditions
    are different: when enabled they keep only the rows whose flag is
    [True], so a row whose flag is unknown is excluded. *)
Theorem unknown_numeric_field_passes (cfg : ScreenerConfig) (cols : gset string)
    (r : row) (col : string) (u v : cell) :
  col ∈ threshold_columns →
  isna u = true →
  (technical_mask (technical cfg) cols (<[col := v]> r) = true →
   technical_mask (technical cfg) cols (<[col := u]> r) = true)
  ∧ (hard_mask cfg (<[col := v]> r) = true →
     hard_mask cfg (<[col := u]> r) = true)
  ∧ (price_above_200d (technical cfg) = true →
     isna (at_col r "price_above_200d") = true →
     technical_mask (technical cfg) cols r = false ∧ hard_mask cfg r = false)
  ∧ (sma50_above_200d (technical cfg) = true →
     isna (at_col r "sma50_above_200d") = true →
     technical_mask (technical cfg) cols r = false ∧ hard_mask cfg r = false).
Proof.
  intros Hcol Hu. split; [|split; [|split]].
  - rewrite !technical_mask_columns.
    apply forallb_insert_unknown. by apply technical_condition_unknown.
  - rewrite !hard_mask_columns.
    apply forallb_insert_unknown. by apply hard_condition_unknown.
  - intros Hflag Hna. rewrite technical_mask_columns, hard_mask_columns. split;
      (apply (forallb_exists_false _ "price_above_200d");
       [apply list_elem_of_In; simpl; tauto|]);
      unfold technical_condition, hard_condition; cbn [String.eqb Ascii.eqb Bool.eqb];
      rewrite Hflag; destruct (at_col r "price_above_200d"); try discriminate;
      repeat case_decide; reflexivity.
  - intros Hflag Hna. rewrite technical_mask_columns, hard_mask_columns. split;
      (apply (forallb_exists_false _ "sma50_above_200d");
       [apply list_elem_of_In; simpl; tauto|]);
      unfold technical_condition, hard_condition; cbn [String.eqb Ascii.eqb Bool.eqb];
      rewrite Hflag; destruct (at_col r "sma50_above_200d"); try discriminate;
      repeat case_decide; reflexivity.
Qed.

End FilterClaims.

Section FilterExamples.

Lemma unknown_numeric_field_passes_witness :
  "pe" ∈ threshold_columns
  ∧ isna CNaN = true
  ∧ hard_mask DEFAULT_CONFIG (<["pe" := CNum 20]> flags_set_row) = true
  ∧ hard_mask DEFAULT_CONFIG (<["pe" := CNaN]> flags_set_row) = true.
Proof.
  assert ("pe" ∈ threshold_columns) as Hcol
    by (apply list_elem_of_In; simpl; tauto).
  split; [exact Hcol|]. split; [reflexivity|]. split; [reflexivity|].
  exact (proj1 (proj2 (unknown_numeric_field_passes DEFAULT_CONFIG ∅
                         flags_set_row "pe" CNaN (CNum 20) Hcol eq_refl))
           eq_refl).
Defined.

(** C1, as stated, fails for the two boolean conditions: under the default
    configuration a symbol without price history has an unknown
    [price_above_200d] flag; its row passes the prefilter mask once both
    flags are [True], but with the flags unknown it is excluded, and the
    buy screen returns no row for it. *)
Lemma unknown_flag_excluded :
  let r := tech_row no_data "X.NS" in
  isna (at_col r "price_above_200d") = true
  ∧ isna (at_col r "sma50_above_200d") = true
  ∧ technical_mask (technical DEFAULT_CONFIG) (dom r)
      (<["sma50_above_200d" := CBool true]> (<["price_above_200d" := CBool true]> r))
    = true
  ∧ technical_mask (technical DEFAULT_CONFIG) (dom r) r = false
  ∧ hard_mask DEFAULT_CONFIG r = false
  ∧ rows (run_screen no_data ["X.NS"] DEFAULT_CONFIG true) = [].
Proof. vm_compute. repeat split. Qed.

End FilterExamples.

(* ===================================================================== *)
(** ** The indicator engine *)
(* ===================================================================== *)

Section TechnicalFacts.

Lemma dropna_Forall (s : series) : Forall is_Some (dropna s).
Proof.
  apply Forall_forall. intros x Hx.
  by apply list_elem_of_filter in Hx as [? _].
Qed.

Lemma dropna_id (s : series) : Forall is_Some s → dropna s = s.
Proof.
  unfold dropna. induction 1 as [|x s Hx _ IH]; [done|].
  rewrite filter_cons, decide_True by done. by rewrite IH.
Qed.

Lemma nobs_all (s : series) : Forall is_Some s → nobs s = length s.
Proof. intros H. unfold nobs. by rewrite dropna_id. Qed.

Lemma tail_length (w : nat) (s : series) : length (tail w s) = Nat.min w (length s).
Proof. unfold tail. rewrite length_drop. lia. Qed.

(** The window at the most recent row is the tail of the series. *)
Lemma window_at_last (w : nat) (s : series) :
  s ≠ [] → window_at w (pred (length s)) s = tail w s.
Proof.
  intros Hs. unfold window_at, tail.
  assert (S (pred (length s)) = length s) as ->
    by (destruct s; [done|simpl; lia]).
  by rewrite take_ge.
Qed.

Lemma rolling_mean_length w mp (s : series) : length (rolling_mean w mp s) = length s.
Proof. apply length_imap. Qed.

Lemma rolling_mean_last (w mp : nat) (s : series) :
  s ≠ [] → iloc_last (rolling_mean w mp s) = window_mean mp (tail w s).
Proof.
  intros Hs. unfold iloc_last, rolling_mean.
  rewrite last_lookup, length_imap, list_lookup_imap.
  destruct (s !! pred (length s)) eqn:E; simpl.
  - by rewrite window_at_last.
  - apply lookup_ge_None in E. destruct s; [done|simpl in E; lia].
Qed.

(** The moving average at the most recent close: the mean of the last
    [min w n] closes, as soon as [max 1 (w / 2)] closes exist. *)
Lemma sma_last (w : nat) (close : series) :
  (0 < w)%nat → Forall is_Some close →
  iloc_last (simple_moving_average close w)
  = if decide (Nat.max 1 (w / 2) ≤ length close)%nat
    then Some (fsum (tail w close)
               / inject_Z (Z.of_nat (Nat.min w (length close))))%Q
    else None.
Proof.
  intros Hw Hall. unfold simple_moving_average.
  assert (w / 2 ≤ w)%nat as Hhalf by (apply Nat.Div0.div_le_upper_bound; lia).
  destruct close as [|x close'] eqn:Hc.
  - simpl. rewrite decide_False by (simpl; lia). done.
  - rewrite <- Hc in *. rewrite rolling_mean_last by (by rewrite Hc).
    unfold window_mean. rewrite nobs_all by (by apply Forall_drop).
    rewrite tail_length.
    assert (0 < length close)%nat by (rewrite Hc; simpl; lia).
    case_decide.
    + rewrite (proj2 (Nat.ltb_lt _ _)), (proj2 (Nat.leb_le _ _)) by lia. done.
    + rewrite (proj2 (Nat.leb_gt _ _)) by lia. by rewrite andb_false_r.
Qed.

Lemma fsum_nonneg (s : series) : Forall nonneg s → (0 <= fsum s)%Q.
Proof.
  induction 1 as [|[q|] s Hq _ IH]; simpl; [apply Qle_refl| |done].
  simpl in Hq. replace 0%Q with (0 + 0)%Q by reflexivity.
  by apply Qplus_le_compat.
Qed.

Lemma fsum_zero (s : series) : Forall zero_or_nan s → (fsum s == 0)%Q.
Proof.
  induction 1 as [|[q|] s Hq _ IH]; simpl; [reflexivity| |done].
  simpl in Hq. rewrite Hq, IH. reflexivity.
Qed.

Lemma inject_nat_pos (n : nat) : (0 < n)%nat → (0 < inject_Z (Z.of_nat n))%Q.
Proof. intros Hn. unfold Qlt. simpl. lia. Qed.

Lemma window_mean_nonneg mp (win : series) :
  Forall nonneg win → nonneg (window_mean mp win).
Proof.
  intros Hwin. unfold window_mean.
  destruct (0 <? nobs win)%nat eqn:Hn; simpl; [|done].
  destruct (mp <=? nobs win)%nat; simpl; [|done].
  apply Nat.ltb_lt in Hn. apply Qle_shift_div_l.
  - by apply inject_nat_pos.
  - rewrite Qmult_0_l. by apply fsum_nonneg.
Qed.

Lemma window_mean_zero mp (win : series) :
  Forall zero_or_nan win → zero_or_nan (window_mean mp win).
Proof.
  intros Hwin. unfold window_mean.
  destruct ((0 <? nobs win)%nat && (mp <=? nobs win)%nat); simpl; [|done].
  rewrite (fsum_zero _ Hwin). reflexivity.
Qed.

Lemma rolling_mean_Forall (P : option Q → Prop) w mp (s : series) :
  (∀ win, Forall P win → P (window_mean mp win)) →
  Forall P s → Forall P (rolling_mean w mp s).
Proof.
  intros Hmean Hs. apply Forall_lookup. intros i x.
  unfold rolling_mean. rewrite list_lookup_imap.
  destruct (s !! i); simpl; [|done]. intros [= <-].
  apply Hmean. unfold window_at. by apply Forall_drop, Forall_take.
Qed.

Lemma Forall_zip_with_both {A B C} (PA : A → Prop) (PB : B → Prop) (PC : C → Prop)
    (f : A → B → C) (l : list A) (k : list B) :
  (∀ x y, PA x → PB y → PC (f x y)) →
  Forall PA l → Forall PB k → Forall PC (zip_with f l k).
Proof.
  intros Hf Hl. revert k. induction Hl as [|x l Hx _ IH]; intros k Hk; [constructor|].
  destruct Hk as [|y k Hy Hk]; simpl; constructor; auto.
Qed.

Lemma diff_length (s : series) : length (diff s) = length s.
Proof.
  destruct s as [|x t]; [done|]. unfold diff. cbn [length].
  rewrite length_zip_with. cbn [length]. lia.
Qed.

Lemma rsi_up_nonneg (s : series) : Forall nonneg (rsi_up s).
Proof.
  unfold rsi_up, clip_lower. apply Forall_fmap, Forall_forall.
  intros [q|] _; simpl; [apply Q.le_max_l|done].
Qed.

Lemma rsi_down_nonneg (s : series) : Forall nonneg (rsi_down s).
Proof.
  unfold rsi_down, scale, clip_upper. rewrite <- list_fmap_compose.
  apply Forall_fmap, Forall_forall. intros [q|] _; simpl; [|done].
  pose proof (Q.le_min_l 0 q). lra.
Qed.

(** Without a change of price there is no loss. *)
Lemma diff_flat (s : series) (c : Q) :
  Forall (λ x, x = Some c) s → Forall zero_or_nan (diff s).
Proof.
  intros Hs. destruct s as [|x t]; [constructor|]. unfold diff.
  constructor; [done|].
  apply (Forall_zip_with_both (λ x, x = Some c) (λ x, x = Some c)); [|done|].
  - intros ? ? -> ->. simpl. ring.
  - by inversion Hs.
Qed.

Lemma rsi_down_flat (s : series) (c : Q) :
  Forall (λ x, x = Some c) s → Forall zero_or_nan (rsi_down s).
Proof.
  intros Hs. unfold rsi_down, scale, clip_upper. rewrite <- list_fmap_compose.
  apply Forall_fmap. eapply Forall_impl; [by apply (diff_flat s c)|].
  intros [q|]; simpl; [|done]. intros ->.
  rewrite (Q.min_l 0 0) by apply Qle_refl. reflexivity.
Qed.

Lemma rsi_pointwise (s : series) (p : nat) :
  rsi s p = zip_with rsi_point (rsi_avg_gain s p) (rsi_avg_loss s p).
Proof.
  unfold rsi, replace_zero_nan, rsi_point.
  generalize (rsi_avg_gain s p), (rsi_avg_loss s p). clear.
  intros l. induction l as [|x l IH]; intros [|y k]; simpl; [done..|].
  f_equal. apply IH.
Qed.

Lemma last_zip_with {C} (f : option Q → option Q → C) (l k : series) (d : C) :
  length l = length k → f None None = d →
  default d (last (zip_with f l k)) = f (iloc_last l) (iloc_last k).
Proof.
  intros Hlen Hf. unfold iloc_last.
  rewrite !last_lookup, lookup_zip_with, length_zip_with, <- Hlen, Nat.min_id.
  destruct (l !! pred (length l)) as [x|] eqn:El; simpl.
  - destruct (k !! pred (length l)) as [y|] eqn:Ek; simpl; [done|].
    apply lookup_ge_None in Ek. apply lookup_lt_Some in El. lia.
  - apply lookup_ge_None in El.
    destruct (k !! pred (length l)) as [y|] eqn:Ek; simpl; [|done].
    apply lookup_lt_Some in Ek. lia.
Qed.

Lemma iloc_last_Forall (P : option Q → Prop) (s : series) :
  P None → Forall P s → P (iloc_last s).
Proof.
  intros HN Hs. unfold iloc_last. destruct (last s) as [x|] eqn:E; simpl; [|done].
  apply last_Some_elem_of in E. by eapply Forall_forall in Hs.
Qed.

(** The relative strength of a day with losses, and its RSI. *)
Lemma rsi_point_value (g l : option Q) (a b : Q) :
  g = Some a → l = Some b → (0 <= a)%Q → (0 <= b)%Q → ¬ (b == 0)%Q →
  rsi_point g l = Finite (100 - 100 / (1 + a / b))%Q.
Proof.
  intros -> -> Ha Hb Hne. unfold rsi_point, to_float, fdiv, fadd, fsub.
  destruct (Qeq_bool b 0) eqn:Hz; [by apply Qeq_bool_iff in Hz|].
  rewrite Hz.
  assert (0 < b)%Q as Hpos by (apply Qle_lteq in Hb as [?|Heq]; [done|by symmetry in Heq]).
  assert (0 <= a / b)%Q as Hrs.
  { apply Qle_shift_div_l; [done|]. by rewrite Qmult_0_l. }
  destruct (Qeq_bool (1 + a / b) 0) eqn:Hone; [|done].
  apply Qeq_bool_iff in Hone. lra.
Qed.

(** With an average loss of zero, or none, there is no RSI. *)
Lemma rsi_point_zero_loss (g l : option Q) :
  zero_or_nan l → rsi_point g l = NaN.
Proof.
  unfold rsi_point. intros Hl. destruct l as [b|]; simpl in *.
  - apply Qeq_bool_iff in Hl. rewrite Hl. by destruct g.
  - by destruct g.
Qed.

Lemma rsi_point_no_gain (l : option Q) : rsi_point None l = NaN.
Proof. unfold rsi_point. destruct l as [b|]; simpl; [|done]. by destruct (Qeq_bool b 0). Qed.

(** The RSI of a day is a finite number or [NaN]. *)
Lemma rsi_point_cases (g l : option Q) :
  nonneg g → nonneg l →
  rsi_point g l = NaN
  ∨ ∃ a b, g = Some a ∧ l = Some b ∧ ¬ (b == 0)%Q
           ∧ rsi_point g l = Finite (100 - 100 / (1 + a / b))%Q.
Proof.
  intros Hg Hl. destruct g as [a|]; [|left; apply rsi_point_no_gain].
  destruct l as [b|]; [|left; by apply rsi_point_zero_loss].
  destruct (Qeq_dec b 0) as [Hz|Hne]; [left; by apply rsi_point_zero_loss|].
  right. exists a, b. repeat split; try done. by apply rsi_point_value.
Qed.

(** The RSI of a day at which it is defined. *)
Lemma rsi_point_range (g l : option Q) (r : Q) :
  nonneg g → nonneg l → rsi_point g l = Finite r → (0 <= r)%Q ∧ (r <= 100)%Q.
Proof.
  intros Hg Hl Hr.
  destruct (rsi_point_cases g l Hg Hl) as [Hnan|(a & b & -> & -> & Hne & Hv)]; [congruence|].
  rewrite Hv in Hr. injection Hr as <-. cbn in Hg, Hl.
  assert (0 < b)%Q as Hpos by (apply Qle_lteq in Hl as [?|Heq]; [done|by symmetry in Heq]).
  assert (0 <= a / b)%Q as Hrs.
  { apply Qle_shift_div_l; [done|]. by rewrite Qmult_0_l. }
  assert (0 < 1 + a / b)%Q by lra.
  assert (100 / (1 + a / b) <= 100)%Q.
  { apply Qle_shift_div_r; [done|]. lra. }
  assert (0 <= 100 / (1 + a / b))%Q.
  { apply Qle_shift_div_l; [done|]. lra. }
  split; lra.
Qed.

Lemma rsi_point_not_infinite (g l : option Q) (b : bool) :
  nonneg g → nonneg l → rsi_point g l ≠ Infinity b.
Proof.
  intros Hg Hl.
  destruct (rsi_point_cases g l Hg Hl) as [->|(? & ? & _ & _ & _ & ->)]; discriminate.
Qed.

Lemma rsi_length (s : series) (p : nat) : length (rsi s p) = length s.
Proof.
  unfold rsi, rsi_avg_gain, rsi_avg_loss, replace_zero_nan, rsi_up, rsi_down,
    scale, clip_lower, clip_upper.
  rewrite length_fmap, length_zip_with, !length_fmap, !rolling_mean_length, !length_fmap.
  rewrite diff_length. lia.
Qed.

Lemma rsi_last (s : series) (p : nat) :
  default NaN (last (rsi s p))
  = rsi_point (iloc_last (rsi_avg_gain s p)) (iloc_last (rsi_avg_loss s p)).
Proof.
  rewrite rsi_pointwise. apply last_zip_with; [|done].
  unfold rsi_avg_gain, rsi_avg_loss, rsi_up, rsi_down, scale, clip_lower, clip_upper.
  by rewrite !rolling_mean_length, !length_fmap.
Qed.

Lemma rsi_last_cell (s : series) (p : nat) :
  iloc_last_cell (rsi s p)
  = float_cell (rsi_point (iloc_last (rsi_avg_gain s p)) (iloc_last (rsi_avg_loss s p))).
Proof. unfold iloc_last_cell. by rewrite rsi_last. Qed.

End TechnicalFacts.

Section SnapshotFacts.

Lemma snapshot_sma200 (df : frame) :
  df ≠ [] →
  compute_technical_snapshot df !! "sma200"
  = Some (of_float (iloc_last (simple_moving_average (dropna (Close <$> df)) 200))).
Proof.
  destruct df as [|b df]; [done|]. intros _. unfold compute_technical_snapshot.
  cbv zeta. repeat (rewrite lookup_insert_ne by done). by rewrite lookup_insert_eq.
Qed.

Lemma snapshot_sma50 (df : frame) :
  df ≠ [] →
  compute_technical_snapshot df !! "sma50"
  = Some (of_float (iloc_last (simple_moving_average (dropna (Close <$> df)) 50))).
Proof.
  destruct df as [|b df]; [done|]. intros _. unfold compute_technical_snapshot.
  cbv zeta. repeat (rewrite lookup_insert_ne by done). by rewrite lookup_insert_eq.
Qed.

Lemma snapshot_rsi14 (df : frame) :
  df ≠ [] →
  compute_technical_snapshot df !! "rsi14"
  = Some (iloc_last_cell (rsi (dropna (Close <$> df)) 14)).
Proof.
  destruct df as [|b df]; [done|]. intros _. unfold compute_technical_snapshot.
  cbv zeta. repeat (rewrite lookup_insert_ne by done). by rewrite lookup_insert_eq.
Qed.

Lemma avg_gain_nonneg (s : series) (p : nat) : nonneg (iloc_last (rsi_avg_gain s p)).
Proof.
  apply iloc_last_Forall; [done|]. apply rolling_mean_Forall.
  - apply window_mean_nonneg.
  - apply rsi_up_nonneg.
Qed.

Lemma avg_loss_nonneg (s : series) (p : nat) : nonneg (iloc_last (rsi_avg_loss s p)).
Proof.
  apply iloc_last_Forall; [done|]. apply rolling_mean_Forall.
  - apply window_mean_nonneg.
  - apply rsi_down_nonneg.
Qed.

(** The RSI series holds finite numbers and [NaN] only. *)
Lemma rsi_not_infinite (s : series) (p : nat) :
  Forall (λ x, ∀ b, x ≠ Infinity b) (rsi s p).
Proof.
  rewrite rsi_pointwise.
  apply (Forall_zip_with_both nonneg nonneg).
  - intros g l Hg Hl b. by apply rsi_point_not_infinite.
  - apply rolling_mean_Forall; [apply window_mean_nonneg|apply rsi_up_nonneg].
  - apply rolling_mean_Forall; [apply window_mean_nonneg|apply rsi_down_nonneg].
Qed.

Lemma avg_loss_flat (s : series) (c : Q) (p : nat) :
  Forall (λ x, x = Some c) s → zero_or_nan (iloc_last (rsi_avg_loss s p)).
Proof.
  intros Hs. apply iloc_last_Forall; [done|]. apply rolling_mean_Forall.
  - apply window_mean_zero.
  - by apply (rsi_down_flat s c).
Qed.

End SnapshotFacts.

Section RsiHistory.

Lemma dropna_length (s : series) : (length (dropna s) ≤ length s)%nat.
Proof. apply length_filter. Qed.

Lemma rsi_down_head (s : series) :
  s ≠ [] → ∃ t, rsi_down s = None :: t ∧ S (length t) = length s.
Proof.
  intros Hs. destruct s as [|x s]; [done|].
  unfold rsi_down, scale, clip_upper, diff. rewrite !fmap_cons. cbn [fmap option_fmap option_map].
  eexists. split; [reflexivity|].
  rewrite !length_fmap, length_zip_with. cbn [length]. lia.
Qed.

Lemma window_mean_short (mp : nat) (win : series) :
  (nobs win < mp)%nat → window_mean mp win = None.
Proof.
  intros H. unfold window_mean.
  destruct (Nat.leb_spec mp (nobs win)); [lia|]. by rewrite andb_false_r.
Qed.

Lemma avg_loss_short (s : series) (p : nat) :
  (length s ≤ p)%nat → iloc_last (rsi_avg_loss s p) = None.
Proof.
  intros Hlen. destruct (decide (s = [])) as [->|Hs]; [done|].
  destruct (rsi_down_head s Hs) as (t & Ht & Hl).
  unfold rsi_avg_loss. rewrite rolling_mean_last by (by rewrite Ht).
  apply window_mean_short. unfold nobs.
  unfold tail. rewrite Ht.
  replace (length (None :: t) - p)%nat with 0%nat by (cbn [length]; lia).
  unfold dropna. rewrite drop_0.
  assert (length (filter (λ x : option Q, is_Some x) (None :: t)) ≤ length t)%nat; [|lia].
  rewrite filter_cons_False by (by intros [? ?]). apply length_filter.
Qed.

Lemma rsi_short (s : series) (p : nat) :
  (length s ≤ p)%nat → iloc_last_cell (rsi s p) = CNaN.
Proof.
  intros Hlen. rewrite rsi_last_cell, (avg_loss_short s p Hlen).
  by rewrite rsi_point_zero_loss.
Qed.

Lemma sma200_short (close : series) :
  Forall is_Some close → (length close < 100)%nat →
  iloc_last (simple_moving_average close 200) = None.
Proof.
  intros Hs Hlen. rewrite sma_last by (done || lia).
  apply decide_False. change (200 / 2)%nat with 100%nat. lia.
Qed.

Lemma gt_finite_None_r (a : option Q) : gt_finite a None = false.
Proof. by destruct a. Qed.

End RsiHistory.

Section SnapshotCells.

Ltac snapshot_cell df :=
  destruct df; [done|]; intros _; unfold compute_technical_snapshot; cbv zeta;
  repeat (rewrite lookup_insert_ne by done); by rewrite lookup_insert_eq.

Lemma snapshot_close (df : frame) :
  df ≠ [] →
  compute_technical_snapshot df !! "close"
  = Some (of_float (iloc_last (dropna (Close <$> df)))).
Proof. snapshot_cell df. Qed.

Lemma snapshot_high_52w (df : frame) :
  df ≠ [] →
  compute_technical_snapshot df !! "high_52w"
  = Some (of_float (if (20 <=? length (dropna (High <$> df)))%nat
                    then series_max (tail 252 (dropna (High <$> df))) else None)).
Proof. snapshot_cell df. Qed.

Lemma snapshot_low_52w (df : frame) :
  df ≠ [] →
  compute_technical_snapshot df !! "low_52w"
  = Some (of_float (if (20 <=? length (dropna (Low <$> df)))%nat
                    then series_min (tail 252 (dropna (Low <$> df))) else None)).
Proof. snapshot_cell df. Qed.

Lemma snapshot_price_above_200d (df : frame) :
  df ≠ [] →
  compute_technical_snapshot df !! "price_above_200d"
  = Some (CBool (gt_finite (iloc_last (dropna (Close <$> df)))
                   (iloc_last (simple_moving_average (dropna (Close <$> df)) 200)))).
Proof. snapshot_cell df. Qed.

Lemma snapshot_sma50_above_200d (df : frame) :
  df ≠ [] →
  compute_technical_snapshot df !! "sma50_above_200d"
  = Some (CBool (gt_finite (iloc_last (simple_moving_average (dropna (Close <$> df)) 50))
                   (iloc_last (simple_moving_average (dropna (Close <$> df)) 200)))).
Proof. snapshot_cell df. Qed.

Lemma snapshot_within_10pct (df : frame) :
  df ≠ [] →
  compute_technical_snapshot df !! "within_10pct_52w_high"
  = Some (CBool (match (if (20 <=? length (dropna (High <$> df)))%nat
                        then series_max (tail 252 (dropna (High <$> df))) else None),
                       iloc_last (dropna (Close <$> df)) with
                 | Some h, Some c => Qle_bool ((9 # 10) * h) c
                 | _, _ => false
                 end)).
Proof. snapshot_cell df. Qed.

Lemma snapshot_volume_mult (df : frame) :
  df ≠ [] →
  compute_technical_snapshot df !! "volume_mult_vs_50d"
  = Some (of_float (match iloc_last (dropna (Volume <$> df)),
                          iloc_last (rolling_mean 50 10 (dropna (Volume <$> df))) with
                    | Some v, Some a => if Qltb 0 a then Some (v / a)%Q else None
                    | _, _ => None
                    end)).
Proof. snapshot_cell df. Qed.

Lemma snapshot_vol (df : frame) :
  df ≠ [] →
  compute_technical_snapshot df !! "vol"
  = Some (of_float (iloc_last (dropna (Volume <$> df)))).
Proof. snapshot_cell df. Qed.

Lemma snapshot_vol50 (df : frame) :
  df ≠ [] →
  compute_technical_snapshot df !! "vol50"
  = Some (of_float (iloc_last (rolling_mean 50 10 (dropna (Volume <$> df))))).
Proof. snapshot_cell df. Qed.

Lemma sma50_short (close : series) :
  Forall is_Some close → (length close < 25)%nat →
  iloc_last (simple_moving_average close 50) = None.
Proof.
  intros Hs Hlen. rewrite sma_last by (done || lia).
  apply decide_False. change (50 / 2)%nat with 25%nat. lia.
Qed.

Lemma rolling_mean_short (w mp : nat) (s : series) :
  (length s < mp)%nat → iloc_last (rolling_mean w mp s) = None.
Proof.
  intros Hlen. destruct (decide (s = [])) as [->|Hs]; [done|].
  rewrite rolling_mean_last by done. apply window_mean_short.
  unfold nobs. pose proof (dropna_length (tail w s)) as H1.
  pose proof (tail_length w s) as H2. lia.
Qed.

(** An indicator whose history is too short is [NaN] in the snapshot. *)
Lemma snapshot_unknown_cells (df : frame) :
  df ≠ [] →
  (dropna (Close <$> df) = [] → compute_technical_snapshot df !! "close" = Some CNaN)
  ∧ ((length (dropna (Close <$> df)) < 25)%nat →
     compute_technical_snapshot df !! "sma50" = Some CNaN)
  ∧ ((length (dropna (Close <$> df)) < 100)%nat →
     compute_technical_snapshot df !! "sma200" = Some CNaN
     ∧ compute_technical_snapshot df !! "price_above_200d" = Some (CBool false)
     ∧ compute_technical_snapshot df !! "sma50_above_200d" = Some (CBool false))
  ∧ ((length (dropna (Close <$> df)) < 15)%nat →
     compute_technical_snapshot df !! "rsi14" = Some CNaN)
  ∧ ((length (dropna (High <$> df)) < 20)%nat →
     compute_technical_snapshot df !! "high_52w" = Some CNaN)
  ∧ ((length (dropna (Low <$> df)) < 20)%nat →
     compute_technical_snapshot df !! "low_52w" = Some CNaN)
  ∧ (dropna (Volume <$> df) = [] → compute_technical_snapshot df !! "vol" = Some CNaN)
  ∧ ((length (dropna (Volume <$> df)) < 10)%nat →
     compute_technical_snapshot df !! "vol50" = Some CNaN
     ∧ compute_technical_snapshot df !! "volume_mult_vs_50d" = Some CNaN).
Proof.
  intros Hdf. split; [|split; [|split; [|split; [|split; [|split; [|split]]]]]].
  - intros H. rewrite snapshot_close by done. by rewrite H.
  - intros H. rewrite snapshot_sma50 by done.
    by rewrite (sma50_short _ (dropna_Forall _) H).
  - intros H. split; [|split].
    + rewrite snapshot_sma200 by done.
      by rewrite (sma200_short _ (dropna_Forall _) H).
    + rewrite snapshot_price_above_200d by done.
      by rewrite (sma200_short _ (dropna_Forall _) H), gt_finite_None_r.
    + rewrite snapshot_sma50_above_200d by done.
      by rewrite (sma200_short _ (dropna_Forall _) H), gt_finite_None_r.
  - intros H. rewrite snapshot_rsi14 by done. rewrite rsi_short; [done|lia].
  - intros H. rewrite snapshot_high_52w by done.
    by rewrite (proj2 (Nat.leb_gt _ _) H).
  - intros H. rewrite snapshot_low_52w by done.
    by rewrite (proj2 (Nat.leb_gt _ _) H).
  - intros H. rewrite snapshot_vol by done. by rewrite H.
  - intros H. split.
    + rewrite snapshot_vol50 by done. by rewrite rolling_mean_short.
    + rewrite snapshot_volume_mult by done. rewrite rolling_mean_short by done.
      by destruct (iloc_last _).
Qed.

End SnapshotCells.

Section TechnicalClaims.

(** C4: whenever the snapshot's [rsi14] is defined it lies in [0, 100];
    whenever the 14-period average loss at the latest close is exactly
    zero the [rsi14] is unknown ([NaN]), not 100, and so it is for every
    flat series of closes; with an average loss that is not zero the
    [rsi14] is [100 - 100 / (1 + gain / loss)]; and no value of the RSI
    series is an infinity. *)
Theorem rsi14_range (df : frame) :
  let close := dropna (Close <$> df) in
  let snap := compute_technical_snapshot df in
  (∀ r, snap !! "rsi14" = Some (CNum r) → (0 <= r)%Q ∧ (r <= 100)%Q)
  ∧ (∀ l, iloc_last (rsi_avg_loss close 14) = Some l → (l == 0)%Q →
       snap !! "rsi14" = Some CNaN)
  ∧ (∀ c, df ≠ [] → Forall (λ x, x = Some c) close →
       snap !! "rsi14" = Some CNaN)
  ∧ (∀ g l, iloc_last (rsi_avg_gain close 14) = Some g →
       iloc_last (rsi_avg_loss close 14) = Some l → ¬ (l == 0)%Q →
       snap !! "rsi14" = Some (CNum (100 - 100 / (1 + g / l))%Q))
  ∧ Forall (λ x, ∀ b, x ≠ Infinity b) (rsi close 14).
Proof.
  intros close snap. subst snap. split; [|split; [|split; [|split]]].
  - intros r. destruct (decide (df = [])) as [->|Hdf]; [done|].
    rewrite snapshot_rsi14 by done. fold close. rewrite rsi_last_cell.
    destruct (rsi_point _ _) as [r'| |] eqn:E; simpl; [|done..].
    intros [= ->]. eapply rsi_point_range; [| |exact E].
    + apply avg_gain_nonneg.
    + apply avg_loss_nonneg.
  - intros l Hl Hz.
    assert (df ≠ []) as Hdf by (by intros ->).
    rewrite snapshot_rsi14 by done. fold close. rewrite rsi_last_cell, Hl.
    by rewrite rsi_point_zero_loss.
  - intros c Hdf Hflat.
    rewrite snapshot_rsi14 by done. fold close. rewrite rsi_last_cell.
    rewrite rsi_point_zero_loss; [done|]. by apply (avg_loss_flat close c).
  - intros g l Hg Hl Hne.
    assert (df ≠ []) as Hdf by (by intros ->).
    rewrite snapshot_rsi14 by done. fold close. rewrite rsi_last_cell.
    pose proof (avg_gain_nonneg close 14) as Hg0.
    pose proof (avg_loss_nonneg close 14) as Hl0.
    rewrite Hg in Hg0. rewrite Hl in Hl0.
    by rewrite (rsi_point_value _ _ g l Hg Hl Hg0 Hl0 Hne).
  - apply rsi_not_infinite.
Qed.

(** C3 (amended): the moving average reported in the snapshot is the value
    at the most recent close, the mean of the last [min n W] closes, and
    it is known as soon as [max 1 (W / 2)] closes exist: the trailing
    window need not be full. In particular, for every series of exactly
    199 closes [sma200] is known (the mean of all 199 closes) and so is
    [sma50] (the mean of the last 50). *)
Theorem snapshot_sma_window (df : frame) :
  let close := dropna (Close <$> df) in
  let n := length close in
  let snap := compute_technical_snapshot df in
  (df ≠ [] →
   snap !! "sma200"
   = Some (of_float (if decide (100 ≤ n)%nat
                     then Some (fsum (tail 200 close)
                                / inject_Z (Z.of_nat (Nat.min 200 n)))%Q
                     else None))
   ∧ snap !! "sma50"
     = Some (of_float (if decide (25 ≤ n)%nat
                       then Some (fsum (tail 50 close)
                                  / inject_Z (Z.of_nat (Nat.min 50 n)))%Q
                       else None)))
  ∧ (n = 199%nat →
     snap !! "sma200" = Some (CNum (fsum close / 199)%Q)
     ∧ snap !! "sma50" = Some (CNum (fsum (tail 50 close) / 50)%Q)).
Proof.
  intros close n snap. subst snap.
  assert (df ≠ [] →
    compute_technical_snapshot df !! "sma200"
    = Some (of_float (if decide (100 ≤ n)%nat
                      then Some (fsum (tail 200 close)
                                 / inject_Z (Z.of_nat (Nat.min 200 n)))%Q
                      else None))
    ∧ compute_technical_snapshot df !! "sma50"
      = Some (of_float (if decide (25 ≤ n)%nat
                        then Some (fsum (tail 50 close)
                                   / inject_Z (Z.of_nat (Nat.min 50 n)))%Q
                        else None))) as Hgen.
  { intros Hdf. rewrite snapshot_sma200, snapshot_sma50 by done. fold close.
    rewrite !sma_last by (lia || apply dropna_Forall). done. }
  split; [exact Hgen|].
  intros Hn.
  assert (df ≠ []) as Hdf by (intros ->; subst n close; discriminate Hn).
  destruct (Hgen Hdf) as [-> ->]. rewrite Hn.
  rewrite !decide_True by lia.
  assert (tail 200 close = close) as ->.
  { unfold tail. fold n. by rewrite Hn. }
  done.
Qed.

End TechnicalClaims.

Section TechnicalExamples.

Lemma rsi14_range_witness :
  compute_technical_snapshot (zigzag_frame 30) !! "rsi14" = Some (CNum (19600 # 392))
  ∧ ((0 <= 19600 # 392)%Q ∧ (19600 # 392 <= 100)%Q)
  ∧ compute_technical_snapshot (flat_frame 20) !! "rsi14" = Some CNaN.
Proof.
  assert (compute_technical_snapshot (zigzag_frame 30) !! "rsi14"
          = Some (CNum (19600 # 392))) as Hzig by (vm_compute; reflexivity).
  split; [exact Hzig|]. split.
  - exact (proj1 (rsi14_range (zigzag_frame 30)) _ Hzig).
  - apply (proj1 (proj2 (proj2 (rsi14_range (flat_frame 20)))) 10%Q); [discriminate|].
    vm_compute. repeat constructor.
Defined.

Lemma snapshot_sma_window_witness :
  length (dropna (Close <$> flat_frame 199)) = 199%nat
  ∧ compute_technical_snapshot (flat_frame 199) !! "sma200"
    = Some (CNum (fsum (dropna (Close <$> flat_frame 199)) / 199)%Q)
  ∧ compute_technical_snapshot (flat_frame 199) !! "sma50"
    = Some (CNum (fsum (tail 50 (dropna (Close <$> flat_frame 199))) / 50)%Q).
Proof.
  assert (length (dropna (Close <$> flat_frame 199)) = 199%nat) as Hn
    by (vm_compute; reflexivity).
  split; [exact Hn|].
  exact (proj2 (snapshot_sma_window (flat_frame 199)) Hn).
Defined.

(** C3, as stated, fails: a series of exactly 199 closes, here 199 days
    at the price 10, has a known [sma200], the mean of its 199 closes. *)
Lemma sma200_known_with_199_closes :
  length (dropna (Close <$> flat_frame 199)) = 199%nat
  ∧ compute_technical_snapshot (flat_frame 199) !! "sma200"
    = Some (CNum (1990 # 199))
  ∧ isna (CNum (1990 # 199)) = false
  ∧ (1990 # 199 == 10)%Q.
Proof. vm_compute. repeat split. Qed.

End TechnicalExamples.

(* ===================================================================== *)
(** ** Sorting *)
(* ===================================================================== *)

Section SortFacts.

Lemma cmp_desc_antisym (a b : option Q) : cmp_desc a b = CompOpp (cmp_desc b a).
Proof.
  destruct a as [x|], b as [y|]; simpl; try done.
  symmetry. apply Qcompare_antisym.
Qed.

Lemma cmp_desc_Eq_l (a b c : option Q) :
  cmp_desc a b = Eq → cmp_desc a c = cmp_desc b c.
Proof.
  destruct a as [x|], b as [y|], c as [z|]; simpl; try done.
  intros H. apply Qeq_alt in H. by rewrite H.
Qed.

Lemma cmp_desc_Eq_r (a b c : option Q) :
  cmp_desc b c = Eq → cmp_desc a b = cmp_desc a c.
Proof.
  destruct a as [x|], b as [y|], c as [z|]; simpl; try done.
  intros H. apply Qeq_alt in H. by rewrite H.
Qed.

Lemma cmp_desc_Lt_trans (a b c : option Q) :
  cmp_desc a b = Lt → cmp_desc b c = Lt → cmp_desc a c = Lt.
Proof.
  destruct a as [x|], b as [y|], c as [z|]; simpl; try done.
  rewrite <- !Qlt_alt. intros. by apply Qlt_trans with y.
Qed.

Lemma cmp_desc_le_trans (a b c : option Q) :
  cmp_desc a b ≠ Gt → cmp_desc b c ≠ Gt → cmp_desc a c ≠ Gt.
Proof.
  intros H1 H2.
  destruct (cmp_desc a b) eqn:E1; [| |done].
  - by rewrite (cmp_desc_Eq_l a b c E1).
  - destruct (cmp_desc b c) eqn:E2; [| |done].
    + by rewrite <- (cmp_desc_Eq_r a b c E2), E1.
    + by rewrite (cmp_desc_Lt_trans a b c E1 E2).
Qed.

#[global] Instance not_after_trans : Transitive not_after.
Proof.
  intros r1 r2 r3. unfold not_after, sort_cmp.
  set (s1 := sort_key r1 "score"). set (s2 := sort_key r2 "score").
  set (s3 := sort_key r3 "score").
  set (m1 := sort_key r1 "market_cap"). set (m2 := sort_key r2 "market_cap").
  set (m3 := sort_key r3 "market_cap").
  destruct (cmp_desc s1 s2) eqn:E12; [| |done].
  - rewrite (cmp_desc_Eq_l s1 s2 s3 E12).
    destruct (cmp_desc s2 s3) eqn:E23; [| done |done].
    intros H1 H2.
    assert (cmp_desc m1 m3 ≠ Gt) as H3.
    { apply (cmp_desc_le_trans m1 m2 m3).
      - by destruct (cmp_desc m1 m2).
      - by destruct (cmp_desc m2 m3). }
    by destruct (cmp_desc m1 m3).
  - intros _. destruct (cmp_desc s2 s3) eqn:E23; [| |done].
    + by rewrite <- (cmp_desc_Eq_r s1 s2 s3 E23), E12.
    + by rewrite (cmp_desc_Lt_trans s1 s2 s3 E12 E23).
Qed.

#[global] Instance not_after_total : Total not_after.
Proof.
  intros r1 r2. unfold not_after, sort_cmp.
  rewrite (cmp_desc_antisym (sort_key r2 "score")),
    (cmp_desc_antisym (sort_key r2 "market_cap")).
  destruct (cmp_desc (sort_key r1 "score") _),
    (cmp_desc (sort_key r1 "market_cap") _); simpl; tauto.
Qed.

(** For rows that carry a score, the order of the sort is the order of
    the ranking. *)
Lemma not_after_ranked (r1 r2 : row) (q1 q2 : Q) :
  at_col r1 "score" = CNum q1 → at_col r2 "score" = CNum q2 →
  not_after r1 r2 → ranked r1 r2.
Proof.
  intros H1 H2 Hna. exists q1, q2. split; [done|]. split; [done|].
  unfold not_after, sort_cmp, sort_key in Hna. rewrite H1, H2 in Hna.
  simpl in Hna. destruct (Qcompare_spec q2 q1) as [Heq|Hlt|Hgt]; [| |done].
  - right. split; [by symmetry|]. unfold sort_key.
    destruct (as_float (at_col r1 "market_cap")) as [a|],
      (as_float (at_col r2 "market_cap")) as [b|];
      cbn [cmp_desc cap_order] in *; try done.
    destruct (Qcompare_spec b a) as [Heq'|Hlt'|Hgt']; [| |done].
    + apply Qle_lteq. by right.
    + by apply Qlt_le_weak.
  - by left.
Qed.

Lemma insert_row_Permutation (r : row) (l : list row) : insert_row r l ≡ₚ r :: l.
Proof.
  induction l as [|r' l IH]; [done|]. cbn [insert_row].
  case_decide; [done|]. rewrite IH. apply Permutation_swap.
Qed.

Lemma sort_rows_Permutation (l : list row) : sort_rows l ≡ₚ l.
Proof.
  induction l as [|r l IH]; [done|]. cbn [sort_rows foldr].
  fold (sort_rows l). by rewrite insert_row_Permutation, IH.
Qed.

Lemma insert_row_sorted (r : row) (l : list row) :
  StronglySorted not_after l → StronglySorted not_after (insert_row r l).
Proof.
  induction 1 as [|r' l Hl IH Hr']; cbn [insert_row].
  - repeat constructor.
  - case_decide as Hna.
    + constructor; [by constructor|]. constructor; [done|].
      eapply Forall_impl; [exact Hr'|]. intros x Hx. by trans r'.
    + constructor; [done|]. rewrite insert_row_Permutation. constructor; [|done].
      by destruct (not_after_total r r').
Qed.

Lemma sort_rows_sorted (l : list row) : StronglySorted not_after (sort_rows l).
Proof.
  induction l as [|r l IH]; [constructor|]. cbn [sort_rows foldr].
  by apply insert_row_sorted.
Qed.

Lemma StronglySorted_strengthen {A} (R R' : relation A) (P : A → Prop) (l : list A) :
  (∀ x y, P x → P y → R x y → R' x y) →
  Forall P l → StronglySorted R l → StronglySorted R' l.
Proof.
  intros HR HP HS. induction HS as [|x l HS IH Hx]; [constructor|].
  inversion HP as [|? ? Px Pl]; subst. constructor; [by apply IH|].
  apply Forall_forall. intros y Hy.
  apply HR; [done| |].
  - by eapply Forall_forall in Pl.
  - by eapply Forall_forall in Hx.
Qed.

End SortFacts.

(* ===================================================================== *)
(** ** Tables *)
(* ===================================================================== *)

Section TableFacts.

Lemma ensure_column_columns df col :
  columns (ensure_column df col) = columns df ∪ {[col]}.
Proof. unfold ensure_column. case_decide; simpl; set_solver. Qed.

Lemma ensure_columns_columns df (l : list string) :
  columns (foldl ensure_column df l) = columns df ∪ list_to_set l.
Proof.
  revert df. induction l as [|c l IH]; intros df; simpl.
  - set_solver.
  - rewrite IH, ensure_column_columns. set_solver.
Qed.

Lemma prefilter_columns cfg df : columns (prefilter cfg df) = columns df.
Proof. unfold prefilter. by destruct (negb (empty df)). Qed.

Lemma hard_filter_columns cfg df : columns (hard_filter cfg df) = columns df.
Proof. unfold hard_filter. by destruct (negb (empty df)). Qed.

Lemma prefilter_rows_subseteq cfg df : rows (prefilter cfg df) ⊆ rows df.
Proof.
  unfold prefilter. destruct (negb (empty df)); simpl; [|done].
  intros r Hr. by apply list_elem_of_filter in Hr as [_ ?].
Qed.

Lemma hard_filter_rows_subseteq cfg df : rows (hard_filter cfg df) ⊆ rows df.
Proof.
  unfold hard_filter. destruct (negb (empty df)); simpl; [|done].
  intros r Hr. by apply list_elem_of_filter in Hr as [_ ?].
Qed.

Lemma empty_rows df : columns df ≠ ∅ → empty df = true ↔ rows df = [].
Proof.
  intros Hc. unfold empty. rewrite bool_decide_eq_false_2 by done.
  rewrite orb_false_r. by destruct (rows df).
Qed.

Lemma empty_nil df : rows df = [] → empty df = true.
Proof. intros H. unfold empty. by rewrite H. Qed.

(** Completeness is kept by every operation of the pipeline. *)
Lemma DataFrame_of_complete dicts : complete (DataFrame_of dicts).
Proof.
  unfold complete, DataFrame_of. simpl. apply Forall_fmap, Forall_forall.
  intros d Hd. simpl. rewrite dom_union_L, dom_gset_to_gmap.
  assert (dom d ⊆ ⋃ (dom <$> dicts)); [|set_solver].
  intros k Hk. apply elem_of_union_list. exists (dom d). split; [|done].
  apply list_elem_of_fmap. by exists d.
Qed.

Lemma ensure_column_complete df col : complete df → complete (ensure_column df col).
Proof.
  unfold complete, ensure_column. intros H. case_decide; simpl; [done|].
  apply Forall_fmap. eapply Forall_impl; [exact H|].
  intros r Hr. simpl. rewrite dom_insert_L, Hr. set_solver.
Qed.

Lemma ensure_columns_complete df (l : list string) :
  complete df → complete (foldl ensure_column df l).
Proof.
  revert df. induction l as [|c l IH]; intros df H; simpl; [done|].
  by apply IH, ensure_column_complete.
Qed.

Lemma select_complete mask df : complete df → complete (select mask df).
Proof.
  unfold complete, select. simpl. intros H. apply Forall_forall. intros r Hr.
  apply list_elem_of_filter in Hr as [_ Hr]. by eapply Forall_forall in H.
Qed.

Lemma hard_filter_complete cfg df : complete df → complete (hard_filter cfg df).
Proof. unfold hard_filter. destruct (negb (empty df)); [apply select_complete|done]. Qed.

Lemma assign_score_complete f df : complete df → complete (assign_score f df).
Proof.
  unfold complete, assign_score. simpl. intros H. apply Forall_fmap.
  eapply Forall_impl; [exact H|]. intros r Hr. simpl.
  rewrite dom_insert_L, Hr. set_solver.
Qed.

Lemma sort_values_complete df : complete df → complete (sort_values df).
Proof.
  unfold complete, sort_values. simpl. intros H.
  by rewrite sort_rows_Permutation.
Qed.

(** The cells of a column that is not touched. *)
Lemma at_col_normalise (d : row) (cols : gset string) k v :
  d !! k = Some v → at_col (d ∪ gset_to_gmap CNaN cols) k = v.
Proof. intros H. unfold at_col. by rewrite (lookup_union_Some_l _ _ _ _ H). Qed.

Lemma tolist_str_ensure_column df col k :
  col ≠ k → tolist_str k (ensure_column df col) = tolist_str k df.
Proof.
  intros Hne. unfold tolist_str, ensure_column. case_decide; simpl; [done|].
  rewrite <- list_fmap_compose. apply list_fmap_ext. intros i r _. simpl.
  by rewrite at_col_insert_ne.
Qed.

Lemma tolist_str_ensure_columns df (l : list string) k :
  k ∉ l → tolist_str k (foldl ensure_column df l) = tolist_str k df.
Proof.
  revert df. induction l as [|c l IH]; intros df Hk; simpl; [done|].
  rewrite IH by set_solver. apply tolist_str_ensure_column. set_solver.
Qed.

Lemma tolist_str_assign_score f df k :
  k ≠ "score" → tolist_str k (assign_score f df) = tolist_str k df.
Proof.
  intros Hne. unfold tolist_str, assign_score. simpl.
  rewrite <- list_fmap_compose. apply list_fmap_ext. intros i r _. simpl.
  by rewrite at_col_insert_ne.
Qed.

Lemma tolist_str_sort_values df k :
  tolist_str k (sort_values df) ≡ₚ tolist_str k df.
Proof.
  unfold tolist_str, sort_values. simpl. by rewrite sort_rows_Permutation.
Qed.

Lemma tolist_str_DataFrame_of (dicts : list row) (f : row → string) :
  Forall (λ d, d !! "ticker" = Some (CStr (f d))) dicts →
  tolist_str "ticker" (DataFrame_of dicts) = f <$> dicts.
Proof.
  intros H. unfold tolist_str, DataFrame_of. simpl.
  rewrite <- list_fmap_compose. apply Forall_fmap_ext_1.
  eapply Forall_impl; [exact H|]. intros d Hd. simpl.
  by rewrite (at_col_normalise _ _ _ _ Hd).
Qed.

Lemma slice_to_subseteq {A} (n : Z) (l : list A) : slice_to n l ⊆ l.
Proof.
  unfold slice_to. destruct (0 <=? n)%Z; apply sublist_subseteq, sublist_take.
Qed.

Lemma slice_to_nil {A} (n : Z) : slice_to n (@nil A) = [].
Proof. unfold slice_to. destruct (0 <=? n)%Z; apply take_nil. Qed.

End TableFacts.

(* ===================================================================== *)
(** ** Row dictionaries *)
(* ===================================================================== *)

#[global] Arguments compute_technical_snapshot : simpl never.
#[global] Arguments tech_row : simpl never.
#[global] Arguments enrich : simpl never.
#[global] Arguments _score_buy_row : simpl never.

Section RowFacts.

Lemma not_elem_of_cons_ne (k x : string) (l : list string) :
  k ∉ x :: l → x ≠ k ∧ k ∉ l.
Proof. intros H. split; [intros ->|intros ?]; apply H; by constructor. Qed.

(** The snapshot writes its own keys only. *)
Lemma snapshot_lookup_None (df : frame) (k : string) :
  k ∉ snapshot_keys → compute_technical_snapshot df !! k = None.
Proof.
  intros Hk. destruct df as [|b df]; [apply lookup_empty|].
  unfold snapshot_keys in Hk.
  repeat (apply not_elem_of_cons_ne in Hk as [? Hk]).
  unfold compute_technical_snapshot. cbv zeta.
  repeat (rewrite lookup_insert_ne by done). apply lookup_empty.
Qed.

Lemma setdefaults_lookup (l : list string) (v : cell) (d : row) (k : string) :
  foldl (λ b key, setdefault key v b) d l !! k
  = match d !! k with
    | Some x => Some x
    | None => if decide (k ∈ l) then Some v else None
    end.
Proof.
  revert d. induction l as [|c l IH]; intros d; simpl.
  - by destruct (d !! k).
  - rewrite IH. unfold setdefault.
    destruct (decide (c = k)) as [->|Hne].
    + destruct (d !! k) eqn:E; [by rewrite E|].
      rewrite lookup_insert_eq. rewrite decide_True by set_solver. done.
    + destruct (d !! c) eqn:Ec.
      * destruct (d !! k); [done|]. repeat case_decide; set_solver.
      * rewrite lookup_insert_ne by done.
        destruct (d !! k); [done|]. repeat case_decide; set_solver.
Qed.

(** The cells of a technical row, before its last key is written. *)
Lemma tech_row_lookup (P : providers) (y k : string) :
  k ≠ "within_pct_52w_high" →
  tech_row P y !! k
  = match (if negb (frame_empty (default [] (hist_all P !! y)))
           then compute_technical_snapshot (default [] (hist_all P !! y))
           else ∅) !! k with
    | Some x => Some x
    | None =>
        if decide (k = "ticker") then Some (CStr y)
        else if decide (k ∈ tech_defaults) then Some CNone else None
    end.
Proof.
  intros Hk. unfold tech_row.
  set (tech := if negb _ then _ else _).
  assert (∀ b : row, (if truthy (get b "close") && truthy (get b "high_52w")
            then <["within_pct_52w_high" :=
                    pct_below_high (get b "close") (get b "high_52w")]> b
            else <["within_pct_52w_high" := CNone]> b) !! k = b !! k) as ->.
  { intros b. destruct (_ && _); by rewrite lookup_insert_ne. }
  rewrite setdefaults_lookup. unfold update. rewrite lookup_union.
  destruct (tech !! k) as [x|] eqn:E; simpl.
  - by destruct (({["ticker" := CStr y]} : row) !! k).
  - destruct (decide (k = "ticker")) as [->|Ht].
    + by rewrite lookup_singleton_eq.
    + rewrite lookup_singleton_ne by done. done.
Qed.

Lemma tech_row_ticker (P : providers) (y : string) :
  tech_row P y !! "ticker" = Some (CStr y).
Proof.
  rewrite tech_row_lookup by done.
  assert (∀ df, compute_technical_snapshot df !! "ticker" = None) as Hs.
  { intros df. apply snapshot_lookup_None. unfold snapshot_keys.
    rewrite list_elem_of_In. simpl. intros H. repeat destruct H as [H|H]; done. }
  destruct (negb _); [by rewrite Hs|by rewrite lookup_empty].
Qed.

Lemma tech_row_no_score (P : providers) (y : string) :
  tech_row P y !! "score" = None.
Proof.
  rewrite tech_row_lookup by done.
  assert (∀ df, compute_technical_snapshot df !! "score" = None) as Hs.
  { intros df. apply snapshot_lookup_None. unfold snapshot_keys.
    rewrite list_elem_of_In. simpl. intros H. repeat destruct H as [H|H]; done. }
  destruct (negb _); [rewrite Hs|rewrite lookup_empty];
    rewrite decide_False by done; apply decide_False;
    unfold tech_defaults; rewrite list_elem_of_In; simpl;
    intros H; repeat destruct H as [H|H]; done.
Qed.

(** A technical row has all its keys. *)
Lemma tech_row_has (P : providers) (y k : string) :
  k ∈ tech_row_keys → is_Some (tech_row P y !! k).
Proof.
  intros Hk. destruct (decide (k = "within_pct_52w_high")) as [->|Hne].
  - unfold tech_row. destruct (_ && _); rewrite lookup_insert_eq; eauto.
  - rewrite tech_row_lookup by done.
    destruct (_ !! k); [eauto|].
    case_decide; [eauto|]. rewrite decide_True; [eauto|].
    unfold tech_row_keys in Hk. set_solver.
Qed.

(** The map from tickers to technical rows. *)
Lemma make_tech_map_lookup (P : providers) (symbols : list string) (y : string) :
  make_tech_map (tech_row P <$> symbols) !! y
  = if decide (y ∈ symbols) then Some (tech_row P y) else None.
Proof.
  unfold make_tech_map.
  assert (∀ m : gmap string row,
    foldl (λ m r, <[as_str (get r "ticker") := r]> m) m (tech_row P <$> symbols) !! y
    = if decide (y ∈ symbols) then Some (tech_row P y) else m !! y) as H.
  { induction symbols as [|x l IH]; intros m.
    - rewrite fmap_nil. cbn [foldl]. by rewrite decide_False by set_solver.
    - rewrite fmap_cons. cbn [foldl]. rewrite IH.
      unfold get at 1. rewrite tech_row_ticker. cbn [default as_str].
      destruct (decide (y ∈ l)).
      + by rewrite decide_True by set_solver.
      + destruct (decide (x = y)) as [->|Hne].
        * rewrite lookup_insert_eq. by rewrite decide_True by set_solver.
        * rewrite lookup_insert_ne by done. by rewrite decide_False by set_solver. }
  rewrite H. by rewrite lookup_empty.
Qed.

(** [enrich] writes its own keys only. *)
Lemma enrich_lookup (P : providers) cfg (m : gmap string row) (y k : string) :
  k ∉ enrich_keys →
  enrich P cfg m y !! k = default {["ticker" := CStr y]} (m !! y) !! k.
Proof.
  intros Hk. unfold enrich_keys in Hk.
  repeat (apply not_elem_of_cons_ne in Hk as [? Hk]).
  unfold enrich. destruct (fetch_promoter_shareholding_percent P _);
    by repeat (rewrite lookup_insert_ne by done).
Qed.

Lemma enrich_has (P : providers) cfg (m : gmap string row) (y k : string) :
  is_Some (default {["ticker" := CStr y]} (m !! y) !! k) →
  is_Some (enrich P cfg m y !! k).
Proof.
  intros H. unfold enrich. destruct (fetch_promoter_shareholding_percent P _);
    repeat (apply lookup_insert_is_Some'; right); done.
Qed.

End RowFacts.

(* ===================================================================== *)
(** ** The pipeline *)
(* ===================================================================== *)

#[global] Arguments DataFrame_of : simpl never.
#[global] Arguments ensure_column : simpl never.

Section PipelineFacts.

Context (P : providers) (symbols : list string) (cfg : ScreenerConfig).

Lemma table_dicts_frame (for_buy : bool) :
  DataFrame_of (table_dicts P symbols cfg for_buy)
  = match enrich P cfg (make_tech_map (tech_row P <$> symbols))
            <$> symbols_for_funda P symbols cfg for_buy with
    | [] => DataFrame_of (tech_row P <$> symbols)
    | _ => DataFrame_of (enrich P cfg (make_tech_map (tech_row P <$> symbols))
                           <$> symbols_for_funda P symbols cfg for_buy)
    end.
Proof. unfold table_dicts. by destruct (enrich P cfg _ <$> _). Qed.

Lemma run_screen_stages (for_buy : bool) :
  run_screen P symbols cfg for_buy
  = if negb (empty (filtered_table P symbols cfg for_buy))
    then sort_values (assign_score (λ r, _score_buy_row r cfg)
                        (filtered_table P symbols cfg for_buy))
    else filtered_table P symbols cfg for_buy.
Proof.
  unfold filtered_table, enriched_table. rewrite table_dicts_frame. reflexivity.
Qed.

Lemma tech_row_dict (y : string) : dict_of y (tech_row P y).
Proof.
  split; [apply tech_row_ticker|]. split; [apply tech_row_no_score|].
  intros k. apply tech_row_has.
Qed.

Lemma enrich_dict (y : string) :
  y ∈ symbols →
  dict_of y (enrich P cfg (make_tech_map (tech_row P <$> symbols)) y).
Proof.
  intros Hy.
  assert (("ticker" ∉ enrich_keys) ∧ ("score" ∉ enrich_keys)) as [Ht Hs].
  { unfold enrich_keys. rewrite !list_elem_of_In. simpl.
    split; intros H; repeat destruct H as [H|H]; done. }
  destruct (tech_row_dict y) as (H1 & H2 & H3).
  split; [|split].
  - rewrite enrich_lookup, make_tech_map_lookup, decide_True by done. done.
  - rewrite enrich_lookup, make_tech_map_lookup, decide_True by done. done.
  - intros k Hk. apply enrich_has.
    rewrite make_tech_map_lookup, decide_True by done. by apply H3.
Qed.

Lemma ticker_of_dict (y : string) (d : row) : dict_of y d → ticker_of d = y.
Proof. intros (H & _). unfold ticker_of, get. by rewrite H. Qed.

Lemma fmap_fmap_id {A B} (f : A → B) (g : B → A) (l : list A) :
  (∀ x, g (f x) = x) → g <$> (f <$> l) = l.
Proof.
  intros H. induction l as [|x l IH]; [done|].
  rewrite !fmap_cons. by rewrite H, IH.
Qed.

(** The technical table lists the symbols in their order. *)
Lemma tech_tickers :
  tolist_str "ticker" (DataFrame_of (tech_row P <$> symbols)) = symbols.
Proof.
  rewrite (tolist_str_DataFrame_of _ ticker_of).
  - apply fmap_fmap_id. intros y. apply ticker_of_dict, tech_row_dict.
  - apply Forall_fmap, Forall_forall. intros y _. cbn beta.
    unfold compose. rewrite (ticker_of_dict y) by apply tech_row_dict.
    apply tech_row_ticker.
Qed.

Lemma DataFrame_of_columns (dicts : list row) :
  columns (DataFrame_of dicts) = ⋃ (dom <$> dicts).
Proof. reflexivity. Qed.

Lemma DataFrame_of_rows_nil (dicts : list row) :
  rows (DataFrame_of dicts) = [] ↔ dicts = [].
Proof. unfold DataFrame_of. cbn [rows]. by destruct dicts. Qed.

Lemma tech_table_empty :
  empty (DataFrame_of (tech_row P <$> symbols)) = true ↔ symbols = [].
Proof.
  split; [|by intros ->].
  destruct symbols as [|y l] eqn:E; [done|].
  unfold empty. rewrite orb_true_iff. intros [H|H]; exfalso.
  - destruct (rows _) eqn:Hr; [|done].
    apply DataFrame_of_rows_nil in Hr. by rewrite fmap_cons in Hr.
  - apply bool_decide_eq_true in H.
    assert ("ticker" ∈ columns (DataFrame_of (tech_row P <$> y :: l))) as Hin.
    { rewrite DataFrame_of_columns, !fmap_cons, union_list_cons.
      apply elem_of_union_l, elem_of_dom. rewrite tech_row_ticker. eauto. }
    rewrite H in Hin. by apply not_elem_of_empty in Hin.
Qed.

Lemma capped_symbols_subseteq (l : list string) : capped_symbols cfg l ⊆ l.
Proof.
  unfold capped_symbols. destruct (fundamentals_max_symbols _); [|done].
  apply slice_to_subseteq.
Qed.

Lemma symbols_for_funda_subseteq (for_buy : bool) :
  symbols_for_funda P symbols cfg for_buy ⊆ symbols.
Proof.
  unfold symbols_for_funda. etrans; [apply capped_symbols_subseteq|].
  destruct (negb _); [|by intros y Hy; apply elem_of_nil in Hy].
  intros y Hy. unfold tolist_str in Hy.
  apply list_elem_of_fmap in Hy as (r & -> & Hr).
  assert (r ∈ rows (DataFrame_of (tech_row P <$> symbols))) as Hr'.
  { destruct for_buy; [|done]. by apply prefilter_rows_subseteq in Hr. }
  assert (as_str (at_col r "ticker")
          ∈ tolist_str "ticker" (DataFrame_of (tech_row P <$> symbols))) as Hin.
  { unfold tolist_str. apply list_elem_of_fmap. by exists r. }
  by rewrite tech_tickers in Hin.
Qed.

(** In sell mode the symbols to enrich are the symbols under the cap. *)
Lemma symbols_for_funda_sell :
  symbols_for_funda P symbols cfg false = capped_symbols cfg symbols.
Proof.
  unfold symbols_for_funda.
  destruct (empty (DataFrame_of (tech_row P <$> symbols))) eqn:E; simpl.
  - apply tech_table_empty in E. by rewrite E.
  - by rewrite tech_tickers.
Qed.

(** Every row dictionary of the table is the dictionary of a symbol. *)
Lemma table_dicts_spec (for_buy : bool) :
  Forall (λ d, ∃ y, y ∈ symbols ∧ dict_of y d) (table_dicts P symbols cfg for_buy).
Proof.
  unfold table_dicts.
  pose proof (symbols_for_funda_subseteq for_buy) as Hsub.
  destruct (symbols_for_funda P symbols cfg for_buy) as [|y0 l] eqn:E.
  - rewrite fmap_nil. apply Forall_fmap, Forall_forall. intros y Hy. cbn beta. unfold compose.
    exists y. split; [done|apply tech_row_dict].
  - rewrite fmap_cons. rewrite <- fmap_cons.
    apply Forall_fmap, Forall_forall. intros y Hy. cbn beta. unfold compose.
    exists y. split; [by apply Hsub|]. apply enrich_dict. by apply Hsub.
Qed.

Lemma table_dicts_nil (for_buy : bool) :
  table_dicts P symbols cfg for_buy = [] ↔ symbols = [].
Proof.
  unfold table_dicts. split.
  - destruct (symbols_for_funda P symbols cfg for_buy) as [|y0 l].
    + rewrite fmap_nil. by destruct symbols.
    + by rewrite fmap_cons.
  - intros Hs. pose proof (symbols_for_funda_subseteq for_buy) as Hsub.
    rewrite Hs in *.
    destruct (symbols_for_funda P [] cfg for_buy) as [|y0 l]; [done|].
    exfalso. eapply elem_of_nil, (Hsub y0). by left.
Qed.

Lemma ensure_columns_rows_nil df (l : list string) :
  rows df = [] → rows (foldl ensure_column df l) = [].
Proof.
  revert df. induction l as [|c l IH]; intros df H; simpl; [done|].
  apply IH. unfold ensure_column. case_decide; cbn [rows]; [done|]. by rewrite H.
Qed.

Lemma enriched_table_columns (for_buy : bool) :
  columns (enriched_table P symbols cfg for_buy)
  = ⋃ (dom <$> table_dicts P symbols cfg for_buy) ∪ list_to_set expected_cols.
Proof. unfold enriched_table. by rewrite ensure_columns_columns, DataFrame_of_columns. Qed.

Lemma filtered_table_columns (for_buy : bool) :
  columns (filtered_table P symbols cfg for_buy)
  = columns (enriched_table P symbols cfg for_buy).
Proof.
  unfold filtered_table. destruct for_buy; [apply hard_filter_columns|done].
Qed.

Lemma expected_in_columns (for_buy : bool) (c : string) :
  c ∈ expected_cols → c ∈ columns (enriched_table P symbols cfg for_buy).
Proof. intros Hc. rewrite enriched_table_columns. set_solver. Qed.

Lemma score_not_in_columns (for_buy : bool) :
  "score" ∉ columns (enriched_table P symbols cfg for_buy).
Proof.
  rewrite enriched_table_columns. rewrite not_elem_of_union. split.
  - rewrite elem_of_union_list. intros (X & HX & Hin).
    apply list_elem_of_fmap in HX as (d & -> & Hd).
    pose proof (table_dicts_spec for_buy) as Hspec.
    eapply Forall_forall in Hspec as (y & _ & _ & Hs & _); [|exact Hd].
    apply elem_of_dom in Hin as [? Hin]. congruence.
  - rewrite elem_of_list_to_set, list_elem_of_In. unfold expected_cols. simpl.
    intros H; repeat destruct H as [H|H]; done.
Qed.

Lemma tech_keys_in_columns (for_buy : bool) (k : string) :
  symbols ≠ [] → k ∈ tech_row_keys →
  k ∈ columns (enriched_table P symbols cfg for_buy).
Proof.
  intros Hs Hk. rewrite enriched_table_columns. apply elem_of_union_l.
  pose proof (table_dicts_spec for_buy) as Hspec.
  destruct (table_dicts P symbols cfg for_buy) as [|d l] eqn:E.
  { by apply table_dicts_nil in E. }
  apply Forall_cons in Hspec as [(y & _ & _ & _ & Hhas) _].
  rewrite fmap_cons, union_list_cons. apply elem_of_union_l, elem_of_dom.
  by apply Hhas.
Qed.

Lemma filtered_table_complete (for_buy : bool) :
  complete (filtered_table P symbols cfg for_buy).
Proof.
  unfold filtered_table, enriched_table.
  destruct for_buy; [apply hard_filter_complete|];
    apply ensure_columns_complete, DataFrame_of_complete.
Qed.

(** The table is empty exactly when it has no rows: it always has the
    expected columns. *)
Lemma filtered_table_empty (for_buy : bool) :
  empty (filtered_table P symbols cfg for_buy) = true
  ↔ rows (filtered_table P symbols cfg for_buy) = [].
Proof.
  apply empty_rows. rewrite filtered_table_columns.
  assert ("pe" ∈ columns (enriched_table P symbols cfg for_buy)) as Hpe.
  { apply expected_in_columns. unfold expected_cols.
    apply list_elem_of_In. simpl. tauto. }
  intros Heq. rewrite Heq in Hpe. by apply not_elem_of_empty in Hpe.
Qed.

Lemma filtered_table_rows_nil (for_buy : bool) :
  symbols = [] → rows (filtered_table P symbols cfg for_buy) = [].
Proof.
  intros Hs.
  assert (rows (enriched_table P symbols cfg for_buy) = []) as Hnil.
  { unfold enriched_table. apply ensure_columns_rows_nil.
    by apply DataFrame_of_rows_nil, table_dicts_nil. }
  unfold filtered_table. destruct for_buy; [|done].
  pose proof (hard_filter_rows_subseteq cfg (enriched_table P symbols cfg true)) as Hsub.
  rewrite Hnil in Hsub.
  destruct (rows (hard_filter cfg _)) as [|r l]; [done|].
  exfalso. eapply elem_of_nil, (Hsub r). by left.
Qed.

Lemma ticker_not_expected : "ticker" ∉ expected_cols.
Proof.
  unfold expected_cols. rewrite list_elem_of_In. cbn [In].
  intros H. repeat destruct H as [H|H]; done.
Qed.

Lemma table_tickers (for_buy : bool) :
  tolist_str "ticker" (enriched_table P symbols cfg for_buy)
  = ticker_of <$> table_dicts P symbols cfg for_buy.
Proof.
  unfold enriched_table.
  rewrite tolist_str_ensure_columns by apply ticker_not_expected.
  apply tolist_str_DataFrame_of.
  eapply Forall_impl; [apply table_dicts_spec|].
  intros d (y & _ & Hd). cbn beta.
  rewrite (ticker_of_dict y d Hd). by destruct Hd.
Qed.

Lemma fmap_ticker_of_enrich (l : list string) :
  l ⊆ symbols →
  ticker_of <$> (enrich P cfg (make_tech_map (tech_row P <$> symbols)) <$> l) = l.
Proof.
  intros Hsub. induction l as [|y l IH]; [done|].
  rewrite !fmap_cons. rewrite IH.
  - f_equal. apply ticker_of_dict, enrich_dict, Hsub. by left.
  - intros z Hz. apply Hsub. by right.
Qed.

Lemma sell_table_tickers :
  tolist_str "ticker" (enriched_table P symbols cfg false)
  = match capped_symbols cfg symbols with
    | [] => symbols
    | _ => capped_symbols cfg symbols
    end.
Proof.
  rewrite table_tickers. unfold table_dicts. rewrite symbols_for_funda_sell.
  pose proof (capped_symbols_subseteq symbols) as Hsub.
  destruct (capped_symbols cfg symbols) as [|y0 l] eqn:E.
  - rewrite fmap_nil. apply fmap_fmap_id. intros y.
    apply ticker_of_dict, tech_row_dict.
  - rewrite (fmap_cons _ y0 l), <- (fmap_cons _ y0 l).
    by apply fmap_ticker_of_enrich.
Qed.

Lemma filtered_table_sell :
  filtered_table P symbols cfg false = enriched_table P symbols cfg false.
Proof. reflexivity. Qed.

(** The stages of the pipeline, unfolded. *)
Lemma filtered_table_buy :
  filtered_table P symbols cfg true = hard_filter cfg (enriched_table P symbols cfg true).
Proof. reflexivity. Qed.

Lemma enriched_table_eq (for_buy : bool) :
  enriched_table P symbols cfg for_buy
  = foldl ensure_column (DataFrame_of (table_dicts P symbols cfg for_buy)) expected_cols.
Proof. reflexivity. Qed.

Lemma table_dicts_eq (for_buy : bool) :
  table_dicts P symbols cfg for_buy
  = match enrich P cfg (make_tech_map (tech_row P <$> symbols))
            <$> symbols_for_funda P symbols cfg for_buy with
    | [] => tech_row P <$> symbols
    | enriched_rows => enriched_rows
    end.
Proof. reflexivity. Qed.

Lemma symbols_for_funda_buy :
  symbols_for_funda P symbols cfg true
  = capped_symbols cfg
      (if negb (empty (prefilter cfg (DataFrame_of (tech_row P <$> symbols))))
       then tolist_str "ticker" (prefilter cfg (DataFrame_of (tech_row P <$> symbols)))
       else []).
Proof. reflexivity. Qed.

End PipelineFacts.

Section RowInvariant.

Context (P : providers) (symbols : list string) (cfg : ScreenerConfig).

Lemma tech_row_lookup_None (y k : string) :
  k ∉ tech_row_keys → k ∉ snapshot_keys → tech_row P y !! k = None.
Proof.
  intros Hk Hs. unfold tech_row_keys in Hk.
  apply not_elem_of_cons_ne in Hk as [Ht Hk].
  apply not_elem_of_app in Hk as [Hd Hw].
  apply not_elem_of_cons_ne in Hw as [Hw _].
  rewrite tech_row_lookup by done.
  assert ((if negb (frame_empty (default [] (hist_all P !! y)))
           then compute_technical_snapshot (default [] (hist_all P !! y))
           else ∅) !! k = None) as ->.
  { destruct (negb _); [by apply snapshot_lookup_None|apply lookup_empty]. }
  rewrite decide_False by done. by rewrite decide_False.
Qed.

Lemma provided_cells_keys (y k : string) (c : cell) :
  (k, c) ∈ provided_cells P cfg y → k ∈ enrich_keys.
Proof.
  unfold provided_cells, enrich_keys. cbv zeta. intros H.
  repeat (apply elem_of_cons in H as [[= -> _]|H];
          [apply list_elem_of_In; cbn [In]; tauto|]).
  by apply elem_of_nil in H.
Qed.

Lemma enrich_keys_fresh (k : string) :
  k ∈ enrich_keys →
  (k ∉ tech_row_keys) ∧ (k ∉ snapshot_keys) ∧ k ≠ "score" ∧ k ∈ expected_cols.
Proof.
  unfold enrich_keys. intros H.
  repeat (apply elem_of_cons in H as [->|H]); [..|by apply elem_of_nil in H];
    (split; [|split; [|split; [done|]]]);
    rewrite list_elem_of_In; cbv; try tauto;
    intros H; repeat destruct H as [H|H]; done.
Qed.

Lemma tech_row_keys_fresh (k : string) :
  k ∈ tech_row_keys → (k ∉ enrich_keys) ∧ k ≠ "score".
Proof.
  unfold tech_row_keys. intros H.
  repeat (apply elem_of_cons in H as [->|H]); [..|by apply elem_of_nil in H];
    (split; [|done]); rewrite list_elem_of_In; cbv;
    intros H; repeat destruct H as [H|H]; done.
Qed.

(** [enrich] writes what the providers report. *)
Lemma enrich_provided (m : gmap string row) (y k : string) (c : cell) :
  (k, c) ∈ provided_cells P cfg y → enrich P cfg m y !! k = Some c.
Proof.
  unfold provided_cells. cbv zeta. intros H. unfold enrich.
  destruct (fetch_promoter_shareholding_percent P (remove_dot_NS y));
    repeat (apply elem_of_cons in H as [[= -> ->]|H];
            [by repeat (rewrite lookup_insert_ne by done);
                rewrite lookup_insert_eq|]);
    by apply elem_of_nil in H.
Qed.

Lemma tech_row_row_of (y : string) : row_of P cfg y (tech_row P y).
Proof.
  split; [done|]. intros k c Hk. left.
  apply provided_cells_keys, enrich_keys_fresh in Hk as (? & ? & _).
  by apply tech_row_lookup_None.
Qed.

Lemma enrich_row_of (y : string) :
  y ∈ symbols →
  row_of P cfg y (enrich P cfg (make_tech_map (tech_row P <$> symbols)) y).
Proof.
  intros Hy. split.
  - intros k Hk. apply tech_row_keys_fresh in Hk as [Hk _].
    rewrite enrich_lookup, make_tech_map_lookup, decide_True by done. done.
  - intros k c Hk. right. right. by apply enrich_provided.
Qed.

Lemma table_dicts_rows (for_buy : bool) :
  Forall (λ d, ∃ y, y ∈ symbols ∧ dict_of y d ∧ row_of P cfg y d)
    (table_dicts P symbols cfg for_buy).
Proof.
  unfold table_dicts.
  pose proof (symbols_for_funda_subseteq P symbols cfg for_buy) as Hsub.
  destruct (symbols_for_funda P symbols cfg for_buy) as [|y0 l] eqn:E.
  - rewrite fmap_nil. apply Forall_fmap, Forall_forall. intros y Hy. cbn beta.
    unfold compose. exists y. split; [done|].
    split; [apply tech_row_dict|apply tech_row_row_of].
  - rewrite fmap_cons. rewrite <- fmap_cons.
    apply Forall_fmap, Forall_forall. intros y Hy. cbn beta. unfold compose.
    exists y. split; [by apply Hsub|].
    split; [apply enrich_dict|apply enrich_row_of]; by apply Hsub.
Qed.

(** Filling in the missing cells of a row keeps it the row of its symbol. *)
Lemma normalise_row (y : string) (d : row) (cols : gset string) :
  "score" ∉ cols → dict_of y d → row_of P cfg y d →
  dict_of y (d ∪ gset_to_gmap CNaN cols)
  ∧ row_of P cfg y (d ∪ gset_to_gmap CNaN cols).
Proof.
  intros Hs (Ht & Hsc & Hhas) (Htech & Hprov).
  assert (∀ k v, d !! k = Some v → (d ∪ gset_to_gmap CNaN cols) !! k = Some v) as Hkeep.
  { intros k v Hk. by apply lookup_union_Some_l. }
  assert (∀ k, d !! k = None →
            (d ∪ gset_to_gmap CNaN cols) !! k = None
            ∨ (d ∪ gset_to_gmap CNaN cols) !! k = Some CNaN ∧ k ∈ cols) as Hnew.
  { intros k Hk. rewrite lookup_union_r by done.
    rewrite lookup_gset_to_gmap. destruct (decide (k ∈ cols)).
    - right. by rewrite option_guard_True.
    - left. by rewrite option_guard_False. }
  split; [split; [|split]|split].
  - by apply Hkeep.
  - destruct (Hnew "score" Hsc) as [?|[_ ?]]; done.
  - intros k Hk. destruct (Hhas k Hk) as [v Hv]. rewrite (Hkeep k v Hv). eauto.
  - intros k Hk. destruct (Hhas k Hk) as [v Hv].
    rewrite (Hkeep k v Hv), <- Hv. by apply Htech.
  - intros k c Hk. destruct (d !! k) as [v|] eqn:E.
    + rewrite (Hkeep k v E). specialize (Hprov k c Hk). by rewrite E in Hprov.
    + destruct (Hnew k E) as [?|[? _]]; auto.
Qed.

Lemma insert_nan_row (y col : string) (d : row) :
  col ≠ "score" → d !! col = None → dict_of y d → row_of P cfg y d →
  dict_of y (<[col := CNaN]> d) ∧ row_of P cfg y (<[col := CNaN]> d).
Proof.
  intros Hcol Hnone (Ht & Hsc & Hhas) (Htech & Hprov).
  assert (∀ k, is_Some (d !! k) → <[col := CNaN]> d !! k = d !! k) as Hkeep.
  { intros k [v Hv]. rewrite lookup_insert_ne; [done|]. congruence. }
  split; [split; [|split]|split].
  - rewrite Hkeep; [done|]. rewrite Ht. eauto.
  - by rewrite lookup_insert_ne.
  - intros k Hk. rewrite Hkeep; by apply Hhas.
  - intros k Hk. rewrite Hkeep; [by apply Htech|by apply Hhas].
  - intros k c Hk. destruct (decide (col = k)) as [->|Hne].
    + right. left. apply lookup_insert_eq.
    + rewrite lookup_insert_ne by done. by apply Hprov.
Qed.

Lemma DataFrame_of_ok (dicts : list row) :
  Forall (λ d, ∃ y, y ∈ symbols ∧ dict_of y d ∧ row_of P cfg y d) dicts →
  table_ok P symbols cfg (DataFrame_of dicts).
Proof.
  intros Hd.
  assert ("score" ∉ columns (DataFrame_of dicts)) as Hs.
  { rewrite DataFrame_of_columns, elem_of_union_list. intros (X & HX & Hin).
    apply list_elem_of_fmap in HX as (d & -> & Hdin).
    destruct (proj1 (Forall_forall _ _) Hd d Hdin) as (y & _ & (_ & Hsc & _) & _).
    apply elem_of_dom in Hin as [? Hin]. congruence. }
  split; [apply DataFrame_of_complete|]. split; [done|].
  unfold DataFrame_of. cbn [rows]. apply Forall_fmap.
  eapply Forall_impl; [exact Hd|]. intros d (y & Hy & Hdict & Hrow). cbn beta.
  exists y. split; [done|]. by apply normalise_row.
Qed.

Lemma ensure_column_ok (df : DataFrame) (col : string) :
  col ≠ "score" → table_ok P symbols cfg df →
  table_ok P symbols cfg (ensure_column df col).
Proof.
  intros Hcol (Hc & Hs & Hr).
  split; [by apply ensure_column_complete|]. split.
  - rewrite ensure_column_columns, not_elem_of_union, not_elem_of_singleton. done.
  - unfold ensure_column. case_decide as Hin; [done|]. cbn [rows].
    apply Forall_fmap, Forall_forall. intros r Hrin. cbn beta.
    destruct (proj1 (Forall_forall _ _) Hr r Hrin) as (y & Hy & Hdict & Hrow).
    exists y. split; [done|]. apply insert_nan_row; [done| |done|done].
    apply not_elem_of_dom.
    by rewrite (proj1 (Forall_forall _ _) Hc r Hrin).
Qed.

Lemma ensure_columns_ok (df : DataFrame) (l : list string) :
  "score" ∉ l → table_ok P symbols cfg df →
  table_ok P symbols cfg (foldl ensure_column df l).
Proof.
  revert df. induction l as [|c l IH]; intros df Hl Hok; [done|].
  cbn [foldl]. apply not_elem_of_cons_ne in Hl as [Hc Hl].
  apply IH; [done|]. by apply ensure_column_ok.
Qed.

Lemma select_ok (mask : row → bool) (df : DataFrame) :
  table_ok P symbols cfg df → table_ok P symbols cfg (select mask df).
Proof.
  intros (Hc & Hs & Hr). split; [by apply select_complete|]. split; [done|].
  unfold select. cbn [rows]. apply Forall_forall. intros r Hrin.
  apply list_elem_of_filter in Hrin as [_ Hrin].
  by apply (proj1 (Forall_forall _ _) Hr).
Qed.

Lemma score_not_expected : "score" ∉ expected_cols.
Proof.
  unfold expected_cols. rewrite list_elem_of_In. cbn [In].
  intros H. repeat destruct H as [H|H]; done.
Qed.

Lemma filtered_table_ok (for_buy : bool) :
  table_ok P symbols cfg (filtered_table P symbols cfg for_buy).
Proof.
  assert (table_ok P symbols cfg (enriched_table P symbols cfg for_buy)) as Hok.
  { unfold enriched_table. apply ensure_columns_ok; [apply score_not_expected|].
    apply DataFrame_of_ok, table_dicts_rows. }
  unfold filtered_table. destruct for_buy; [|done].
  unfold hard_filter. destruct (negb _); [by apply select_ok|done].
Qed.

End RowInvariant.

Section ScoredRows.

Context (P : providers) (symbols : list string) (cfg : ScreenerConfig).

Lemma snapshot_cell_kinds (df : frame) :
  df ≠ [] →
  (∃ b, compute_technical_snapshot df !! "price_above_200d" = Some (CBool b))
  ∧ (∃ b, compute_technical_snapshot df !! "sma50_above_200d" = Some (CBool b))
  ∧ (∃ o, compute_technical_snapshot df !! "rsi14" = Some (of_float o))
  ∧ (∃ o, compute_technical_snapshot df !! "volume_mult_vs_50d" = Some (of_float o)).
Proof.
  intros Hdf. split; [|split; [|split]].
  - destruct df as [|b df]; [done|]. unfold compute_technical_snapshot.
    cbv zeta. eexists. repeat (rewrite lookup_insert_ne by done). by rewrite lookup_insert_eq.
  - destruct df as [|b df]; [done|]. unfold compute_technical_snapshot.
    cbv zeta. eexists. repeat (rewrite lookup_insert_ne by done). by rewrite lookup_insert_eq.
  - rewrite snapshot_rsi14 by done. unfold iloc_last_cell.
    destruct (default NaN _) as [q| |]; [by exists (Some q)|by exists None..].
  - destruct df as [|b df]; [done|]. unfold compute_technical_snapshot.
    cbv zeta. eexists. repeat (rewrite lookup_insert_ne by done). by rewrite lookup_insert_eq.
Qed.

(** The cells of the technical signals in a technical row. *)
Lemma tech_row_signal_admissible (y : string) (s : signal) :
  signal_key s ∈ tech_row_keys →
  admissible s (get (tech_row P y) (signal_key s)) = true.
Proof.
  intros Hk. unfold get.
  destruct (decide (s = SigWithin52wHigh)) as [->|Hw].
  { unfold tech_row. cbn [signal_key].
    match goal with |- context [if ?b then _ else _] => destruct b end;
      rewrite lookup_insert_eq; cbn [default]; [|done].
    unfold pct_below_high.
    repeat match goal with
           | |- context [match as_float ?x with _ => _ end] => destruct (as_float x)
           end; done. }
  rewrite tech_row_lookup by (by destruct s).
  set (df := default [] (hist_all P !! y)).
  destruct (frame_empty df) eqn:Hdf; cbn [negb].
  - rewrite lookup_empty.
    destruct s; try done;
      exfalso; revert Hk; unfold tech_row_keys; rewrite list_elem_of_In; cbv;
      intros H; repeat destruct H as [H|H]; done.
  - assert (df ≠ []) as Hne by (by destruct df).
    destruct (snapshot_cell_kinds df Hne) as ([b1 H1] & [b2 H2] & [o3 H3] & [o4 H4]).
    destruct s; try done; cbn [signal_key];
      try (exfalso; revert Hk; unfold tech_row_keys; rewrite list_elem_of_In; cbv;
           intros H; repeat destruct H as [H|H]; done).
    + by rewrite H1.
    + by rewrite H2.
    + rewrite H3. by destruct o3.
    + rewrite H4. by destruct o4.
Qed.

Lemma provided_cell_admissible (y : string) (s : signal) (c : cell) :
  (signal_key s, c) ∈ provided_cells P cfg y → admissible s c = true.
Proof.
  unfold provided_cells. cbv zeta. intros H.
  repeat (apply elem_of_cons in H as [[= Hk ->]|H];
          [destruct s; try discriminate Hk;
           try match goal with
               | |- context [fetch_promoter_shareholding_percent ?a ?b] =>
                   destruct (fetch_promoter_shareholding_percent a b)
               end;
           unfold of_option;
           try match goal with
               | |- context [match ?f ?x with Some _ => _ | None => _ end] =>
                   destruct (f x)
               end; reflexivity|]).
  by apply elem_of_nil in H.
Qed.

Lemma signal_key_cases (s : signal) :
  signal_key s ∈ tech_row_keys
  ∨ ∀ y, ∃ c, (signal_key s, c) ∈ provided_cells P cfg y.
Proof.
  destruct s;
    first [ left; apply list_elem_of_In; cbv; tauto
          | right; intros y; eexists; unfold provided_cells; cbv zeta;
            cbn [signal_key]; apply list_elem_of_In; cbn [In];
            repeat first [ left; reflexivity | right ] ].
Qed.

Lemma get_ext (r r' : row) (k : string) : r !! k = r' !! k → get r k = get r' k.
Proof. unfold get. by intros ->. Qed.

Lemma enrich_key_not_flag (s : signal) :
  signal_key s ∈ enrich_keys → is_flag s = false.
Proof.
  intros H. destruct s; try reflexivity; exfalso;
    apply list_elem_of_In in H; cbn [signal_key enrich_keys In] in H;
    repeat destruct H as [H|H]; done.
Qed.

(** The rows handed to the scorer hold, for every signal, a cell of the
    kind of the signal. *)
Lemma scored_rows_admissible (for_buy : bool) (r : row) (s : signal) :
  r ∈ rows (filtered_table P symbols cfg for_buy) →
  admissible s (get r (signal_key s)) = true.
Proof.
  intros Hr.
  destruct (filtered_table_ok P symbols cfg for_buy) as (_ & _ & Hrows).
  destruct (proj1 (Forall_forall _ _) Hrows r Hr) as (y & _ & _ & Htech & Hprov).
  clear Hrows Hr.
  destruct (signal_key_cases s) as [Hk|Hk].
  - rewrite (get_ext r (tech_row P y) _ (Htech _ Hk)).
    by apply tech_row_signal_admissible.
  - destruct (Hk y) as [c Hc]. unfold get.
    destruct (Hprov _ _ Hc) as [->|[->| ->]]; cbn [default].
    + done.
    + apply provided_cells_keys, enrich_key_not_flag in Hc.
      unfold admissible. by rewrite Hc.
    + by apply (provided_cell_admissible y).
Qed.

End ScoredRows.

#[global] Opaque enriched_table filtered_table table_dicts symbols_for_funda.

(* ===================================================================== *)
(** ** The cells of a row through the stages *)
(* ===================================================================== *)

Section MaskFacts.

Lemma forallb_ext_in {A} (f g : A → bool) (l : list A) :
  (∀ x, x ∈ l → f x = g x) → forallb f l = forallb g l.
Proof.
  induction l as [|a l IH]; intros H; [done|]. cbn [forallb].
  rewrite (H a), IH; [done| |by left]. intros x Hx. apply H. by right.
Qed.

Lemma hard_mask_ext (cfg : ScreenerConfig) (r r' : row) :
  (∀ c, c ∈ hard_columns → at_col r c = at_col r' c) →
  hard_mask cfg r = hard_mask cfg r'.
Proof.
  intros H. rewrite !hard_mask_columns. apply forallb_ext_in.
  intros c Hc. by rewrite (H c Hc).
Qed.

Lemma score_not_hard_column : "score" ∉ hard_columns.
Proof. intros H. apply list_elem_of_In in H. cbv in H. intuition discriminate. Qed.

Lemma hard_mask_score (cfg : ScreenerConfig) (r : row) (v : cell) :
  hard_mask cfg (<["score" := v]> r) = hard_mask cfg r.
Proof.
  apply hard_mask_ext. intros c Hc. apply at_col_insert_ne.
  intros <-. by apply score_not_hard_column.
Qed.

Lemma technical_in_hard (c : string) : c ∈ technical_columns → c ∈ hard_columns.
Proof.
  intros H. apply list_elem_of_In in H. apply list_elem_of_In.
  cbv in H. cbv. tauto.
Qed.

Lemma hard_condition_technical (cfg : ScreenerConfig) (cols : gset string) (c : string) (v : cell) :
  c ∈ technical_columns → c ∈ cols →
  technical_condition (technical cfg) cols c v = hard_condition cfg c v.
Proof.
  intros Hc Hin. unfold technical_columns in Hc.
  repeat (apply elem_of_cons in Hc as [->|Hc]); [..|by apply elem_of_nil in Hc];
    unfold technical_condition, hard_condition; cbn [String.eqb Ascii.eqb Bool.eqb];
    by rewrite ?decide_True by done.
Qed.

End MaskFacts.

Section CellFacts.

Lemma same_cells_refl (r : row) : same_cells r r.
Proof. by intros c. Qed.

Lemma same_cells_trans (r1 r2 r3 : row) :
  same_cells r1 r2 → same_cells r2 r3 → same_cells r1 r3.
Proof. intros H1 H2 c. by rewrite H2, H1. Qed.

Lemma normalise_same_cells (d : row) (cols : gset string) :
  same_cells d (d ∪ gset_to_gmap CNaN cols).
Proof.
  intros c. unfold at_col. rewrite lookup_union.
  destruct (d !! c) as [v|] eqn:E; [by rewrite union_Some_l|].
  rewrite (left_id None _). rewrite lookup_gset_to_gmap.
  by destruct (guard _).
Qed.

Lemma DataFrame_of_same_cells (dicts : list row) :
  Forall2 same_cells dicts (rows (DataFrame_of dicts)).
Proof.
  unfold DataFrame_of. cbn [rows]. apply Forall2_fmap_r.
  apply Forall_Forall2_diag, Forall_forall. intros d _.
  apply normalise_same_cells.
Qed.

Lemma ensure_column_same_cells (df : DataFrame) (col : string) :
  complete df → Forall2 same_cells (rows df) (rows (ensure_column df col)).
Proof.
  intros Hc. unfold ensure_column. case_decide as Hin.
  - apply Forall_Forall2_diag, Forall_forall. intros r _. apply same_cells_refl.
  - cbn [rows]. apply Forall2_fmap_r, Forall_Forall2_diag.
    eapply Forall_impl; [exact Hc|]. intros r Hdom c. unfold compose.
    destruct (decide (col = c)) as [<-|Hne]; [|by rewrite at_col_insert_ne].
    rewrite at_col_insert_eq. unfold at_col.
    assert (r !! col = None) as ->; [|done].
    apply not_elem_of_dom. by rewrite Hdom.
Qed.

Lemma ensure_columns_same_cells (df : DataFrame) (l : list string) :
  complete df → Forall2 same_cells (rows df) (rows (foldl ensure_column df l)).
Proof.
  revert df. induction l as [|a l IH]; intros df Hc; cbn [foldl].
  - apply Forall_Forall2_diag, Forall_forall. intros r _. apply same_cells_refl.
  - eapply Forall2_trans; [apply same_cells_trans| |].
    + by apply ensure_column_same_cells.
    + apply IH. by apply ensure_column_complete.
Qed.

Lemma Forall2_Forall_transfer {A B} (R : A → B → Prop) (Q : A → Prop) (Q' : B → Prop)
    (l : list A) (k : list B) :
  (∀ x y, Q x → R x y → Q' y) → Forall2 R l k → Forall Q l → Forall Q' k.
Proof.
  intros H. induction 1 as [|x y l k Hxy _ IH]; intros HQ; [constructor|].
  inversion HQ; subst. constructor; eauto.
Qed.

Lemma technical_mask_ext (tc : TechnicalConfig) (cols : gset string) (r r' : row) :
  same_cells r r' → technical_mask tc cols r' = technical_mask tc cols r.
Proof.
  intros H. rewrite !technical_mask_columns. apply forallb_ext_in.
  intros c _. by rewrite (H c).
Qed.

Lemma hard_mask_same_cells (cfg : ScreenerConfig) (r r' : row) :
  same_cells r r' → hard_mask cfg r' = hard_mask cfg r.
Proof. intros H. apply hard_mask_ext. intros c _. apply H. Qed.

End CellFacts.

Section StageFacts.

Context (P : providers) (symbols : list string) (cfg : ScreenerConfig).

Lemma enriched_table_same_cells (for_buy : bool) :
  Forall2 same_cells (table_dicts P symbols cfg for_buy)
    (rows (enriched_table P symbols cfg for_buy)).
Proof.
  rewrite enriched_table_eq.
  eapply Forall2_trans; [apply same_cells_trans|apply DataFrame_of_same_cells|].
  apply ensure_columns_same_cells, DataFrame_of_complete.
Qed.

Lemma run_screen_length (for_buy : bool) :
  length (rows (run_screen P symbols cfg for_buy))
  = length (rows (filtered_table P symbols cfg for_buy)).
Proof.
  rewrite run_screen_stages. destruct (negb _); [|done].
  unfold sort_values, assign_score. cbn [rows].
  by rewrite sort_rows_Permutation, length_fmap.
Qed.

Lemma hard_filter_length (df : DataFrame) :
  (length (rows (hard_filter cfg df)) ≤ length (rows df))%nat.
Proof.
  unfold hard_filter. destruct (negb _); [|done].
  unfold select. cbn [rows]. apply length_filter.
Qed.

Lemma filtered_table_length (for_buy : bool) :
  (length (rows (filtered_table P symbols cfg for_buy))
   ≤ length (table_dicts P symbols cfg for_buy))%nat.
Proof.
  rewrite (Forall2_length _ _ _ (enriched_table_same_cells for_buy)).
  destruct for_buy; [|by rewrite filtered_table_sell].
  rewrite filtered_table_buy. apply hard_filter_length.
Qed.

Lemma capped_symbols_sublist (l : list string) : capped_symbols cfg l `sublist_of` l.
Proof.
  unfold capped_symbols. destruct (fundamentals_max_symbols _); [|done].
  unfold slice_to. destruct (0 <=? _)%Z; apply sublist_take.
Qed.

Lemma prefilter_tickers_sublist :
  tolist_str "ticker" (prefilter cfg (DataFrame_of (tech_row P <$> symbols)))
  `sublist_of` symbols.
Proof.
  pose proof (tech_tickers P symbols) as Ht. revert Ht.
  unfold prefilter, tolist_str. destruct (negb _); [|by intros ->].
  unfold select. cbn [rows]. intros Ht. rewrite <- Ht at 2.
  apply fmap_sublist, sublist_filter.
Qed.

Lemma filtered_rows_subseteq (for_buy : bool) :
  rows (filtered_table P symbols cfg for_buy) ⊆ rows (enriched_table P symbols cfg for_buy).
Proof.
  destruct for_buy; [|by rewrite filtered_table_sell].
  rewrite filtered_table_buy. apply hard_filter_rows_subseteq.
Qed.

End StageFacts.

Section PipelineClaims.

Context (P : providers) (symbols : list string) (cfg : ScreenerConfig).

Lemma scored_rows_have_score (f : row → Q) (df : DataFrame) :
  Forall (λ r, ∃ q, at_col r "score" = CNum q) (rows (assign_score f df)).
Proof.
  unfold assign_score. cbn [rows]. apply Forall_fmap, Forall_forall.
  intros r _. exists (f r). apply at_col_insert_eq.
Qed.

(** C5: for every configuration the rows of the output stand in the order
    of the ranking: score descending, equal scores by market
    capitalisation descending, rows of unknown market capitalisation last
    among equal scores; and any two rows of the output are comparable. *)
Theorem final_order (for_buy : bool) :
  StronglySorted ranked (rows (run_screen P symbols cfg for_buy))
  ∧ ∀ r1 r2, r1 ∈ rows (run_screen P symbols cfg for_buy) →
             r2 ∈ rows (run_screen P symbols cfg for_buy) →
             ranked r1 r2 ∨ ranked r2 r1.
Proof.
  rewrite run_screen_stages.
  destruct (empty (filtered_table P symbols cfg for_buy)) eqn:E; cbn [negb].
  - apply filtered_table_empty in E. rewrite E. split; [constructor|].
    intros r1 r2 H. by apply elem_of_nil in H.
  - set (scored := assign_score _ _).
    assert (Forall (λ r, ∃ q, at_col r "score" = CNum q)
              (rows (sort_values scored))) as Hscore.
    { unfold sort_values. cbn [rows]. rewrite sort_rows_Permutation.
      apply scored_rows_have_score. }
    split.
    + eapply (StronglySorted_strengthen not_after); [|exact Hscore|].
      * intros r1 r2 [q1 H1] [q2 H2]. by apply not_after_ranked with q1 q2.
      * unfold sort_values. cbn [rows]. apply sort_rows_sorted.
    + intros r1 r2 Hr1 Hr2.
      destruct (proj1 (Forall_forall _ _) Hscore r1 Hr1) as [q1 H1].
      destruct (proj1 (Forall_forall _ _) Hscore r2 Hr2) as [q2 H2].
      destruct (not_after_total r1 r2) as [H|H]; [left|right].
      * by apply not_after_ranked with q1 q2.
      * by apply not_after_ranked with q2 q1.
Qed.

Lemma screen_row_fields_cover (k : string) :
  k ∈ screen_row_fields → k ∈ tech_row_keys ∨ k ∈ expected_cols.
Proof.
  intros Hk. unfold screen_row_fields in Hk.
  repeat (apply elem_of_cons in Hk as [->|Hk]); [..|by apply elem_of_nil in Hk];
    first [ left; apply list_elem_of_In; cbv; tauto
          | right; apply list_elem_of_In; cbv; tauto ].
Qed.

(** In every row of the output, a fundamentals or promoter cell holds
    what the providers report for the ticker of the row ([None] for a
    field they do not report), or [NaN]. *)
Lemma output_rows_cells (for_buy : bool) :
  Forall (λ r, ∃ y, y ∈ symbols ∧ at_col r "ticker" = CStr y
               ∧ ∀ k c, (k, c) ∈ provided_cells P cfg y →
                        at_col r k = c ∨ at_col r k = CNaN)
    (rows (run_screen P symbols cfg for_buy)).
Proof.
  rewrite run_screen_stages.
  destruct (filtered_table_ok P symbols cfg for_buy) as (Hcomplete & _ & Hrows).
  assert (Forall (λ r, ∃ y, y ∈ symbols ∧ at_col r "ticker" = CStr y
               ∧ ∀ k c, (k, c) ∈ provided_cells P cfg y →
                        at_col r k = c ∨ at_col r k = CNaN)
            (rows (filtered_table P symbols cfg for_buy))) as Hcells.
  { apply Forall_forall. intros r Hr.
    destruct (proj1 (Forall_forall _ _) Hrows r Hr)
      as (y & Hy & (Ht & _) & _ & Hprov).
    exists y. split; [done|]. split; [unfold at_col; by rewrite Ht|].
    intros k c Hk. unfold at_col.
    destruct (Hprov k c Hk) as [Hnone|[-> | ->]]; [|by right|by left].
    exfalso. apply not_elem_of_dom in Hnone. apply Hnone.
    rewrite (proj1 (Forall_forall _ _) Hcomplete r Hr), filtered_table_columns.
    by apply expected_in_columns, enrich_keys_fresh, (provided_cells_keys P cfg y k c). }
  destruct (empty (filtered_table P symbols cfg for_buy)); cbn [negb]; [done|].
  unfold sort_values, assign_score. cbn [rows]. rewrite sort_rows_Permutation.
  apply Forall_fmap. eapply Forall_impl; [exact Hcells|].
  intros r (y & Hy & Ht & Hprov). cbn beta. exists y. split; [done|].
  split; [by rewrite at_col_insert_ne|].
  intros k c Hk. rewrite at_col_insert_ne; [by apply Hprov|].
  intros <-. by apply (provided_cells_keys P cfg y), enrich_keys_fresh in Hk as (_ & _ & ? & _).
Qed.

Lemma output_rows_tech (for_buy : bool) :
  Forall (λ r, ∃ y, y ∈ symbols ∧ at_col r "ticker" = CStr y
               ∧ ∀ k, k ∈ tech_row_keys → at_col r k = at_col (tech_row P y) k)
    (rows (run_screen P symbols cfg for_buy)).
Proof.
  rewrite run_screen_stages.
  destruct (filtered_table_ok P symbols cfg for_buy) as (_ & _ & Hrows).
  assert (Forall (λ r, ∃ y, y ∈ symbols ∧ at_col r "ticker" = CStr y
               ∧ ∀ k, k ∈ tech_row_keys → at_col r k = at_col (tech_row P y) k)
            (rows (filtered_table P symbols cfg for_buy))) as Hcells.
  { eapply Forall_impl; [exact Hrows|]. cbn beta.
    intros r (y & Hy & (Ht & _) & Htech & _).
    exists y. split; [done|]. split; [unfold at_col; by rewrite Ht|].
    intros k Hk. unfold at_col. by rewrite (Htech k Hk). }
  destruct (empty (filtered_table P symbols cfg for_buy)); cbn [negb]; [done|].
  unfold sort_values, assign_score. cbn [rows]. rewrite sort_rows_Permutation.
  apply Forall_fmap. eapply Forall_impl; [exact Hcells|].
  intros r (y & Hy & Ht & Htech). unfold compose. exists y. split; [done|].
  split; [by rewrite at_col_insert_ne|].
  intros k Hk. rewrite at_col_insert_ne; [by apply Htech|].
  intros <-. by apply tech_row_keys_fresh in Hk as [_ ?].
Qed.

Lemma tech_row_within (y : string) :
  get (tech_row P y) "within_pct_52w_high"
  = if truthy (get (tech_row P y) "close") && truthy (get (tech_row P y) "high_52w")
    then pct_below_high (get (tech_row P y) "close") (get (tech_row P y) "high_52w")
    else CNone.
Proof.
  unfold tech_row. cbv zeta. set (base := foldl _ _ _).
  destruct (truthy (get base "close") && truthy (get base "high_52w")) eqn:E;
    rewrite get_insert_eq, !get_insert_ne by done; by rewrite E.
Qed.

Lemma tech_of_history (y : string) :
  (if negb (frame_empty (default [] (hist_all P !! y)))
   then compute_technical_snapshot (default [] (hist_all P !! y)) else ∅)
  = match hist_all P !! y with
    | Some df => compute_technical_snapshot df
    | None => ∅
    end.
Proof. by destruct (hist_all P !! y) as [[|b df]|]. Qed.

Lemma tech_default_key (k : string) :
  k ∈ tech_defaults →
  k ≠ "within_pct_52w_high" ∧ k ≠ "ticker" ∧ k ∈ tech_row_keys.
Proof.
  intros Hk. split; [|split].
  - intros ->. revert Hk. rewrite list_elem_of_In. cbv. intuition discriminate.
  - intros ->. revert Hk. rewrite list_elem_of_In. cbv. intuition discriminate.
  - unfold tech_row_keys. apply list_elem_of_further, elem_of_app. by left.
Qed.

Lemma tech_row_default_cell (y k : string) :
  k ∈ tech_defaults →
  get (tech_row P y) k
  = get (match hist_all P !! y with
         | Some df => compute_technical_snapshot df
         | None => ∅
         end) k.
Proof.
  intros Hk. destruct (tech_default_key k Hk) as (Hw & Ht & _).
  unfold get at 1. rewrite tech_row_lookup, tech_of_history by done.
  unfold get. destruct (_ !! k) as [x|]; [done|].
  by rewrite decide_False, decide_True.
Qed.

(** The technical cells are the cells of the technical row. *)
Lemma tech_row_technical_cells (y k : string) (c : cell) :
  (k, c) ∈ technical_cells P y → k ∈ tech_row_keys ∧ get (tech_row P y) k = c.
Proof.
  unfold technical_cells. cbv zeta. intros [H|H]%elem_of_app.
  - apply list_elem_of_fmap in H as (k' & [= -> ->] & Hk).
    split; [by apply tech_default_key|]. by apply tech_row_default_cell.
  - apply list_elem_of_singleton in H as [= -> ->]. split.
    + unfold tech_row_keys. apply list_elem_of_further, elem_of_app. right.
      apply list_elem_of_here.
    + rewrite tech_row_within.
      rewrite !tech_row_default_cell by (apply list_elem_of_In; cbv; tauto). done.
Qed.

(** A row of the output shows, but for the score, the cells of one of
    the row dictionaries the table was built from. *)
Lemma output_rows_from_table (for_buy : bool) (r : row) :
  r ∈ rows (run_screen P symbols cfg for_buy) →
  ∃ d, d ∈ table_dicts P symbols cfg for_buy
       ∧ ∀ k, k ≠ "score" → at_col r k = at_col d k.
Proof.
  rewrite run_screen_stages. intros Hr.
  assert (∃ r0, r0 ∈ rows (filtered_table P symbols cfg for_buy)
                ∧ ∀ k, k ≠ "score" → at_col r k = at_col r0 k) as (r0 & Hr0 & Hsame).
  { destruct (empty (filtered_table P symbols cfg for_buy)); cbn [negb] in Hr.
    - by exists r.
    - unfold sort_values, assign_score in Hr. cbn [rows] in Hr.
      rewrite sort_rows_Permutation in Hr.
      apply list_elem_of_fmap in Hr as (r0 & -> & Hr0). exists r0. split; [done|].
      intros k Hk. by rewrite at_col_insert_ne. }
  apply filtered_rows_subseteq in Hr0.
  apply list_elem_of_lookup in Hr0 as [i Hi].
  destruct (Forall2_lookup_r _ _ _ _ _ (enriched_table_same_cells P symbols cfg for_buy) Hi)
    as (d & Hd & Hsc).
  exists d. split; [by eapply list_elem_of_lookup_2|].
  intros k Hk. rewrite Hsame by done. apply Hsc.
Qed.

(** When a symbol was enriched, every row of the output holds what the
    providers report for its symbol. *)
Lemma output_rows_enriched (for_buy : bool) (r : row) (y : string) :
  symbols_for_funda P symbols cfg for_buy ≠ [] →
  r ∈ rows (run_screen P symbols cfg for_buy) →
  at_col r "ticker" = CStr y →
  ∀ k c, (k, c) ∈ provided_cells P cfg y → at_col r k = c.
Proof.
  intros Hne Hr Ht k c Hk.
  destruct (output_rows_from_table for_buy r Hr) as (d & Hd & Hsame).
  rewrite table_dicts_eq in Hd.
  pose proof (symbols_for_funda_subseteq P symbols cfg for_buy) as Hsub.
  destruct (symbols_for_funda P symbols cfg for_buy) as [|y0 l] eqn:E; [done|].
  rewrite fmap_cons in Hd. rewrite <- (fmap_cons _ y0 l) in Hd.
  apply list_elem_of_fmap in Hd as (y' & -> & Hy').
  destruct (enrich_dict P symbols cfg y' (Hsub y' Hy')) as (Htick & _).
  assert (y' = y) as ->.
  { rewrite Hsame in Ht by done. unfold at_col in Ht. rewrite Htick in Ht.
    by injection Ht. }
  rewrite Hsame.
  - unfold at_col. by rewrite (enrich_provided P cfg _ y k c Hk).
  - by apply (provided_cells_keys P cfg y), enrich_keys_fresh in Hk as (_ & _ & ? & _).
Qed.

(** When no symbol was enriched, the fundamentals and promoter cells of
    every row of the output are [NaN]. *)
Lemma output_rows_not_enriched (for_buy : bool) (r : row) (k : string) :
  symbols_for_funda P symbols cfg for_buy = [] →
  r ∈ rows (run_screen P symbols cfg for_buy) →
  k ∈ enrich_keys → at_col r k = CNaN.
Proof.
  intros Hnil Hr Hk.
  destruct (output_rows_from_table for_buy r Hr) as (d & Hd & Hsame).
  rewrite table_dicts_eq, Hnil, fmap_nil in Hd.
  apply list_elem_of_fmap in Hd as (y & -> & _).
  destruct (enrich_keys_fresh k Hk) as (H1 & H2 & H3 & _).
  rewrite Hsame by done. unfold at_col. by rewrite tech_row_lookup_None.
Qed.

(** Every row of the output is the row of one of the symbols: its
    fundamentals, promoter and technical cells are those computed for
    that symbol. *)
Lemma output_rows_of_symbols (for_buy : bool) :
  Forall (λ r, ∃ y, y ∈ symbols ∧ at_col r "ticker" = CStr y
               ∧ (∀ k c, (k, c) ∈ provided_cells P cfg y →
                         (symbols_for_funda P symbols cfg for_buy ≠ [] →
                          at_col r k = c ∨ (c = CNone ∧ at_col r k = CNaN))
                         ∧ (symbols_for_funda P symbols cfg for_buy = [] →
                            at_col r k = CNaN))
               ∧ (∀ k c, (k, c) ∈ technical_cells P y →
                         at_col r k = c ∨ (c = CNone ∧ at_col r k = CNaN)))
    (rows (run_screen P symbols cfg for_buy)).
Proof.
  pose proof (output_rows_tech for_buy) as H2.
  apply Forall_forall. intros r Hr.
  destruct (proj1 (Forall_forall _ _) H2 r Hr) as (y & Hy & Ht & Htech).
  exists y. split; [done|]. split; [done|]. split.
  - intros k c Hk. split.
    + intros Hne. left. by apply (output_rows_enriched for_buy r y).
    + intros Hnil. apply (output_rows_not_enriched for_buy r k Hnil Hr).
      by apply (provided_cells_keys P cfg y k c).
  - intros k c Hk. left. apply tech_row_technical_cells in Hk as [Hk <-].
    rewrite (Htech k Hk). unfold at_col, get.
    by destruct (tech_row_has P y k Hk) as [x ->].
Qed.

(** The rows of the output stand in the order of the ranking. *)
Lemma run_screen_sorted (for_buy : bool) :
  StronglySorted ranked (rows (run_screen P symbols cfg for_buy)).
Proof.
  rewrite run_screen_stages.
  destruct (empty (filtered_table P symbols cfg for_buy)) eqn:E; cbn [negb].
  - apply filtered_table_empty in E. rewrite E. constructor.
  - apply (StronglySorted_strengthen not_after ranked
             (λ r, ∃ q, at_col r "score" = CNum q)).
    + intros r1 r2 [q1 H1] [q2 H2]. by apply not_after_ranked with q1 q2.
    + unfold sort_values. cbn [rows]. rewrite sort_rows_Permutation.
      apply scored_rows_have_score.
    + unfold sort_values. cbn [rows]. apply sort_rows_sorted.
Qed.

(** C9 (amended): the output always has the eighteen expected columns, and
    every row has a cell in every column. A fundamentals or promoter
    cell holds what the providers report for the symbol of the row,
    [None] (which a table may store as [NaN]) when they report nothing;
    when no symbol was enriched at all these cells are [NaN]. A technical
    cell holds what the technical phase computed for that symbol, [None]
    (or [NaN]) without a price history, and the snapshot gives [NaN] for
    an indicator whose history is too short (the two trend flags, which
    compare with the 200-day average, are then false): no unknown value
    is replaced by a zero. Whenever the output has at least one row
    it has a column for every ScreenRow field and for the score. An
    output without rows has no score column, and for an empty symbol list
    it has the expected columns only. *)
Theorem output_columns (for_buy : bool) :
  let out := run_screen P symbols cfg for_buy in
  (∀ c, c ∈ expected_cols → c ∈ columns out)
  ∧ complete out
  ∧ Forall (λ r, ∃ y, y ∈ symbols ∧ at_col r "ticker" = CStr y
                 ∧ (∀ k c, (k, c) ∈ provided_cells P cfg y →
                           (symbols_for_funda P symbols cfg for_buy ≠ [] →
                            at_col r k = c ∨ (c = CNone ∧ at_col r k = CNaN))
                           ∧ (symbols_for_funda P symbols cfg for_buy = [] →
                              at_col r k = CNaN))
                 ∧ (∀ k c, (k, c) ∈ technical_cells P y →
                           at_col r k = c ∨ (c = CNone ∧ at_col r k = CNaN)))
      (rows out)
  ∧ (rows out ≠ [] →
     "score" ∈ columns out ∧ ∀ c, c ∈ screen_row_fields → c ∈ columns out)
  ∧ (rows out = [] → "score" ∉ columns out)
  ∧ (symbols = [] → rows out = [] ∧ columns out = list_to_set expected_cols)
  ∧ (∀ df : frame, df ≠ [] →
       let snap := compute_technical_snapshot df in
       (dropna (Close <$> df) = [] → snap !! "close" = Some CNaN)
       ∧ ((length (dropna (Close <$> df)) < 25)%nat → snap !! "sma50" = Some CNaN)
       ∧ ((length (dropna (Close <$> df)) < 100)%nat →
          snap !! "sma200" = Some CNaN
          ∧ snap !! "price_above_200d" = Some (CBool false)
          ∧ snap !! "sma50_above_200d" = Some (CBool false))
       ∧ ((length (dropna (Close <$> df)) < 15)%nat → snap !! "rsi14" = Some CNaN)
       ∧ ((length (dropna (High <$> df)) < 20)%nat → snap !! "high_52w" = Some CNaN)
       ∧ ((length (dropna (Low <$> df)) < 20)%nat → snap !! "low_52w" = Some CNaN)
       ∧ (dropna (Volume <$> df) = [] → snap !! "vol" = Some CNaN)
       ∧ ((length (dropna (Volume <$> df)) < 10)%nat →
          snap !! "vol50" = Some CNaN ∧ snap !! "volume_mult_vs_50d" = Some CNaN)).
Proof.
  cbv zeta. pose proof (output_rows_of_symbols for_buy) as Hcells. revert Hcells.
  rewrite run_screen_stages. intros Hcells.
  pose proof (filtered_table_columns P symbols cfg for_buy) as Hcols.
  pose proof (filtered_table_empty P symbols cfg for_buy) as Hempty.
  pose proof (filtered_table_complete P symbols cfg for_buy) as Hcomplete.
  destruct (empty (filtered_table P symbols cfg for_buy)) eqn:E; cbn [negb].
  - assert (rows (filtered_table P symbols cfg for_buy) = []) as Hnil
      by by apply Hempty.
    split; [|split; [|split; [|split; [|split; [|split]]]]].
    + intros c Hc. rewrite Hcols. by apply expected_in_columns.
    + done.
    + done.
    + by rewrite Hnil.
    + intros _. rewrite Hcols. apply score_not_in_columns.
    + intros Hs. split; [done|].
      rewrite Hcols, enriched_table_columns.
      rewrite (proj2 (table_dicts_nil P symbols cfg for_buy) Hs).
      rewrite fmap_nil, union_list_nil. apply (left_id_L ∅ (∪)).
    + intros df Hdf. by apply snapshot_unknown_cells.
  - assert (rows (filtered_table P symbols cfg for_buy) ≠ []) as Hne.
    { intros Hnil. apply Hempty in Hnil. congruence. }
    assert (symbols ≠ []) as Hsym.
    { intros Hs. by apply Hne, filtered_table_rows_nil. }
    assert (rows (sort_values (assign_score (λ r, _score_buy_row r cfg)
              (filtered_table P symbols cfg for_buy))) ≠ []) as Hout.
    { unfold sort_values, assign_score. cbn [rows]. intros Hnil.
      apply Hne. apply (f_equal length) in Hnil.
      rewrite (Permutation_length (sort_rows_Permutation _)) in Hnil.
      rewrite length_fmap in Hnil. by apply nil_length_inv. }
    assert (columns (sort_values (assign_score (λ r, _score_buy_row r cfg)
              (filtered_table P symbols cfg for_buy)))
            = columns (enriched_table P symbols cfg for_buy) ∪ {["score"]}) as Hc.
    { unfold sort_values, assign_score. cbn [columns]. by rewrite Hcols. }
    split; [|split; [|split; [|split; [|split; [|split]]]]].
    + intros c Hc'. rewrite Hc. by apply elem_of_union_l, expected_in_columns.
    + by apply sort_values_complete, assign_score_complete.
    + done.
    + intros _. rewrite Hc. split; [apply elem_of_union_r; by apply elem_of_singleton|].
      intros c Hf. apply elem_of_union_l.
      destruct (screen_row_fields_cover c Hf).
      * by apply tech_keys_in_columns.
      * by apply expected_in_columns.
    + done.
    + done.
    + intros df Hdf. by apply snapshot_unknown_cells.
Qed.

Lemma sell_rows :
  rows (run_screen P symbols cfg false)
  ≡ₚ (λ r, <["score" := CNum (_score_buy_row r cfg)]> r)
       <$> rows (enriched_table P symbols cfg false).
Proof.
  rewrite run_screen_stages, filtered_table_sell.
  pose proof (filtered_table_empty P symbols cfg false) as He.
  rewrite filtered_table_sell in He.
  destruct (empty (enriched_table P symbols cfg false)) eqn:E; cbn [negb].
  - rewrite (proj1 He eq_refl). by rewrite fmap_nil.
  - unfold sort_values, assign_score. cbn [rows].
    apply sort_rows_Permutation.
Qed.

Lemma fmap_at_col_score (k : string) (f : row → Q) (l : list row) :
  k ≠ "score" →
  (λ r, as_str (at_col r k)) <$> ((λ r, <["score" := CNum (f r)]> r) <$> l)
  = (λ r, as_str (at_col r k)) <$> l.
Proof.
  intros Hk. induction l as [|r l IH]; [done|].
  rewrite !fmap_cons, IH. by rewrite at_col_insert_ne.
Qed.


(** C2 (amended): in sell mode neither the prefilter nor the hard filter
    is applied: the symbols to enrich are the symbols under the
    fundamentals cap, and the output holds exactly the rows of the
    enriched table, each with its score. That table has one row for each
    symbol the cap leaves, every symbol without a cap; when the cap
    leaves none it falls back to the technical rows, one for every
    symbol. The rows are in the order of the final sort, score
    descending and then market capitalisation descending, not in
    pipeline order. *)
Theorem sell_mode_output :
  let kept := capped_symbols cfg symbols in
  let out := run_screen P symbols cfg false in
  symbols_for_funda P symbols cfg false = kept
  ∧ rows out ≡ₚ (λ r, <["score" := CNum (_score_buy_row r cfg)]> r)
                   <$> rows (enriched_table P symbols cfg false)
  ∧ tolist_str "ticker" out ≡ₚ match kept with [] => symbols | _ => kept end
  ∧ (fundamentals_max_symbols (run cfg) = None →
     tolist_str "ticker" out ≡ₚ symbols)
  ∧ StronglySorted ranked (rows out).
Proof.
  cbv zeta.
  assert (tolist_str "ticker" (run_screen P symbols cfg false)
          ≡ₚ tolist_str "ticker" (enriched_table P symbols cfg false)) as Hout.
  { unfold tolist_str at 1. rewrite sell_rows.
    by rewrite fmap_at_col_score. }
  split; [apply symbols_for_funda_sell|]. split; [apply sell_rows|].
  split; [by rewrite Hout, sell_table_tickers|].
  split; [|apply run_screen_sorted].
  intros Hcap. rewrite Hout, sell_table_tickers.
  unfold capped_symbols. rewrite Hcap. by destruct symbols.
Qed.

End PipelineClaims.

Section PipelineExamples.

Lemma final_order_witness :
  ∃ r1 r2 : row,
    rows (run_screen two_caps ["A.NS"; "B.NS"] DEFAULT_CONFIG false) = [r1; r2]
    ∧ (ranked r1 r2 ∨ ranked r2 r1).
Proof.
  assert (length (rows (run_screen two_caps ["A.NS"; "B.NS"] DEFAULT_CONFIG false))
          = 2%nat) as Hlen by (vm_compute; reflexivity).
  destruct (rows (run_screen two_caps ["A.NS"; "B.NS"] DEFAULT_CONFIG false))
    as [|r1 [|r2 [|r3 l]]] eqn:E; try discriminate Hlen.
  exists r1, r2. split; [reflexivity|].
  apply (proj2 (final_order two_caps ["A.NS"; "B.NS"] DEFAULT_CONFIG false));
    rewrite E; [apply list_elem_of_here|apply list_elem_of_further, list_elem_of_here].
Defined.

Lemma output_columns_witness :
  rows (run_screen two_caps ["A.NS"; "B.NS"] DEFAULT_CONFIG false) ≠ []
  ∧ "score" ∈ columns (run_screen two_caps ["A.NS"; "B.NS"] DEFAULT_CONFIG false)
  ∧ "market_cap" ∈ columns (run_screen two_caps ["A.NS"; "B.NS"] DEFAULT_CONFIG false).
Proof.
  assert (length (rows (run_screen two_caps ["A.NS"; "B.NS"] DEFAULT_CONFIG false))
          = 2%nat) as Hlen by (vm_compute; reflexivity).
  assert (rows (run_screen two_caps ["A.NS"; "B.NS"] DEFAULT_CONFIG false) ≠ [])
    as Hne by (intros H; rewrite H in Hlen; discriminate Hlen).
  split; [exact Hne|].
  destruct (output_columns two_caps ["A.NS"; "B.NS"] DEFAULT_CONFIG false)
    as (_ & _ & _ & Hrows & _).
  destruct (Hrows Hne) as [Hscore Hfields].
  split; [exact Hscore|]. apply Hfields.
  apply list_elem_of_In. cbv. tauto.
Defined.

(** C9, as stated, fails in the degenerate runs: for an empty symbol list
    the output has neither a score column nor a ticker or close column,
    and when every row is filtered out (one symbol without price history,
    default buy screen) the output has no score column. *)
Ltac not_in_columns :=
  match goal with
  | |- ?x ∉ ?X => apply (bool_decide_eq_false_1 (x ∈ X)); vm_compute; reflexivity
  end.

Lemma no_score_column_without_rows :
  rows (run_screen no_data [] DEFAULT_CONFIG true) = []
  ∧ ("score" ∉ columns (run_screen no_data [] DEFAULT_CONFIG true))
  ∧ ("ticker" ∉ columns (run_screen no_data [] DEFAULT_CONFIG true))
  ∧ ("close" ∉ columns (run_screen no_data [] DEFAULT_CONFIG true))
  ∧ rows (run_screen no_data ["X.NS"] DEFAULT_CONFIG true) = []
  ∧ ("score" ∉ columns (run_screen no_data ["X.NS"] DEFAULT_CONFIG true)).
Proof.
  split; [vm_compute; reflexivity|].
  split; [not_in_columns|].
  split; [not_in_columns|].
  split; [not_in_columns|].
  split; [vm_compute; reflexivity|].
  not_in_columns.
Qed.

Lemma sell_mode_output_witness :
  fundamentals_max_symbols (run no_cap_config) = None
  ∧ tolist_str "ticker" (run_screen two_caps ["A.NS"; "B.NS"] no_cap_config false)
    ≡ₚ ["A.NS"; "B.NS"].
Proof.
  split; [reflexivity|].
  exact (proj1 (proj2 (proj2 (proj2
    (sell_mode_output two_caps ["A.NS"; "B.NS"] no_cap_config)))) eq_refl).
Defined.

(** C2, as stated, fails: in sell mode the output is sorted like any
    other output, so the symbol with the larger market capitalisation
    comes first although it is second in the pipeline; and with a
    fundamentals cap of one, the second symbol has no row at all. *)
Lemma sell_mode_reorders_and_caps :
  tolist_str "ticker" (run_screen two_caps ["A.NS"; "B.NS"] DEFAULT_CONFIG false)
    = ["B.NS"; "A.NS"]
  ∧ tolist_str "ticker" (run_screen two_caps ["A.NS"; "B.NS"] cap_one_config false)
    = ["A.NS"].
Proof. split; vm_compute; reflexivity. Qed.

End PipelineExamples.

(* ===================================================================== *)
(** ** The universe provider *)
(* ===================================================================== *)

Section UniverseFacts.

Context (net : nat → string → response).

(** One attempt on a recognised index sends one request and returns a
    table exactly when the answer is usable. *)
Lemma fetch_once_recognised (index_name url : string) (n : nat) :
  NIFTY_CSV_URLS !! upper index_name = Some url →
  (fetch_nifty_constituents_once net index_name n).2 = S n
  ∧ (raises (fetch_nifty_constituents_once net index_name n)
     ↔ response_ok (net n url) = false).
Proof.
  intros Hurl. unfold fetch_nifty_constituents_once. rewrite Hurl.
  unfold mbind, M_bind, bind, requests_get, raises, response_ok, raise, ret.
  destruct (net n url) as [| |[df|]]; cbv zeta; cbn [fst snd];
    try (split; [done|tauto]).
  case_bool_decide as Hsym.
  - split; [done|]. cbn [fst]. split; [done|]. intros Hno. exfalso.
    apply not_true_iff_false in Hno. apply Hno.
    apply existsb_exists. apply list_elem_of_fmap in Hsym as ([c v] & Hc & Hin).
    apply list_elem_of_fmap in Hin as ([c' v'] & [= -> ->] & Hin).
    exists c'. split.
    + apply list_elem_of_In, list_elem_of_fmap. by exists (c', v').
    + cbn in Hc. by rewrite <- Hc.
  - destruct (List.find _ _) as [sym_col|] eqn:Hfind.
    + split; [done|]. cbn [fst]. split; [done|]. intros Hno. exfalso.
      apply not_true_iff_false in Hno. apply Hno.
      apply find_some in Hfind as [Hin Hlow].
      apply existsb_exists.
      apply list_elem_of_In, list_elem_of_fmap in Hin as ([c v] & Hc & Hin).
      apply list_elem_of_fmap in Hin as ([c' v'] & [= -> ->] & Hin).
      exists c'. split.
      * apply list_elem_of_In, list_elem_of_fmap. by exists (c', v').
      * cbn in Hc. by rewrite <- Hc.
    + split; [done|]. cbn [fst]. split; [|done]. intros _.
      apply not_true_iff_false. intros Hex.
      apply existsb_exists in Hex as (c & Hin & Hlow).
      apply list_elem_of_In, list_elem_of_fmap in Hin as ([c' v'] & -> & Hin).
      cbn [fst] in Hlow.
      assert (In (strip c') (prod_map strip id <$> df).*1) as Hin'.
      { apply list_elem_of_In, list_elem_of_fmap.
        exists (strip c', v'). split; [done|].
        apply list_elem_of_fmap. by exists (c', v'). }
      pose proof (find_none _ _ Hfind (strip c') Hin') as Hf.
      cbv beta in Hf. congruence.
Qed.


Lemma retry_first_success {A} (f : M A) (more n i : nat) (a : A) :
  (∀ m, (f m).2 = S m) →
  (i ≤ more)%nat →
  (∀ j, (j < i)%nat → raises (f (n + j)%nat)) →
  (f (n + i)%nat).1 = Returned a →
  retry more f n = (Returned a, S (n + i)).
Proof.
  intros Hstep. revert n i. induction more as [|k IH]; intros n i Hi Hfail Hok.
  - assert (i = 0)%nat as -> by lia. rewrite Nat.add_0_r in *. cbn [retry].
    specialize (Hstep n). destruct (f n) as [[b|e] n']; cbn in *; congruence.
  - cbn [retry]. destruct i as [|i].
    + rewrite Nat.add_0_r in *. specialize (Hstep n).
      destruct (f n) as [[b|e] n']; cbn in *; congruence.
    + pose proof (Hfail 0%nat (Nat.lt_0_succ _)) as H0.
      rewrite Nat.add_0_r in H0. unfold raises in H0.
      pose proof (Hstep n) as Hn.
      destruct (f n) as [[b|e] n']; cbn [fst snd] in *; [done|]. subst n'.
      rewrite <- Nat.add_succ_comm. apply IH; [lia| |by rewrite Nat.add_succ_comm].
      intros j Hj. rewrite Nat.add_succ_comm. apply Hfail. lia.
Qed.


Lemma build_universe_stages (index_name : string) (limit : option Z) (n : nat) :
  build_universe net index_name limit n
  = match fetch_nifty_constituents net index_name n with
    | (Returned df, n') =>
        match filter (λ c, c.1 = "Symbol") df with
        | [] => (Raised (KeyError "Symbol"), n')
        | [c] => (Returned (match limit with
                            | Some l => slice_to l (to_yahoo_ticker <$> c.2)
                            | None => to_yahoo_ticker <$> c.2
                            end), n')
        | _ => (Raised (AttributeError "'DataFrame' object has no attribute 'tolist'"), n')
        end
    | (Raised e, n') => (Raised e, n')
    end.
Proof.
  unfold build_universe, mbind, M_bind, bind, column, raise, ret.
  destruct (fetch_nifty_constituents net index_name n) as [[df|e] n']; [|done].
  by destruct (filter _ df) as [|c [|c' l]].
Qed.

Lemma fst_prod_map (f : string → string) (df : table) :
  (prod_map f id <$> df).*1 = f <$> df.*1.
Proof. induction df as [|[c v] df IH]; [done|]. cbn. by rewrite <- IH. Qed.

Lemma count_label (name : string) (df : table) :
  length (filter (λ c, c.1 = name) df) = length (filter (λ c, c = name) df.*1).
Proof.
  induction df as [|[c v] df IH]; [done|]. cbn [fmap list_fmap fst].
  rewrite !filter_cons. cbn [fst].
  destruct (decide (c = name)); cbn [length]; by rewrite IH.
Qed.

Lemma count_renamed (sym_col : string) (labels : list string) :
  "Symbol" ∉ labels →
  length (filter (λ c, c = "Symbol")
            ((λ c, if String.eqb c sym_col then "Symbol" else c) <$> labels))
  = length (filter (λ c, c = sym_col) labels).
Proof.
  induction labels as [|c labels IH]; [done|].
  intros [Hc Hl]%not_elem_of_cons. rewrite fmap_cons, !filter_cons.
  destruct (String.eqb_spec c sym_col) as [->|Hne].
  - rewrite !decide_True by done. cbn [length]. by rewrite IH.
  - rewrite !decide_False by done. by apply IH.
Qed.

(** The table of one attempt has as many columns labelled [Symbol] as the
    answer has symbol columns, and at least one; an attempt that raises
    had an answer without any. *)
Lemma fetch_once_count (index_name url : string) (n : nat) :
  NIFTY_CSV_URLS !! upper index_name = Some url →
  match (fetch_nifty_constituents_once net index_name n).1 with
  | Returned df =>
      length (filter (λ c, c.1 = "Symbol") df) = symbol_columns (net n url)
      ∧ (0 < symbol_columns (net n url))%nat
  | Raised _ => symbol_columns (net n url) = 0%nat
  end.
Proof.
  intros Hurl. unfold fetch_nifty_constituents_once. rewrite Hurl.
  unfold mbind, M_bind, bind, requests_get, symbol_columns, raise, ret.
  destruct (net n url) as [| |[df|]]; cbv zeta; cbn [fst snd]; try done.
  rewrite fst_prod_map.
  case_bool_decide as Hsym; cbn [fst].
  - rewrite count_label, fst_prod_map. split; [done|].
    apply list_elem_of_fmap in Hsym as (c & Hc & Hin).
    destruct (filter (λ c, c = "Symbol") (strip <$> df.*1)) as [|x l] eqn:E;
      [|cbn [length]; lia].
    exfalso. eapply (filter_nil_not_elem_of _ _ "Symbol" E); [done|].
    apply list_elem_of_fmap. by exists c.
  - destruct (List.find _ _) as [sym_col|] eqn:Hfind; cbn [fst]; [|done].
    rewrite count_label, fst_prod_map, fst_prod_map, count_renamed by done.
    split; [done|].
    apply find_some in Hfind as [Hin _]. apply list_elem_of_In in Hin.
    destruct (filter (λ c, c = sym_col) (strip <$> df.*1)) as [|x l] eqn:E;
      [|cbn [length]; lia].
    exfalso. by eapply (filter_nil_not_elem_of _ _ sym_col E).
Qed.


End UniverseFacts.

Section UniverseClaims.




End UniverseClaims.

(* ===================================================================== *)
(** * Further properties *)
(* ===================================================================== *)

(* ===================================================================== *)
(** ** The two filters of the buy screen *)
(* ===================================================================== *)

Section MaskProps.

Lemma hard_mask_technical_mask (cfg : ScreenerConfig) (cols : gset string) (r : row) :
  (∀ c, c ∈ technical_columns → c ∈ cols) →
  hard_mask cfg r = true →
  technical_mask (technical cfg) cols r = true.
Proof.
  intros Hcols. rewrite hard_mask_columns, technical_mask_columns.
  rewrite !forallb_forall. intros H c Hc.
  apply list_elem_of_In in Hc.
  rewrite (hard_condition_technical cfg cols c _ Hc (Hcols c Hc)).
  apply H, list_elem_of_In. by apply technical_in_hard.
Qed.

(** X1: the hard filter repeats the technical prefilter. *)
Theorem hard_mask_implies_technical_mask (cfg : ScreenerConfig) (cols : gset string) (r : row) :
  (∀ c, c ∈ technical_columns → c ∈ cols) →
  hard_mask cfg r = true →
  technical_mask (technical cfg) cols r = true.
Proof.
  intros Hcols Hhard. rewrite technical_mask_columns. apply forallb_forall.
  intros c Hc. apply list_elem_of_In in Hc.
  rewrite (hard_condition_technical cfg cols c _ Hc (Hcols c Hc)).
  rewrite hard_mask_columns in Hhard.
  apply (proj1 (forallb_forall _ _) Hhard), list_elem_of_In.
  by apply technical_in_hard.
Qed.

Lemma hard_mask_implies_technical_mask_witness :
  hard_mask DEFAULT_CONFIG flags_set_row = true
  ∧ technical_mask (technical DEFAULT_CONFIG) (list_to_set technical_columns) flags_set_row = true.
Proof.
  assert (hard_mask DEFAULT_CONFIG flags_set_row = true) as H by (vm_compute; reflexivity).
  split; [exact H|].
  apply (hard_mask_implies_technical_mask DEFAULT_CONFIG
           (list_to_set technical_columns) flags_set_row); [|exact H].
  intros c Hc. apply elem_of_list_to_set. exact Hc.
Defined.

End MaskProps.

Section OutputProps.

Context (P : providers) (symbols : list string) (cfg : ScreenerConfig).

Lemma hard_filter_rows_pass (df : DataFrame) :
  columns df ≠ ∅ → Forall (λ r, hard_mask cfg r = true) (rows (hard_filter cfg df)).
Proof.
  intros Hcols. unfold hard_filter.
  destruct (empty df) eqn:E; cbn [negb].
  - apply empty_rows in E; [|done]. rewrite E. constructor.
  - unfold select. cbn [rows]. apply Forall_forall. intros r Hr.
    apply list_elem_of_filter in Hr as [Hr _]. by apply Is_true_true.
Qed.

Lemma enriched_columns_nonempty (for_buy : bool) :
  columns (enriched_table P symbols cfg for_buy) ≠ ∅.
Proof.
  intros H. assert ("pe" ∈ columns (enriched_table P symbols cfg for_buy)) as Hin.
  { apply expected_in_columns. apply list_elem_of_In. cbv. tauto. }
  rewrite H in Hin. by apply not_elem_of_empty in Hin.
Qed.

Lemma buy_rows_pass_hard_mask :
  Forall (λ r, hard_mask cfg r = true) (rows (run_screen P symbols cfg true)).
Proof.
  rewrite run_screen_stages.
  assert (Forall (λ r, hard_mask cfg r = true) (rows (filtered_table P symbols cfg true))) as Hf.
  { rewrite filtered_table_buy. apply hard_filter_rows_pass, enriched_columns_nonempty. }
  destruct (empty (filtered_table P symbols cfg true)); cbn [negb]; [done|].
  unfold sort_values, assign_score. cbn [rows]. rewrite sort_rows_Permutation.
  apply Forall_fmap. eapply Forall_impl; [exact Hf|].
  intros r Hr. unfold compose. by rewrite hard_mask_score.
Qed.

(** X2: every row of a buy screen meets every threshold of the configuration. *)
Theorem buy_output_passes_filters :
  let out := run_screen P symbols cfg true in
  Forall (λ r, hard_mask cfg r = true
               ∧ technical_mask (technical cfg) (columns out) r = true) (rows out).
Proof.
  cbv zeta.
  eapply Forall_impl; [exact buy_rows_pass_hard_mask|]. intros r Hr. cbn beta. split; [done|].
  apply hard_mask_technical_mask; [|done].
  intros c Hc. rewrite run_screen_stages.
  assert (c ∈ columns (filtered_table P symbols cfg true)) as Hin.
  { rewrite filtered_table_columns. apply expected_in_columns.
    apply list_elem_of_In in Hc. apply list_elem_of_In. cbv in Hc. cbv. tauto. }
  destruct (negb _); [|done].
  unfold sort_values, assign_score. cbn [columns]. by apply elem_of_union_l.
Qed.

End OutputProps.

(* ===================================================================== *)
(** ** The fundamentals cap *)
(* ===================================================================== *)
Section CapProps.

Context (P : providers) (symbols : list string) (cfg : ScreenerConfig).

Lemma capped_symbols_length (l : list string) (n : Z) :
  fundamentals_max_symbols (run cfg) = Some n → (0 <= n)%Z →
  (length (capped_symbols cfg l) ≤ Z.to_nat n)%nat.
Proof.
  intros Hcap Hn. unfold capped_symbols, slice_to. rewrite Hcap.
  destruct (Z.leb_spec 0 n); [|lia]. rewrite length_take. lia.
Qed.

Lemma symbols_for_funda_sublist (for_buy : bool) :
  symbols_for_funda P symbols cfg for_buy `sublist_of` symbols.
Proof.
  destruct for_buy.
  - rewrite symbols_for_funda_buy. etrans; [apply capped_symbols_sublist|].
    destruct (negb _); [apply prefilter_tickers_sublist|apply sublist_nil_l].
  - rewrite symbols_for_funda_sell. apply capped_symbols_sublist.
Qed.

Lemma symbols_for_funda_length (for_buy : bool) (n : Z) :
  fundamentals_max_symbols (run cfg) = Some n → (0 <= n)%Z →
  (length (symbols_for_funda P symbols cfg for_buy) ≤ Z.to_nat n)%nat.
Proof.
  intros Hcap Hn. destruct for_buy.
  - rewrite symbols_for_funda_buy. by apply capped_symbols_length.
  - rewrite symbols_for_funda_sell. by apply capped_symbols_length.
Qed.

(** X3: the symbols whose fundamentals and promoter data are fetched are a
    subsequence of the universe, in its order, and no more than the cap. *)
Theorem enriched_symbols_bounded (for_buy : bool) :
  symbols_for_funda P symbols cfg for_buy `sublist_of` symbols
  ∧ (∀ n, fundamentals_max_symbols (run cfg) = Some n → (0 <= n)%Z →
       (length (symbols_for_funda P symbols cfg for_buy) ≤ Z.to_nat n)%nat)
  ∧ (for_buy = true →
     Forall (λ y, technical_mask (technical cfg)
                    (columns (DataFrame_of (tech_row P <$> symbols)))
                    (tech_row P y) = true)
       (symbols_for_funda P symbols cfg for_buy)).
Proof.
  split; [apply symbols_for_funda_sublist|].
  split; [intros n; apply symbols_for_funda_length|].
  intros ->. rewrite symbols_for_funda_buy.
  eapply Forall_impl with (P := λ y, y ∈ capped_symbols cfg _);
    [apply Forall_forall; intros y Hy; exact Hy|].
  intros y Hy. cbn beta. apply capped_symbols_subseteq in Hy.
  set (D := DataFrame_of (tech_row P <$> symbols)) in *.
  unfold prefilter in Hy.
  destruct (empty D) eqn:E; cbn [negb] in Hy.
  { rewrite E in Hy. by apply elem_of_nil in Hy. }
  destruct (negb (empty (select _ D))); [|by apply elem_of_nil in Hy].
  unfold tolist_str, select in Hy. cbn [rows] in Hy.
  apply list_elem_of_fmap in Hy as (r & -> & Hr).
  apply list_elem_of_filter in Hr as [Hmask Hr]. apply Is_true_true in Hmask.
  unfold D, DataFrame_of in Hr. cbn [rows] in Hr.
  apply list_elem_of_fmap in Hr as (d & -> & Hd).
  apply list_elem_of_fmap in Hd as (y & -> & Hy).
  rewrite (at_col_normalise _ _ _ _ (tech_row_ticker P y)). cbn [as_str].
  rewrite <- Hmask. symmetry. apply technical_mask_ext, normalise_same_cells.
Qed.

End CapProps.

Lemma enriched_symbols_bounded_witness :
  fundamentals_max_symbols (run cap_one_config) = Some 1%Z
  ∧ (0 <= 1)%Z
  ∧ (length (symbols_for_funda two_caps ["A.NS"; "B.NS"] cap_one_config false) ≤ 1)%nat.
Proof.
  split; [reflexivity|]. split; [lia|].
  apply (proj1 (proj2 (enriched_symbols_bounded two_caps ["A.NS"; "B.NS"]
                         cap_one_config false)) 1%Z); [reflexivity|lia].
Defined.

Section RowCount.

Context (P : providers) (symbols : list string) (cfg : ScreenerConfig).

Lemma technical_in_tech_row_keys (c : string) :
  c ∈ technical_columns → c ∈ tech_row_keys.
Proof.
  intros H. apply list_elem_of_In in H. apply list_elem_of_In.
  cbv in H. cbv. tauto.
Qed.

Lemma tech_table_columns (k : string) :
  symbols ≠ [] → k ∈ tech_row_keys →
  k ∈ columns (DataFrame_of (tech_row P <$> symbols)).
Proof.
  intros Hs Hk. destruct symbols as [|y l]; [done|].
  rewrite DataFrame_of_columns, !fmap_cons, union_list_cons.
  by apply elem_of_union_l, elem_of_dom, tech_row_has.
Qed.

Lemma capped_symbols_nil_inv (l : list string) (n : Z) :
  fundamentals_max_symbols (run cfg) = Some n → (0 < n)%Z →
  capped_symbols cfg l = [] → l = [].
Proof.
  intros Hcap Hn. unfold capped_symbols, slice_to. rewrite Hcap.
  destruct (Z.leb_spec 0 n); [|lia].
  intros [Hz| ->]%take_nil_inv; [lia|done].
Qed.

(** With a positive cap, a buy screen that enriches no symbol keeps no
    row: every technical row failed the prefilter, and the hard filter
    applies the same conditions again. *)
Lemma buy_nothing_enriched (n : Z) :
  fundamentals_max_symbols (run cfg) = Some n → (0 < n)%Z →
  symbols_for_funda P symbols cfg true = [] →
  rows (filtered_table P symbols cfg true) = [].
Proof.
  intros Hcap Hn Hnil.
  destruct (decide (symbols = [])) as [Hs|Hs]; [by apply filtered_table_rows_nil|].
  set (D := DataFrame_of (tech_row P <$> symbols)).
  assert (Forall (λ d, technical_mask (technical cfg) (columns D) d = false)
            (tech_row P <$> symbols)) as Hfail.
  { rewrite symbols_for_funda_buy in Hnil.
    apply (capped_symbols_nil_inv _ n Hcap Hn) in Hnil. fold D in Hnil.
    assert (empty D = false) as HD.
    { destruct (empty D) eqn:E; [|done]. by apply tech_table_empty in E. }
    assert (rows (prefilter cfg D) = []) as Hrows.
    { destruct (empty (prefilter cfg D)) eqn:E; cbn [negb] in Hnil.
      - apply empty_rows in E; [done|]. rewrite prefilter_columns.
        intros Hcols. assert ("ticker" ∈ columns D) as Hin.
        { apply tech_table_columns; [done|]. by left. }
        rewrite Hcols in Hin. by apply not_elem_of_empty in Hin.
      - unfold tolist_str in Hnil. by apply fmap_nil_inv in Hnil. }
    unfold prefilter in Hrows. rewrite HD in Hrows. cbn [negb select rows] in Hrows.
    apply Forall_fmap, Forall_forall. intros y Hy. unfold compose.
    destruct (technical_mask _ _ (tech_row P y)) eqn:Hm; [exfalso|done].
    eapply (filter_nil_not_elem_of _ _ (tech_row P y ∪ gset_to_gmap CNaN (columns D)) Hrows).
    - apply Is_true_true. rewrite <- Hm. apply technical_mask_ext, normalise_same_cells.
    - unfold D at 2, DataFrame_of. cbn [rows]. apply list_elem_of_fmap.
      eexists. split; [reflexivity|]. apply list_elem_of_fmap. eauto. }
  assert (Forall (λ r, hard_mask cfg r = false) (rows (enriched_table P symbols cfg true)))
    as Hhard.
  { eapply Forall2_Forall_transfer; [|apply enriched_table_same_cells|].
    2:{ rewrite table_dicts_eq, Hnil, fmap_nil. exact Hfail. }
    intros d r Hd Hsame. cbn beta in *.
    destruct (hard_mask cfg r) eqn:Hm; [exfalso|done].
    apply (hard_mask_technical_mask cfg (columns D)) in Hm.
    - rewrite (technical_mask_ext _ _ _ _ Hsame) in Hm. congruence.
    - intros c Hc. by apply tech_table_columns, technical_in_tech_row_keys. }
  rewrite filtered_table_buy. unfold hard_filter.
  destruct (empty (enriched_table P symbols cfg true)) eqn:E; cbn [negb].
  - apply empty_rows in E; [done|apply enriched_columns_nonempty].
  - unfold select. cbn [rows].
    induction Hhard as [|r l Hr _ IH]; [done|].
    rewrite filter_cons_False; [done|]. rewrite Hr. by intros [].
Qed.

Lemma rows_le_symbols (for_buy : bool) :
  (length (rows (run_screen P symbols cfg for_buy)) ≤ length symbols)%nat.
Proof.
  rewrite run_screen_length.
  etrans; [apply filtered_table_length|]. rewrite table_dicts_eq.
  pose proof (sublist_length _ _ (symbols_for_funda_sublist P symbols cfg for_buy)) as Hlen.
  destruct (symbols_for_funda P symbols cfg for_buy) as [|y l].
  - by rewrite fmap_nil, length_fmap.
  - rewrite fmap_cons, <- fmap_cons, length_fmap. exact Hlen.
Qed.

Lemma rows_le_cap (for_buy : bool) (n : Z) :
  fundamentals_max_symbols (run cfg) = Some n → (0 < n)%Z →
  (length (rows (run_screen P symbols cfg for_buy)) ≤ Z.to_nat n)%nat.
Proof.
  intros Hcap Hn. rewrite run_screen_length.
  destruct (symbols_for_funda P symbols cfg for_buy) as [|y l] eqn:E.
  - destruct for_buy.
    + rewrite (buy_nothing_enriched n Hcap Hn E). cbn. lia.
    + rewrite symbols_for_funda_sell in E.
      apply (capped_symbols_nil_inv _ n Hcap Hn) in E.
      rewrite (filtered_table_rows_nil P symbols cfg false E). cbn. lia.
  - etrans; [apply filtered_table_length|]. rewrite table_dicts_eq, E.
    rewrite fmap_cons, <- fmap_cons, length_fmap, <- E.
    apply symbols_for_funda_length; [done|lia].
Qed.

(** X4: the output never has more rows than symbols, and with a positive
    fundamentals cap never more rows than the cap. *)
Theorem output_row_count (for_buy : bool) :
  (length (rows (run_screen P symbols cfg for_buy)) ≤ length symbols)%nat
  ∧ ∀ n, fundamentals_max_symbols (run cfg) = Some n → (0 < n)%Z →
         (length (rows (run_screen P symbols cfg for_buy)) ≤ Z.to_nat n)%nat.
Proof.
  split.
  - rewrite run_screen_length.
    etrans; [apply filtered_table_length|]. rewrite table_dicts_eq.
    pose proof (sublist_length _ _ (symbols_for_funda_sublist P symbols cfg for_buy)) as Hlen.
    destruct (symbols_for_funda P symbols cfg for_buy) as [|y l].
    + by rewrite fmap_nil, length_fmap.
    + rewrite fmap_cons, <- fmap_cons, length_fmap. exact Hlen.
  - intros n Hcap Hn. rewrite run_screen_length.
    destruct (symbols_for_funda P symbols cfg for_buy) as [|y l] eqn:E.
    + destruct for_buy.
      * rewrite (buy_nothing_enriched n Hcap Hn E). cbn. lia.
      * rewrite symbols_for_funda_sell in E.
        apply (capped_symbols_nil_inv _ n Hcap Hn) in E.
        rewrite (filtered_table_rows_nil P symbols cfg false E). cbn. lia.
    + etrans; [apply filtered_table_length|]. rewrite table_dicts_eq, E.
      rewrite fmap_cons, <- fmap_cons, length_fmap, <- E.
      apply symbols_for_funda_length; [done|lia].
Qed.

End RowCount.

Lemma output_row_count_witness :
  fundamentals_max_symbols (run cap_one_config) = Some 1%Z
  ∧ (0 < 1)%Z
  ∧ (length (rows (run_screen two_caps ["A.NS"; "B.NS"] cap_one_config false)) ≤ 1)%nat.
Proof.
  split; [reflexivity|]. split; [lia|].
  apply (proj2 (output_row_count two_caps ["A.NS"; "B.NS"] cap_one_config false) 1%Z);
    [reflexivity|lia].
Defined.

(* ===================================================================== *)
(** ** Zero values and the stored score *)
(* ===================================================================== *)
Section ScoreProps.

Lemma score_ext (cfg : ScreenerConfig) (r r' : row) :
  (∀ s, get r (signal_key s) = get r' (signal_key s)) →
  _score_buy_row r cfg = _score_buy_row r' cfg.
Proof.
  intros H. rewrite !score_as_fold. f_equal.
  apply list_fmap_ext. intros _ s _. by rewrite H.
Qed.

Lemma score_key_ne (s : signal) : "score" ≠ signal_key s.
Proof. by destruct s. Qed.

Lemma score_insert_score (cfg : ScreenerConfig) (r : row) (v : cell) :
  _score_buy_row (<["score" := v]> r) cfg = _score_buy_row r cfg.
Proof. apply score_ext. intros s. apply get_insert_ne, score_key_ne. Qed.

Lemma score_bounds (cfg : ScreenerConfig) (r : row) :
  (0 <= _score_buy_row r cfg)%Q ∧ (_score_buy_row r cfg <= 14)%Q.
Proof.
  rewrite score_sum. split.
  - apply Qsum_nonneg, Forall_fmap, Forall_forall. intros s _. apply contribution_nonneg.
  - apply Qle_trans with (Qsum (weight <$> all_signals)); [|by vm_compute].
    apply Qsum_le, Forall_forall. intros s _. apply contribution_le_weight.
Qed.

Lemma earns_zero (cfg : ScreenerConfig) (s : signal) (q : Q) :
  truth_tested s = true → (q == 0)%Q → earns cfg s (CNum q) = false.
Proof.
  intros Hs Hq. apply Qeq_bool_iff in Hq.
  destruct s; try discriminate Hs; cbn [earns truthy]; by rewrite Hq.
Qed.

Lemma earns_None (cfg : ScreenerConfig) (s : signal) : earns cfg s CNone = false.
Proof. by destruct s. Qed.

Lemma earns_number (cfg : ScreenerConfig) (s : signal) (q : Q) :
  truth_tested s = false → earns cfg s (CNum q) = favorable cfg s (CNum q).
Proof. destruct s; try discriminate; intros _; reflexivity. Qed.

(** X5: a value of exactly zero earns nothing in the signals that are tested
    for truth: such a row scores as if the field were missing. The three
    signals tested with [is not None] count a zero like any number. *)
Theorem zero_value_scoring (cfg : ScreenerConfig) (r : row) (s : signal) (q : Q) :
  (q == 0)%Q →
  (truth_tested s = true →
   _score_buy_row (<[signal_key s := CNum q]> r) cfg
   = _score_buy_row (<[signal_key s := CNone]> r) cfg)
  ∧ (truth_tested s = false →
     earns cfg s (CNum q) = favorable cfg s (CNum q)).
Proof.
  intros Hq. split; [|apply earns_number].
  intros Hs. rewrite !score_as_fold. f_equal.
  apply list_fmap_ext. intros _ s' _. f_equal.
  destruct (decide (s = s')) as [<-|Hne].
  - by rewrite !get_insert_eq, earns_zero, earns_None.
  - rewrite !get_insert_ne; [done|..]; intros Hk; by apply signal_key_inj in Hk.
Qed.

Lemma zero_value_scoring_witness :
  (0 == 0)%Q
  ∧ truth_tested SigRoe = true
  ∧ _score_buy_row (<[signal_key SigRoe := CNum 0]> flags_set_row) DEFAULT_CONFIG
    = _score_buy_row (<[signal_key SigRoe := CNone]> flags_set_row) DEFAULT_CONFIG.
Proof.
  split; [reflexivity|]. split; [reflexivity|].
  apply (zero_value_scoring DEFAULT_CONFIG flags_set_row SigRoe 0); reflexivity.
Defined.

End ScoreProps.

Section OutputScore.

Context (P : providers) (symbols : list string) (cfg : ScreenerConfig).

(** X6: the score column of the output holds, for every row, the score of
    that row, and it lies between 0 and 14. *)
Theorem output_scores (for_buy : bool) :
  Forall (λ r, at_col r "score" = CNum (_score_buy_row r cfg)
               ∧ (0 <= _score_buy_row r cfg)%Q ∧ (_score_buy_row r cfg <= 14)%Q)
    (rows (run_screen P symbols cfg for_buy)).
Proof.
  rewrite run_screen_stages.
  destruct (empty (filtered_table P symbols cfg for_buy)) eqn:E; cbn [negb].
  - apply filtered_table_empty in E. rewrite E. constructor.
  - unfold sort_values, assign_score. cbn [rows]. rewrite sort_rows_Permutation.
    apply Forall_fmap, Forall_forall. intros r _. unfold compose.
    split; [|apply score_bounds].
    by rewrite at_col_insert_eq, score_insert_score.
Qed.

End OutputScore.

(* ===================================================================== *)
(** ** A screen without enrichment *)
(* ===================================================================== *)
Section Fallback.

Context (P : providers) (symbols : list string) (cfg : ScreenerConfig).

Lemma at_col_nan_get (r : row) (k : string) :
  at_col r k = CNaN → get r k = CNone ∨ get r k = CNaN.
Proof. unfold at_col, get. destruct (r !! k); cbn; [by right|by left]. Qed.

Lemma earns_NaN (s : signal) : is_flag s = false → earns cfg s CNaN = false.
Proof.
  destruct s; try discriminate; intros _; cbn; try reflexivity.
  destruct (max_ev_ebitda (valuation cfg)); cbn; by rewrite ?andb_false_r.
Qed.

Lemma unenriched_contribution (r : row) (s : signal) :
  unenriched r → signal_key s ∈ enrich_keys → contribution cfg r s = 0%Q.
Proof.
  intros Hr Hs. unfold contribution.
  destruct (at_col_nan_get r _ (Hr _ Hs)) as [-> | ->].
  - by rewrite earns_None.
  - by rewrite earns_NaN by by apply enrich_key_not_flag.
Qed.

Lemma unenriched_score (r : row) : unenriched r → (_score_buy_row r cfg <= 4)%Q.
Proof.
  intros Hr. rewrite score_sum.
  apply Qle_trans with
    (Qsum ((λ s, if bool_decide (signal_key s ∈ enrich_keys) then 0%Q else weight s)
           <$> all_signals)); [|by vm_compute].
  apply Qsum_le, Forall_forall. intros s _. cbn beta.
  case_bool_decide as Hs.
  - rewrite unenriched_contribution by done. apply Qle_refl.
  - apply contribution_le_weight.
Qed.

Lemma tech_row_unenriched (y : string) : unenriched (tech_row P y).
Proof.
  intros k Hk. apply (enrich_keys_fresh) in Hk as (H1 & H2 & _).
  unfold at_col. by rewrite tech_row_lookup_None.
Qed.

Lemma unenriched_same_cells (r r' : row) : unenriched r → same_cells r r' → unenriched r'.
Proof. intros Hr Hs k Hk. rewrite Hs. by apply Hr. Qed.

Lemma unenriched_score_cell (r : row) (v : cell) :
  unenriched r → unenriched (<["score" := v]> r).
Proof.
  intros Hr k Hk. rewrite at_col_insert_ne; [by apply Hr|].
  intros <-. by apply enrich_keys_fresh in Hk as (_ & _ & ? & _).
Qed.

Lemma capped_symbols_zero (l : list string) :
  fundamentals_max_symbols (run cfg) = Some 0%Z → capped_symbols cfg l = [].
Proof. intros H. unfold capped_symbols. by rewrite H. Qed.

(** X7: with a fundamentals cap of zero no provider is asked, and the screen
    goes on with the technical rows alone. *)
Theorem cap_zero_output (for_buy : bool) :
  fundamentals_max_symbols (run cfg) = Some 0%Z →
  symbols_for_funda P symbols cfg for_buy = []
  ∧ Forall (λ r, unenriched r ∧ (_score_buy_row r cfg <= 4)%Q)
      (rows (run_screen P symbols cfg for_buy))
  ∧ (for_buy = false →
     tolist_str "ticker" (run_screen P symbols cfg for_buy) ≡ₚ symbols).
Proof.
  intros Hcap.
  assert (symbols_for_funda P symbols cfg for_buy = []) as Hnil.
  { destruct for_buy.
    - rewrite symbols_for_funda_buy. by apply capped_symbols_zero.
    - rewrite symbols_for_funda_sell. by apply capped_symbols_zero. }
  split; [done|]. split.
  - assert (Forall unenriched (rows (filtered_table P symbols cfg for_buy))) as Hf.
    { apply Forall_forall. intros r Hr. apply filtered_rows_subseteq in Hr. revert r Hr.
      apply Forall_forall.
      eapply Forall2_Forall_transfer;
        [apply unenriched_same_cells|apply enriched_table_same_cells|].
      rewrite table_dicts_eq, Hnil, fmap_nil.
      apply Forall_fmap, Forall_forall. intros y _. apply tech_row_unenriched. }
    rewrite run_screen_stages. destruct (negb _).
    + unfold sort_values, assign_score. cbn [rows]. rewrite sort_rows_Permutation.
      apply Forall_fmap. eapply Forall_impl; [exact Hf|].
      intros r Hr. unfold compose.
      split; [by apply unenriched_score_cell|].
      rewrite score_insert_score. by apply unenriched_score.
    + eapply Forall_impl; [exact Hf|]. intros r Hr.
      split; [done|by apply unenriched_score].
  - intros ->.
    assert (tolist_str "ticker" (run_screen P symbols cfg false)
            ≡ₚ tolist_str "ticker" (enriched_table P symbols cfg false)) as ->.
    { unfold tolist_str at 1. rewrite sell_rows. by rewrite fmap_at_col_score. }
    by rewrite sell_table_tickers, capped_symbols_zero.
Qed.

End Fallback.

Lemma cap_zero_output_witness :
  fundamentals_max_symbols (run cap_zero_config) = Some 0%Z
  ∧ tolist_str "ticker" (run_screen two_caps ["A.NS"; "B.NS"] cap_zero_config false)
    ≡ₚ ["A.NS"; "B.NS"].
Proof.
  split; [reflexivity|].
  apply (cap_zero_output two_caps ["A.NS"; "B.NS"] cap_zero_config false);
    reflexivity.
Defined.

(* ===================================================================== *)
(** ** The history the indicators need *)
(* ===================================================================== *)


Section RsiProps.

(** X8: the RSI of the snapshot is known only with at least fifteen closes. *)
Theorem rsi_needs_15_closes (df : frame) (r : Q) :
  compute_technical_snapshot df !! "rsi14" = Some (CNum r) →
  (15 ≤ length (dropna (Close <$> df)))%nat.
Proof.
  intros H. destruct (decide (df = [])) as [->|Hdf]; [done|].
  rewrite snapshot_rsi14 in H by done.
  destruct (le_lt_dec (length (dropna (Close <$> df))) 14) as [Hle|Hlt]; [|lia].
  by rewrite (rsi_short _ 14 Hle) in H.
Qed.

Lemma rsi_needs_15_closes_witness :
  compute_technical_snapshot (zigzag_frame 30) !! "rsi14" = Some (CNum (19600 # 392))
  ∧ (15 ≤ length (dropna (Close <$> zigzag_frame 30)))%nat.
Proof.
  assert (compute_technical_snapshot (zigzag_frame 30) !! "rsi14"
          = Some (CNum (19600 # 392))) as H by (vm_compute; reflexivity).
  split; [exact H|]. exact (rsi_needs_15_closes _ _ H).
Defined.

Lemma rsi_down_never_falls (s : series) :
  Forall nonneg (diff s) → Forall zero_or_nan (rsi_down s).
Proof.
  intros H. unfold rsi_down, scale, clip_upper.
  apply Forall_fmap, Forall_fmap. eapply Forall_impl; [exact H|].
  intros [q|]; [|done]. cbn. intros Hq.
  rewrite (Q.min_l 0 q Hq). reflexivity.
Qed.

Lemma nobs_fmap (f : Q → Q) (s : series) :
  nobs (fmap (M := option) f <$> s) = nobs s.
Proof.
  unfold nobs, dropna. induction s as [|[q|] s IH]; [done| |].
  - rewrite fmap_cons, !filter_cons. cbn [fmap option_fmap option_map].
    rewrite !decide_True by eauto. cbn [length]. by rewrite IH.
  - rewrite fmap_cons, !filter_cons. cbn [fmap option_fmap option_map].
    rewrite !decide_False by (by intros [? ?]). done.
Qed.

Lemma tail_fmap (f : option Q → option Q) (w : nat) (s : series) :
  tail w (f <$> s) = f <$> tail w s.
Proof. unfold tail. by rewrite length_fmap, fmap_drop. Qed.

Lemma window_mean_is_Some (mp : nat) (win : series) :
  is_Some (window_mean mp win) ↔ (0 < nobs win)%nat ∧ (mp ≤ nobs win)%nat.
Proof.
  unfold window_mean.
  destruct (Nat.ltb_spec 0 (nobs win)), (Nat.leb_spec mp (nobs win)); cbn;
    split; try (intros [? ?]; done); try (intros [? ?]; lia); eauto.
Qed.

(** The average gain and the average loss are known on the same days. *)
Lemma avg_known_together (s : series) (p : nat) :
  is_Some (iloc_last (rsi_avg_gain s p)) ↔ is_Some (iloc_last (rsi_avg_loss s p)).
Proof.
  destruct (decide (s = [])) as [->|Hs]; [done|].
  assert (diff s ≠ []) as Hd.
  { intros H. apply (f_equal length) in H. rewrite diff_length in H.
    by destruct s. }
  unfold rsi_avg_gain, rsi_avg_loss, rsi_up, rsi_down, scale, clip_lower, clip_upper.
  rewrite !rolling_mean_last by (by destruct (diff s)).
  rewrite !window_mean_is_Some, !tail_fmap, !nobs_fmap. done.
Qed.

(** X9: a price history without a single fall has no RSI: the average loss
    is zero and is replaced before the division. The quotient of the
    averages themselves is then an infinity, for which the formula of the
    RSI gives 100. *)
Theorem rsi_unknown_without_losses (df : frame) :
  let close := dropna (Close <$> df) in
  df ≠ [] →
  Forall nonneg (diff close) →
  compute_technical_snapshot df !! "rsi14" = Some CNaN
  ∧ (∀ g, iloc_last (rsi_avg_gain close 14) = Some g → (0 < g)%Q →
       ∃ l, iloc_last (rsi_avg_loss close 14) = Some l ∧ (l == 0)%Q
            ∧ fdiv (Finite g) (Finite l) = Infinity false
            ∧ fsub (Finite 100) (fdiv (Finite 100) (fadd (Finite 1) (Infinity false)))
              = Finite (100 - 0)%Q).
Proof.
  intros close Hdf H.
  assert (zero_or_nan (iloc_last (rsi_avg_loss close 14))) as Hzero.
  { apply iloc_last_Forall; [done|]. apply rolling_mean_Forall.
    - apply window_mean_zero.
    - by apply rsi_down_never_falls. }
  split.
  - rewrite snapshot_rsi14 by done. fold close. rewrite rsi_last_cell.
    by rewrite rsi_point_zero_loss.
  - intros g Hg Hpos.
    destruct (proj1 (avg_known_together close 14)) as [l Hl]; [by rewrite Hg|].
    rewrite Hl in Hzero. cbn in Hzero.
    exists l. split; [done|]. split; [done|]. split; [|done].
    unfold fdiv. rewrite (proj2 (Qeq_bool_iff l 0) Hzero).
    destruct (Qeq_bool g 0) eqn:Hg0.
    + apply Qeq_bool_iff in Hg0. rewrite Hg0 in Hpos. by apply Qlt_irrefl in Hpos.
    + unfold Qltb. by rewrite (proj2 (Qle_bool_iff 0 g) (Qlt_le_weak _ _ Hpos)).
Qed.

End RsiProps.

Lemma rsi_unknown_without_losses_witness :
  rising_frame 20 ≠ []
  ∧ Forall nonneg (diff (dropna (Close <$> rising_frame 20)))
  ∧ compute_technical_snapshot (rising_frame 20) !! "rsi14" = Some CNaN
  ∧ iloc_last (rsi_avg_gain (dropna (Close <$> rising_frame 20)) 14) = Some (14 # 14)
  ∧ iloc_last (rsi_avg_loss (dropna (Close <$> rising_frame 20)) 14) = Some (0 # 14).
Proof.
  assert (rising_frame 20 ≠ []) as H1 by discriminate.
  assert (Forall nonneg (diff (dropna (Close <$> rising_frame 20)))) as H2.
  { vm_compute. repeat constructor; discriminate. }
  split; [exact H1|]. split; [exact H2|].
  split; [exact (proj1 (rsi_unknown_without_losses _ H1 H2))|].
  split; vm_compute; reflexivity.
Defined.

Section Extremes.

Lemma Qmax_cases (x y : Q) : Qmax x y = x ∨ Qmax x y = y.
Proof. unfold Qmax, GenericMinMax.gmax. destruct (x ?= y)%Q; auto. Qed.

Lemma Qmin_cases (x y : Q) : Qmin x y = x ∨ Qmin x y = y.
Proof. unfold Qmin, GenericMinMax.gmin. destruct (x ?= y)%Q; auto. Qed.

Lemma foldl_max_spec (t : series) (q : Q) :
  let m := foldl (λ m x, match x with Some y => Qmax m y | None => m end) q t in
  (m = q ∨ Some m ∈ t) ∧ (q <= m)%Q ∧ ∀ x, Some x ∈ t → (x <= m)%Q.
Proof.
  revert q. induction t as [|[y|] t IH]; intros q; cbn [foldl].
  - split; [by left|]. split; [apply Qle_refl|]. intros x Hx. by apply elem_of_nil in Hx.
  - destruct (IH (Qmax q y)) as (Hin & Hle & Hall). split; [|split].
    + destruct Hin as [->|Hin]; [|right; by right].
      destruct (Qmax_cases q y) as [->| ->]; [by left|right; by left].
    + eapply Qle_trans; [apply Q.le_max_l|exact Hle].
    + intros x [[= ->]|Hx]%elem_of_cons; [|by apply Hall].
      eapply Qle_trans; [apply Q.le_max_r|exact Hle].
  - destruct (IH q) as (Hin & Hle & Hall). split; [|split].
    + destruct Hin as [->|Hin]; [by left|right; by right].
    + done.
    + intros x [[=]|Hx]%elem_of_cons. by apply Hall.
Qed.

Lemma foldl_min_spec (t : series) (q : Q) :
  let m := foldl (λ m x, match x with Some y => Qmin m y | None => m end) q t in
  (m = q ∨ Some m ∈ t) ∧ (m <= q)%Q ∧ ∀ x, Some x ∈ t → (m <= x)%Q.
Proof.
  revert q. induction t as [|[y|] t IH]; intros q; cbn [foldl].
  - split; [by left|]. split; [apply Qle_refl|]. intros x Hx. by apply elem_of_nil in Hx.
  - destruct (IH (Qmin q y)) as (Hin & Hle & Hall). split; [|split].
    + destruct Hin as [->|Hin]; [|right; by right].
      destruct (Qmin_cases q y) as [->| ->]; [by left|right; by left].
    + eapply Qle_trans; [exact Hle|apply Q.le_min_l].
    + intros x [[= ->]|Hx]%elem_of_cons; [|by apply Hall].
      eapply Qle_trans; [exact Hle|apply Q.le_min_r].
  - destruct (IH q) as (Hin & Hle & Hall). split; [|split].
    + destruct Hin as [->|Hin]; [by left|right; by right].
    + done.
    + intros x [[=]|Hx]%elem_of_cons. by apply Hall.
Qed.

Lemma series_max_spec (s : series) :
  Forall is_Some s → s ≠ [] →
  ∃ m, series_max s = Some m ∧ Some m ∈ s ∧ ∀ x, Some x ∈ s → (x <= m)%Q.
Proof.
  intros Hs Hne. unfold series_max. rewrite (dropna_id s Hs).
  destruct s as [|[q|] t]; [done| |by inversion Hs as [|? ? [? [=]]]].
  destruct (foldl_max_spec t q) as (Hin & Hle & Hall).
  eexists. split; [reflexivity|]. split.
  - destruct Hin as [->|Hin]; [by left|by right].
  - intros x [[= ->]|Hx]%elem_of_cons; [done|by apply Hall].
Qed.

Lemma series_min_spec (s : series) :
  Forall is_Some s → s ≠ [] →
  ∃ m, series_min s = Some m ∧ Some m ∈ s ∧ ∀ x, Some x ∈ s → (m <= x)%Q.
Proof.
  intros Hs Hne. unfold series_min. rewrite (dropna_id s Hs).
  destruct s as [|[q|] t]; [done| |by inversion Hs as [|? ? [? [=]]]].
  destruct (foldl_min_spec t q) as (Hin & Hle & Hall).
  eexists. split; [reflexivity|]. split.
  - destruct Hin as [->|Hin]; [by left|by right].
  - intros x [[= ->]|Hx]%elem_of_cons; [done|by apply Hall].
Qed.

Lemma tail_Forall (P : option Q → Prop) (n : nat) (s : series) :
  Forall P s → Forall P (tail n s).
Proof. intros H. unfold tail. by apply Forall_drop. Qed.

Lemma tail_nonempty (n : nat) (s : series) :
  (0 < n)%nat → s ≠ [] → tail n s ≠ [].
Proof.
  intros Hn Hs Ht. apply (f_equal length) in Ht. rewrite tail_length in Ht.
  destruct s; [done|]. cbn [length] in Ht. lia.
Qed.

(** X10: the 52-week high and low of the snapshot need twenty observations;
    when known they are the largest and the smallest of the last 252. *)
Theorem range_52w (df : frame) :
  let high := dropna (High <$> df) in
  let low := dropna (Low <$> df) in
  let snap := compute_technical_snapshot df in
  df ≠ [] →
  ((length high < 20)%nat → snap !! "high_52w" = Some CNaN)
  ∧ ((length low < 20)%nat → snap !! "low_52w" = Some CNaN)
  ∧ ((20 ≤ length high)%nat →
     ∃ h, snap !! "high_52w" = Some (CNum h)
          ∧ Some h ∈ tail 252 high
          ∧ ∀ x, Some x ∈ tail 252 high → (x <= h)%Q)
  ∧ ((20 ≤ length low)%nat →
     ∃ l, snap !! "low_52w" = Some (CNum l)
          ∧ Some l ∈ tail 252 low
          ∧ ∀ x, Some x ∈ tail 252 low → (l <= x)%Q).
Proof.
  cbv zeta. intros Hdf.
  rewrite snapshot_high_52w, snapshot_low_52w by done.
  repeat split.
  - intros H. by destruct (Nat.leb_spec 20 (length (dropna (High <$> df)))); [lia|].
  - intros H. by destruct (Nat.leb_spec 20 (length (dropna (Low <$> df)))); [lia|].
  - intros H. destruct (Nat.leb_spec 20 (length (dropna (High <$> df)))); [|lia].
    destruct (series_max_spec (tail 252 (dropna (High <$> df)))) as (m & -> & Hm).
    + apply tail_Forall, dropna_Forall.
    + apply tail_nonempty; [lia|]. intros Hnil. rewrite Hnil in H. cbn in H. lia.
    + by exists m.
  - intros H. destruct (Nat.leb_spec 20 (length (dropna (Low <$> df)))); [|lia].
    destruct (series_min_spec (tail 252 (dropna (Low <$> df)))) as (m & -> & Hm).
    + apply tail_Forall, dropna_Forall.
    + apply tail_nonempty; [lia|]. intros Hnil. rewrite Hnil in H. cbn in H. lia.
    + by exists m.
Qed.

Lemma range_52w_witness :
  flat_frame 20 ≠ []
  ∧ (20 ≤ length (dropna (High <$> flat_frame 20)))%nat
  ∧ ∃ h, compute_technical_snapshot (flat_frame 20) !! "high_52w" = Some (CNum h)
         ∧ Some h ∈ tail 252 (dropna (High <$> flat_frame 20))
         ∧ ∀ x, Some x ∈ tail 252 (dropna (High <$> flat_frame 20)) → (x <= h)%Q.
Proof.
  assert (flat_frame 20 ≠ []) as H1 by discriminate.
  assert (20 ≤ length (dropna (High <$> flat_frame 20)))%nat as H2
    by (vm_compute; repeat constructor).
  split; [exact H1|]. split; [exact H2|].
  exact (proj1 (proj2 (proj2 (range_52w (flat_frame 20) H1))) H2).
Defined.

End Extremes.

Section ShortHistory.

Context (P : providers) (symbols : list string) (cfg : ScreenerConfig).

Lemma tech_row_flags_short (y : string) :
  (length (dropna (Close <$> default [] (hist_all P !! y))) < 100)%nat →
  eq_True (at_col (tech_row P y) "price_above_200d") = false
  ∧ eq_True (at_col (tech_row P y) "sma50_above_200d") = false.
Proof.
  intros Hlen. unfold at_col. rewrite !tech_row_lookup by done.
  set (df := default [] (hist_all P !! y)) in *.
  destruct (frame_empty df) eqn:Hdf; cbn [negb].
  - rewrite !lookup_empty. split; reflexivity.
  - assert (df ≠ []) as Hne by (by destruct df).
    rewrite snapshot_price_above_200d, snapshot_sma50_above_200d by done.
    rewrite (sma200_short _ (dropna_Forall _) Hlen), !gt_finite_None_r. by split.
Qed.

(** X11: a symbol with fewer than a hundred closes (or with no price history
    at all) is never in the result of a buy screen that asks for one of
    the two trend flags. *)
Theorem short_history_never_bought (y : string) :
  (length (dropna (Close <$> default [] (hist_all P !! y))) < 100)%nat →
  price_above_200d (technical cfg) = true ∨ sma50_above_200d (technical cfg) = true →
  Forall (λ r, at_col r "ticker" ≠ CStr y) (rows (run_screen P symbols cfg true)).
Proof.
  intros Hlen Hflag.
  destruct (tech_row_flags_short y Hlen) as [Hp Hs].
  pose proof buy_rows_pass_hard_mask P symbols cfg as Hpass.
  pose proof (output_rows_tech P symbols cfg true) as Htech.
  apply Forall_forall. intros r Hr Hticker.
  apply (proj1 (Forall_forall _ _) Hpass) in Hr as Hmask.
  apply (proj1 (Forall_forall _ _) Htech) in Hr as (y' & _ & Hy' & Hcells).
  rewrite Hticker in Hy'. injection Hy' as <-.
  rewrite hard_mask_columns in Hmask.
  destruct Hflag as [Hf|Hf].
  - rewrite (forallb_exists_false _ "price_above_200d") in Hmask; [done| |].
    + apply list_elem_of_In. cbv. tauto.
    + unfold hard_condition. cbn [String.eqb Ascii.eqb Bool.eqb]. rewrite Hf.
      rewrite Hcells; [done|]. apply list_elem_of_In. cbv. tauto.
  - rewrite (forallb_exists_false _ "sma50_above_200d") in Hmask; [done| |].
    + apply list_elem_of_In. cbv. tauto.
    + unfold hard_condition. cbn [String.eqb Ascii.eqb Bool.eqb]. rewrite Hf.
      rewrite Hcells; [done|]. apply list_elem_of_In. cbv. tauto.
Qed.

End ShortHistory.

Lemma short_history_never_bought_witness :
  (length (dropna (Close <$> default [] (hist_all young_listing !! "X.NS"))) < 100)%nat
  ∧ price_above_200d (technical DEFAULT_CONFIG) = true
  ∧ Forall (λ r, at_col r "ticker" ≠ CStr "X.NS")
      (rows (run_screen young_listing ["X.NS"] DEFAULT_CONFIG true)).
Proof.
  assert (length (dropna (Close <$> default [] (hist_all young_listing !! "X.NS"))) < 100)%nat
    as H by (vm_compute; lia).
  split; [exact H|]. split; [reflexivity|].
  apply (short_history_never_bought young_listing ["X.NS"] DEFAULT_CONFIG "X.NS" H).
  left. reflexivity.
Defined.

Section VolumeProps.

Lemma window_mean_Some (mp : nat) (win : series) (a : Q) :
  window_mean mp win = Some a →
  (mp ≤ nobs win)%nat ∧ (0 < nobs win)%nat
  ∧ a = (fsum win / inject_Z (Z.of_nat (nobs win)))%Q.
Proof.
  unfold window_mean.
  destruct (Nat.ltb_spec 0 (nobs win)); [|done].
  destruct (Nat.leb_spec mp (nobs win)); [|done].
  cbn. by intros [= <-].
Qed.

Lemma iloc_last_Some_nonempty (s : series) (q : Q) : iloc_last s = Some q → s ≠ [].
Proof. by intros H ->. Qed.

(** X12: the volume multiple of the snapshot, when known, is the last volume
    over the mean of the last volumes (fifty at most), a positive mean;
    it is unknown with fewer than ten volume observations. *)
Theorem volume_multiple_known (df : frame) :
  let volume := dropna (Volume <$> df) in
  let snap := compute_technical_snapshot df in
  (∀ m, snap !! "volume_mult_vs_50d" = Some (CNum m) →
     (10 ≤ length volume)%nat
     ∧ ∃ v a, iloc_last volume = Some v
              ∧ a = (fsum (tail 50 volume)
                     / inject_Z (Z.of_nat (Nat.min 50 (length volume))))%Q
              ∧ (0 < a)%Q ∧ m = (v / a)%Q)
  ∧ (df ≠ [] → (length volume < 10)%nat →
     snap !! "volume_mult_vs_50d" = Some CNaN).
Proof.
  cbv zeta.
  assert (∀ m, compute_technical_snapshot df !! "volume_mult_vs_50d" = Some (CNum m) →
     (10 ≤ length (dropna (Volume <$> df)))%nat
     ∧ ∃ v a, iloc_last (dropna (Volume <$> df)) = Some v
              ∧ a = (fsum (tail 50 (dropna (Volume <$> df)))
                     / inject_Z (Z.of_nat (Nat.min 50 (length (dropna (Volume <$> df))))))%Q
              ∧ (0 < a)%Q ∧ m = (v / a)%Q) as Hknown.
  { intros m H. destruct (decide (df = [])) as [->|Hdf]; [done|].
    rewrite snapshot_volume_mult in H by done.
    set (volume := dropna (Volume <$> df)) in *.
    destruct (iloc_last volume) as [v|] eqn:Hv; [|done].
    rewrite rolling_mean_last in H by (by apply iloc_last_Some_nonempty in Hv).
    destruct (window_mean 10 (tail 50 volume)) as [a|] eqn:Ha; [|done].
    destruct (Qltb 0 a) eqn:Hpos; [|done]. injection H as <-.
    apply window_mean_Some in Ha as (Hmp & _ & Ha).
    rewrite nobs_all in Hmp, Ha by apply tail_Forall, dropna_Forall.
    rewrite tail_length in Hmp, Ha.
    split; [lia|]. exists v, a. split; [done|]. split; [done|]. split; [|done].
    unfold Qltb in Hpos. apply negb_true_iff in Hpos.
    apply Qnot_le_lt. intros Hle. apply Qle_bool_iff in Hle. congruence. }
  split; [exact Hknown|].
  intros Hdf Hlen. rewrite snapshot_volume_mult by done.
  destruct (match iloc_last _ with Some _ => _ | None => _ end) as [m|] eqn:E; [|done].
  exfalso. destruct (Hknown m) as [H10 _]; [|lia].
  rewrite snapshot_volume_mult by done. by rewrite E.
Qed.

Lemma volume_multiple_known_witness :
  compute_technical_snapshot (flat_frame 20) !! "volume_mult_vs_50d"
    = Some (CNum (2000 # 2000))
  ∧ (10 ≤ length (dropna (Volume <$> flat_frame 20)))%nat.
Proof.
  assert (compute_technical_snapshot (flat_frame 20) !! "volume_mult_vs_50d"
          = Some (CNum (2000 # 2000))) as H by (vm_compute; reflexivity).
  split; [exact H|].
  exact (proj1 (proj1 (volume_multiple_known (flat_frame 20)) (2000 # 2000) H)).
Defined.

End VolumeProps.

Section WithinPct.

Context (P : providers).

Lemma pct_range (c h : Q) :
  (0 < c)%Q → (c <= h)%Q →
  (0 <= (1 - c / h) * 100)%Q ∧ ((1 - c / h) * 100 < 100)%Q.
Proof.
  intros Hc Hle.
  assert (0 < h)%Q as Hh by (eapply Qlt_le_trans; eassumption).
  assert (c / h <= 1)%Q as H1 by (apply Qle_shift_div_r; [done|lra]).
  assert (0 < c / h)%Q as H2 by (apply Qlt_shift_div_l; [done|lra]).
  set (t := (c / h)%Q) in *. split; lra.
Qed.

(** X13: the distance below the 52-week high of a technical row: [None]
    without a close or a high, or when one of them is zero; otherwise
    the percentage by which the close is below the high, between 0 and
    100 for a positive close that is not above the high; and [NaN] when
    the close is known but the high is not. *)
Theorem within_pct_52w_high_cell (y : string) :
  let r := tech_row P y in
  (get r "close" = CNone ∨ get r "high_52w" = CNone →
   get r "within_pct_52w_high" = CNone)
  ∧ (∀ c h, get r "close" = CNum c → get r "high_52w" = CNum h →
       ((c == 0)%Q ∨ (h == 0)%Q → get r "within_pct_52w_high" = CNone)
       ∧ ((0 < c)%Q → (c <= h)%Q →
          get r "within_pct_52w_high" = CNum ((1 - c / h) * 100)
          ∧ (0 <= (1 - c / h) * 100)%Q ∧ ((1 - c / h) * 100 < 100)%Q))
  ∧ (∀ c, get r "close" = CNum c → ¬ (c == 0)%Q → get r "high_52w" = CNaN →
       get r "within_pct_52w_high" = CNaN).
Proof.
  cbv zeta. rewrite tech_row_within. split; [|split].
  - intros [-> | ->]; cbn [truthy]; by rewrite ?andb_false_r.
  - intros c h -> ->. cbn [truthy]. split.
    + intros [Hz|Hz]; apply Qeq_bool_iff in Hz; rewrite Hz; cbn [negb andb];
        by rewrite ?andb_false_r.
    + intros Hc Hle.
      assert (0 < h)%Q as Hh by (eapply Qlt_le_trans; eassumption).
      assert (Qeq_bool c 0 = false) as ->.
      { apply not_true_is_false. intros Hz%Qeq_bool_iff. lra. }
      assert (Qeq_bool h 0 = false) as ->.
      { apply not_true_is_false. intros Hz%Qeq_bool_iff. lra. }
      cbn [negb andb pct_below_high as_float]. split; [done|by apply pct_range].
  - intros c -> Hc ->. cbn [truthy].
    assert (Qeq_bool c 0 = false) as ->.
    { apply not_true_is_false. by intros Hz%Qeq_bool_iff. }
    reflexivity.
Qed.

End WithinPct.

Lemma within_pct_52w_high_cell_witness :
  get (tech_row young_listing "X.NS") "close" = CNum (inject_Z 99)
  ∧ get (tech_row young_listing "X.NS") "high_52w" = CNum (inject_Z 99)
  ∧ (0 < inject_Z 99)%Q ∧ (inject_Z 99 <= inject_Z 99)%Q
  ∧ get (tech_row young_listing "X.NS") "within_pct_52w_high"
    = CNum ((1 - inject_Z 99 / inject_Z 99) * 100).
Proof.
  assert (get (tech_row young_listing "X.NS") "close" = CNum (inject_Z 99)) as H1
    by (vm_compute; reflexivity).
  assert (get (tech_row young_listing "X.NS") "high_52w" = CNum (inject_Z 99)) as H2
    by (vm_compute; reflexivity).
  assert (0 < inject_Z 99)%Q as H3 by reflexivity.
  assert (inject_Z 99 <= inject_Z 99)%Q as H4 by apply Qle_refl.
  split; [exact H1|]. split; [exact H2|]. split; [exact H3|]. split; [exact H4|].
  exact (proj1 (proj2 (proj1 (proj2 (within_pct_52w_high_cell young_listing "X.NS"))
                         _ _ H1 H2) H3 H4)).
Defined.

(* ===================================================================== *)
(** ** Requests and tickers of the universe *)
(* ===================================================================== *)
Section RetryFacts.

Lemma retry_counter {A} (f : M A) (more n : nat) :
  (∀ m, (f m).2 = S m) →
  (n < (retry more f n).2)%nat ∧ ((retry more f n).2 ≤ n + S more)%nat.
Proof.
  intros Hstep. revert n. induction more as [|k IH]; intros n; cbn [retry];
    pose proof (Hstep n) as Hn; destruct (f n) as [[b|e] n']; cbn [snd] in *; subst n';
    try lia.
  destruct (IH (S n)). lia.
Qed.

Lemma retry_no_request {A} (f : M A) (more n : nat) (e : exn) :
  (∀ m, f m = (Raised e, m)) → (retry more f n).2 = n.
Proof.
  intros Hf. revert n. induction more as [|k IH]; intros n; cbn [retry]; rewrite Hf; [done|].
  apply IH.
Qed.

End RetryFacts.

Section UniverseProps.

Context (net : nat → string → response).

Lemma build_universe_counter (index_name : string) (limit : option Z) (n : nat) :
  (build_universe net index_name limit n).2
  = (fetch_nifty_constituents net index_name n).2.
Proof.
  rewrite build_universe_stages.
  destruct (fetch_nifty_constituents net index_name n) as [[df|e] n']; [|done].
  by destruct (filter _ df) as [|c [|c' l]].
Qed.

Lemma build_universe_requests (index_name : string) (limit : option Z) (n : nat) :
  (n ≤ (build_universe net index_name limit n).2)%nat
  ∧ ((build_universe net index_name limit n).2 ≤ n + 4)%nat
  ∧ (NIFTY_CSV_URLS !! upper index_name = None →
     (build_universe net index_name limit n).2 = n)
  ∧ (is_Some (NIFTY_CSV_URLS !! upper index_name) →
     (n < (build_universe net index_name limit n).2)%nat).
Proof.
  rewrite build_universe_counter. unfold fetch_nifty_constituents.
  destruct (NIFTY_CSV_URLS !! upper index_name) as [url|] eqn:Hurl.
  - destruct (retry_counter (fetch_nifty_constituents_once net index_name) 3 n) as [H1 H2].
    { intros m. by apply (fetch_once_recognised net index_name url). }
    repeat split; try lia; done.
  - rewrite (retry_no_request _ 3 n
               (ValueError ("Unsupported index: " ++ upper index_name))).
    + repeat split; try lia. by intros [? ?].
    + intros m. unfold fetch_nifty_constituents_once. by rewrite Hurl.
Qed.

(** X14: building the universe never sends more than four requests. *)
Theorem request_budget (index_name : string) (limit : option Z) (n : nat) :
  (n ≤ (build_universe net index_name limit n).2)%nat
  ∧ ((build_universe net index_name limit n).2 ≤ n + 4)%nat
  ∧ (NIFTY_CSV_URLS !! upper index_name = None →
     (build_universe net index_name limit n).2 = n)
  ∧ (is_Some (NIFTY_CSV_URLS !! upper index_name) →
     (n < (build_universe net index_name limit n).2)%nat).
Proof.
  rewrite build_universe_counter. unfold fetch_nifty_constituents.
  destruct (NIFTY_CSV_URLS !! upper index_name) as [url|] eqn:Hurl.
  - destruct (retry_counter (fetch_nifty_constituents_once net index_name) 3 n) as [H1 H2].
    { intros m. by apply (fetch_once_recognised net index_name url). }
    repeat split; try lia; done.
  - rewrite (retry_no_request _ 3 n
               (ValueError ("Unsupported index: " ++ upper index_name))).
    + repeat split; try lia. by intros [? ?].
    + intros m. unfold fetch_nifty_constituents_once. by rewrite Hurl.
Qed.

End UniverseProps.

Lemma request_budget_witness :
  is_Some (NIFTY_CSV_URLS !! upper "NIFTY50")
  ∧ (0 < (build_universe always_bad_status "NIFTY50" None 0).2)%nat.
Proof.
  assert (is_Some (NIFTY_CSV_URLS !! upper "NIFTY50")) as H by (vm_compute; eauto).
  split; [exact H|].
  exact (proj2 (proj2 (proj2 (request_budget always_bad_status "NIFTY50" None 0))) H).
Defined.

Section UniverseProps2.

Context (net : nat → string → response).

(** X15: the universe is that of the first usable answer; the failed attempts
    before it leave no trace but the requests they sent. An answer with
    one symbol column gives the tickers; one with several makes
    [build_universe] raise at once, without another attempt. *)
Theorem first_usable_answer (index_name url : string) (limit : option Z) (n i : nat) :
  NIFTY_CSV_URLS !! upper index_name = Some url →
  (i < 4)%nat →
  (∀ j, (j < i)%nat → response_ok (net (n + j)%nat url) = false) →
  (symbol_columns (net (n + i)%nat url) = 1%nat →
   ∃ l, build_universe net index_name limit n = (Returned l, S (n + i))
        ∧ build_universe net index_name limit (n + i) = (Returned l, S (n + i)))
  ∧ ((1 < symbol_columns (net (n + i)%nat url))%nat →
     build_universe net index_name limit n
     = (Raised (AttributeError "'DataFrame' object has no attribute 'tolist'"),
        S (n + i))).
Proof.
  intros Hurl Hi Hfail.
  pose proof (fetch_once_recognised net index_name url) as Honce.
  pose proof (fetch_once_count net index_name url (n + i) Hurl) as Hc.
  assert ((0 < symbol_columns (net (n + i)%nat url))%nat →
          ∃ df, length (filter (λ c, c.1 = "Symbol") df)
                = symbol_columns (net (n + i)%nat url)
                ∧ fetch_nifty_constituents net index_name n = (Returned df, S (n + i))
                ∧ fetch_nifty_constituents net index_name (n + i)
                  = (Returned df, S (n + i))) as Hfetch.
  { intros Hpos.
    destruct (fetch_nifty_constituents_once net index_name (n + i)%nat).1
      as [df|e] eqn:E; [|lia].
    destruct Hc as [Hlen _]. exists df. split; [done|]. split.
    - apply retry_first_success; [intros m; by apply Honce|lia| |done].
      intros j Hj. apply (Honce _ Hurl). by apply Hfail.
    - rewrite <- (Nat.add_0_r (n + i)) at 2.
      apply retry_first_success; [intros m; by apply Honce|lia| |].
      + intros j Hj. lia.
      + by rewrite Nat.add_0_r. }
  split.
  - intros Hone. destruct Hfetch as (df & Hlen & H1 & H2); [lia|].
    rewrite !build_universe_stages, H1, H2. rewrite Hone in Hlen.
    destruct (filter _ df) as [|c [|c' l]]; cbn [length] in Hlen; try lia.
    eexists. split; reflexivity.
  - intros Hmany. destruct Hfetch as (df & Hlen & H1 & _); [lia|].
    rewrite build_universe_stages, H1.
    destruct (filter _ df) as [|c [|c' l]]; cbn [length] in Hlen; try lia. done.
Qed.

Lemma upper_char_idemp (c : ascii) : upper_char (upper_char c) = upper_char c.
Proof. destruct c as [[] [] [] [] [] [] [] []]; vm_compute; reflexivity. Qed.

Lemma upper_idemp (s : string) : upper (upper s) = upper s.
Proof. induction s as [|c s IH]; [done|]. cbn [upper]. by rewrite upper_char_idemp, IH. Qed.

Lemma upper_app (s t : string) : upper (s ++ t) = upper s ++ upper t.
Proof.
  induction s as [|c s IH]; [done|].
  change (String c s ++ t) with (String c (s ++ t)). cbn [upper]. by rewrite IH.
Qed.

Lemma fetch_once_upper (a b : string) :
  upper a = upper b →
  fetch_nifty_constituents_once net a = fetch_nifty_constituents_once net b.
Proof. intros H. unfold fetch_nifty_constituents_once. by rewrite H. Qed.

(** X16: the index name is read without regard to case. *)
Theorem index_name_case (a b : string) (limit : option Z) :
  upper a = upper b →
  build_universe net a limit = build_universe net b limit.
Proof.
  intros H. unfold build_universe, fetch_nifty_constituents.
  by rewrite (fetch_once_upper a b H).
Qed.

Lemma slice_to_length {A} (k : Z) (l : list A) :
  (0 <= k)%Z → (length (slice_to k l) ≤ Z.to_nat k)%nat.
Proof.
  intros Hk. unfold slice_to. destruct (Z.leb_spec 0 k); [|lia].
  rewrite length_take. lia.
Qed.

Lemma build_universe_returns (index_name : string) (limit : option Z) (n n' : nat)
    (l : list string) :
  build_universe net index_name limit n = (Returned l, n') →
  Forall (λ t, ∃ root, t = root ++ ".NS" ∧ upper root = root ∧ upper t = t) l
  ∧ (∀ k, limit = Some k → (0 <= k)%Z → (length l ≤ Z.to_nat k)%nat).
Proof.
  rewrite build_universe_stages.
  destruct (fetch_nifty_constituents net index_name n) as [[df|e] m]; [|done].
  destruct (filter _ df) as [|c [|c' l']]; [done| |done].
  intros [= <- <-]. split.
  - assert (Forall (λ t, ∃ root, t = root ++ ".NS" ∧ upper root = root ∧ upper t = t)
              (to_yahoo_ticker <$> c.2)) as Hall.
    { apply Forall_fmap, Forall_forall. intros s _. unfold compose, to_yahoo_ticker.
      exists (upper (strip s)). split; [done|]. split; [apply upper_idemp|].
      by rewrite upper_app, upper_idemp. }
    destruct limit as [k|]; [|done].
    apply Forall_forall. intros t Ht. apply slice_to_subseteq in Ht.
    by apply (proj1 (Forall_forall _ _) Hall).
  - intros k -> Hk. by apply slice_to_length.
Qed.

(** X17: every ticker of the universe is an upper-case root followed by
    [.NS], and a limit that is not negative bounds their number. *)
Theorem universe_tickers (index_name : string) (limit : option Z) (n n' : nat)
    (l : list string) :
  build_universe net index_name limit n = (Returned l, n') →
  Forall (λ t, ∃ root, t = root ++ ".NS" ∧ upper root = root ∧ upper t = t) l
  ∧ (∀ k, limit = Some k → (0 <= k)%Z → (length l ≤ Z.to_nat k)%nat).
Proof.
  intros H. split.
  - rewrite build_universe_stages in H.
    destruct (fetch_nifty_constituents net index_name n) as [[df|e] m]; [|done].
    destruct (filter _ df) as [|c [|c' l']]; [done| |done].
    injection H as <- <-.
    assert (Forall (λ t, ∃ root, t = root ++ ".NS" ∧ upper root = root ∧ upper t = t)
              (to_yahoo_ticker <$> c.2)) as Hall.
    { apply Forall_fmap, Forall_forall. intros s _. unfold compose, to_yahoo_ticker.
      exists (upper (strip s)). split; [done|]. split; [apply upper_idemp|].
      by rewrite upper_app, upper_idemp. }
    destruct limit as [k|]; [|done].
    apply Forall_forall. intros t Ht. apply slice_to_subseteq in Ht.
    by apply (proj1 (Forall_forall _ _) Hall).
  - intros k Hk Hpos. by apply (build_universe_returns index_name limit n n' l H).
Qed.

End UniverseProps2.

Section RootSymbol.

Lemma remove_dot_NS_no_dot (root : string) :
  has_dot root = false → remove_dot_NS (root ++ ".NS") = root.
Proof.
  induction root as [|c r IH]; [done|]. cbn [has_dot].
  intros [Hc Hr]%orb_false_iff. specialize (IH Hr).
  change (String c r ++ ".NS") with (String c (r ++ ".NS")).
  destruct c as [[] [] [] [] [] [] [] []]; try discriminate Hc;
    cbn [remove_dot_NS]; by rewrite IH.
Qed.

(** X18: the root symbol the screen hands to the promoter provider is the
    symbol of the index file, stripped and in upper case. *)
Theorem root_symbol_round_trip (nse_symbol : string) :
  has_dot (upper (strip nse_symbol)) = false →
  remove_dot_NS (to_yahoo_ticker nse_symbol) = upper (strip nse_symbol).
Proof. intros H. unfold to_yahoo_ticker. by apply remove_dot_NS_no_dot. Qed.

Lemma root_symbol_round_trip_witness :
  has_dot (upper (strip " reliance ")) = false
  ∧ remove_dot_NS (to_yahoo_ticker " reliance ") = "RELIANCE".
Proof.
  split; [reflexivity|].
  exact (root_symbol_round_trip " reliance " eq_refl).
Defined.

End RootSymbol.

Lemma first_usable_answer_witness :
  NIFTY_CSV_URLS !! upper "nifty50"
    = Some "https://archives.nseindia.com/content/indices/ind_nifty50list.csv"
  ∧ ∃ l, build_universe flaky_network "nifty50" None 0 = (Returned l, 3%nat).
Proof.
  assert (NIFTY_CSV_URLS !! upper "nifty50"
          = Some "https://archives.nseindia.com/content/indices/ind_nifty50list.csv")
    as H by (vm_compute; reflexivity).
  split; [exact H|].
  destruct (first_usable_answer flaky_network "nifty50" _ None 0 2 H) as [Hone _].
  - lia.
  - intros j Hj. destruct j as [|[|j]]; [reflexivity|reflexivity|lia].
  - destruct (Hone eq_refl) as (l & Hl & _). exists l. exact Hl.
Defined.

Lemma index_name_case_witness :
  upper "nifty50" = upper "NIFTY50"
  ∧ build_universe flaky_network "nifty50" None = build_universe flaky_network "NIFTY50" None.
Proof.
  split; [reflexivity|].
  exact (index_name_case flaky_network "nifty50" "NIFTY50" None eq_refl).
Defined.

Lemma universe_tickers_witness :
  build_universe flaky_network "nifty50" (Some 1%Z) 0 = (Returned ["RELIANCE.NS"], 3%nat)
  ∧ Forall (λ t, ∃ root, t = root ++ ".NS" ∧ upper root = root ∧ upper t = t)
      ["RELIANCE.NS"].
Proof.
  assert (build_universe flaky_network "nifty50" (Some 1%Z) 0
          = (Returned ["RELIANCE.NS"], 3%nat)) as H by (vm_compute; reflexivity).
  split; [exact H|].
  exact (proj1 (universe_tickers flaky_network "nifty50" (Some 1%Z) 0 3 _ H)).
Defined.
(* ===================================================================== *)
(** ** The stages of [main] *)
(* ===================================================================== *)
Section MainProps.

Context (P : providers) (net : nat → string → response).

Lemma main_limit (args : RunScreener.Namespace) :
  limit (universe (main_config args))
  = if (0 <? RunScreener.limit args)%Z then Some (RunScreener.limit args) else None.
Proof.
  cbn [main_config universe limit].
  destruct (Z.eqb_spec (RunScreener.limit args) 0) as [->|Hne]; [done|].
  by destruct (0 <? _)%Z.
Qed.

Lemma main_stages (args : RunScreener.Namespace) (n : nat) :
  RunScreener.main P net args n
  = match build_universe net (upper (RunScreener.universe args))
            (limit (universe (main_config args))) n with
    | (Returned symbols, n') =>
        (Returned (run_screen P symbols (main_config args)
                     (negb (RunScreener.sell args))), n')
    | (Raised e, n') => (Raised e, n')
    end.
Proof.
  unfold RunScreener.main. cbv zeta. unfold mbind, M_bind, bind, ret.
  fold (main_config args). cbn [Config.universe name limit main_config].
  by destruct (build_universe _ _ _ _) as [[symbols|e] n'].
Qed.

End MainProps.

(* ===================================================================== *)
(** ** The promoter snapshot *)
(* ===================================================================== *)
Section StringOrder.

Lemma ascii_compare_refl (a : ascii) : Ascii.compare a a = Eq.
Proof. unfold Ascii.compare. apply N.compare_refl. Qed.

Lemma string_compare_refl (s : string) : String.compare s s = Eq.
Proof. induction s as [|c s IH]; [done|]. cbn. by rewrite ascii_compare_refl. Qed.

Lemma string_leb_refl (s : string) : String.leb s s = true.
Proof. unfold String.leb. by rewrite string_compare_refl. Qed.

Lemma string_compare_trans_le (a b c : string) :
  String.compare a b ≠ Gt → String.compare b c ≠ Gt → String.compare a c ≠ Gt.
Proof.
  revert b c. induction a as [|x a IH]; intros [|y b] [|z c]; cbn; try done.
  unfold Ascii.compare.
  destruct (N.compare_spec (N_of_ascii x) (N_of_ascii y)) as [Hxy|Hxy|Hxy];
    destruct (N.compare_spec (N_of_ascii y) (N_of_ascii z)) as [Hyz|Hyz|Hyz];
    destruct (N.compare_spec (N_of_ascii x) (N_of_ascii z)) as [Hxz|Hxz|Hxz];
    try done; try lia.
  apply IH.
Qed.

Lemma string_leb_trans (a b c : string) :
  String.leb a b = true → String.leb b c = true → String.leb a c = true.
Proof.
  unfold String.leb. intros H1 H2.
  pose proof (string_compare_trans_le a b c) as H.
  destruct (String.compare a b), (String.compare b c), (String.compare a c);
    try done; exfalso; by apply H.
Qed.

End StringOrder.

Section SortFacts.

Import Nse.

Lemma insert_sorted_perm (x : entry) (l : list entry) : insert_sorted x l ≡ₚ x :: l.
Proof.
  induction l as [|y l IH]; [done|]. cbn [insert_sorted].
  destruct (String.leb _ _); [done|]. rewrite IH. apply Permutation_swap.
Qed.

Lemma sorted_perm (l : list entry) : sorted l ≡ₚ l.
Proof.
  induction l as [|x l IH]; [done|]. unfold sorted. cbn [foldr].
  fold (sorted l). by rewrite insert_sorted_perm, IH.
Qed.

Lemma insert_sorted_sorted (x : entry) (l : list entry) :
  StronglySorted key_le l → StronglySorted key_le (insert_sorted x l).
Proof.
  induction 1 as [|y l Hl IH Hy]; cbn [insert_sorted].
  - repeat constructor.
  - destruct (String.leb (quarter_key x) (quarter_key y)) eqn:E.
    + constructor; [by constructor|]. constructor; [done|].
      eapply Forall_impl; [exact Hy|]. intros z Hz.
      by apply string_leb_trans with (quarter_key y).
    + constructor; [done|]. rewrite insert_sorted_perm. constructor; [|done].
      unfold key_le. destruct (String.leb_total (quarter_key x) (quarter_key y)); congruence.
Qed.

Lemma sorted_sorted (l : list entry) : StronglySorted key_le (sorted l).
Proof.
  induction l as [|x l IH]; [constructor|]. unfold sorted. cbn [foldr].
  by apply insert_sorted_sorted.
Qed.

Lemma last_percent_latest (l : list entry) (p : Q) :
  StronglySorted key_le l →
  last (omap percent l) = Some p →
  ∃ e, e ∈ l ∧ percent e = Some p
       ∧ ∀ e', e' ∈ l → is_Some (percent e') → key_le e' e.
Proof.
  induction 1 as [|a l Hl IH Ha]; [done|]. cbn [omap list_omap].
  destruct (omap percent l) as [|q qs] eqn:Eq.
  - destruct (percent a) as [pa|] eqn:Epa; [|done]. cbn. intros [= ->].
    exists a. split; [by left|]. split; [done|].
    intros e' [->|He']%elem_of_cons Hsome; [apply string_leb_refl|].
    destruct Hsome as [pe Hpe]. exfalso.
    assert (pe ∈ omap percent l) as Hin by (apply list_elem_of_omap; eauto).
    rewrite Eq in Hin. by apply elem_of_nil in Hin.
  - intros Hlast.
    assert (last (q :: qs) = Some p) as Hlast'.
    { destruct (percent a); [|done]. by rewrite last_cons_cons in Hlast. }
    destruct (IH Hlast') as (e & He & Hpe & Hmax).
    exists e. split; [by right|]. split; [done|].
    intros e' [->|He']%elem_of_cons Hsome; [|by apply Hmax].
    by apply (proj1 (Forall_forall _ _) Ha).
Qed.

End SortFacts.

Section PromoterProps.

Import Nse.

Context (nse_api : string → option (list category_series)).

Lemma find_first_match {A} (f : A → bool) (l1 l2 : list A) (x : A) :
  Forall (λ y, f y = false) l1 → f x = true →
  List.find f (l1 ++ x :: l2)%list = Some x.
Proof.
  intros H Hx. induction H as [|y l1 Hy _ IH]; cbn [app List.find].
  - by rewrite Hx.
  - by rewrite Hy.
Qed.

Lemma find_no_match {A} (f : A → bool) (l : list A) :
  Forall (λ y, f y = false) l → List.find f l = None.
Proof. induction 1 as [|y l Hy _ IH]; [done|]. cbn [List.find]. by rewrite Hy. Qed.

Lemma prev_is_Some (ps : list Q) :
  is_Some (if (2 <=? length ps)%nat then ps !! (length ps - 2)%nat else None)
  ↔ (2 ≤ length ps)%nat.
Proof.
  destruct (Nat.leb_spec 2 (length ps)) as [Hle|Hlt].
  - split; [done|]. intros _. apply lookup_lt_is_Some. lia.
  - split; [by intros [? [=]]|lia].
Qed.

(** X19: the promoter holdings are read from the first category whose name
    begins with "promoter", whatever the case; without an answer or
    without such a category there is no snapshot. *)
Theorem promoter_category_choice (symbol : string) :
  (nse_api symbol = None → fetch_promoter_shareholding_percent nse_api symbol = None)
  ∧ (∀ cats, nse_api symbol = Some cats →
       Forall (λ c, is_promoter c = false) cats →
       fetch_promoter_shareholding_percent nse_api symbol = None)
  ∧ (∀ cats1 c cats2, nse_api symbol = Some (cats1 ++ c :: cats2)%list →
       Forall (λ c, is_promoter c = false) cats1 → is_promoter c = true →
       fetch_promoter_shareholding_percent nse_api symbol
       = fetch_promoter_shareholding_percent (λ _, Some [c]) symbol).
Proof.
  unfold fetch_promoter_shareholding_percent. split; [|split].
  - by intros ->.
  - intros cats -> H. by rewrite find_no_match.
  - intros cats1 c cats2 -> H Hc. rewrite find_first_match by done.
    cbn [List.find]. by rewrite Hc.
Qed.

(** X20: a snapshot always has a latest percentage: that of an entry of the
    promoter category whose quarter is not before that of any other
    entry with a percentage. The previous percentage is known exactly
    when two entries have one, and the change is the difference of the
    two, unknown without a previous percentage. *)
Theorem promoter_snapshot_latest (symbol : string) (snap : PromoterSnapshot) :
  fetch_promoter_shareholding_percent nse_api symbol = Some snap →
  ∃ cats c e p,
    nse_api symbol = Some cats
    ∧ List.find is_promoter cats = Some c
    ∧ e ∈ data c ∧ percent e = Some p
    ∧ latest_percent snap = Some p
    ∧ (∀ e', e' ∈ data c → is_Some (percent e') → key_le e' e)
    ∧ (is_Some (prev_percent snap) ↔ (2 ≤ length (omap percent (data c)))%nat)
    ∧ change_qoq_pct_pts snap
      = match prev_percent snap with
        | Some q => Some (p - q)%Q
        | None => None
        end.
Proof.
  unfold fetch_promoter_shareholding_percent.
  destruct (nse_api symbol) as [cats|]; [|done].
  destruct (List.find is_promoter cats) as [c|] eqn:Hfind; [|done].
  destruct (data c) as [|e0 l0] eqn:Hdata; [done|]. cbv zeta.
  set (l := e0 :: l0) in *.
  assert (omap percent (sorted l) ≡ₚ omap percent l) as Hperm.
  { by rewrite sorted_perm. }
  destruct (last (omap percent (sorted l))) as [p|] eqn:Hlast; [|done].
  intros [= <-]. cbn [latest_percent prev_percent change_qoq_pct_pts].
  destruct (last_percent_latest _ p (sorted_sorted l) Hlast) as (e & He & Hpe & Hmax).
  exists cats, c, e, p. rewrite Hdata. split; [done|]. split; [done|].
  split; [by rewrite <- (sorted_perm l)|]. split; [done|]. split; [done|].
  split; [|split; [|done]].
  - intros e' He' Hsome. apply Hmax; [|done]. by rewrite sorted_perm.
  - etrans; [apply (prev_is_Some (omap percent (sorted l)))|]. by rewrite Hperm.
Qed.

End PromoterProps.

Lemma promoter_category_choice_witness :
  two_quarters "RELIANCE" = Some ([public_holdings] ++ promoter_holdings :: [])%list
  ∧ Forall (λ c, Nse.is_promoter c = false) [public_holdings]
  ∧ Nse.is_promoter promoter_holdings = true
  ∧ Nse.fetch_promoter_shareholding_percent two_quarters "RELIANCE"
    = Nse.fetch_promoter_shareholding_percent (λ _, Some [promoter_holdings]) "RELIANCE".
Proof.
  assert (Forall (λ c, Nse.is_promoter c = false) [public_holdings]) as H
    by (repeat constructor).
  split; [reflexivity|]. split; [exact H|]. split; [reflexivity|].
  exact (proj2 (proj2 (promoter_category_choice two_quarters "RELIANCE"))
           [public_holdings] promoter_holdings [] eq_refl H eq_refl).
Defined.

Lemma promoter_snapshot_latest_witness :
  Nse.fetch_promoter_shareholding_percent two_quarters "RELIANCE"
  = Some {| latest_percent := Some 51%Q; prev_percent := Some 50%Q;
            change_qoq_pct_pts := Some (51 - 50)%Q |}
  ∧ ∃ cats c e p,
      two_quarters "RELIANCE" = Some cats
      ∧ List.find Nse.is_promoter cats = Some c
      ∧ e ∈ Nse.data c ∧ Nse.percent e = Some p
      ∧ Some 51%Q = Some p.
Proof.
  assert (Nse.fetch_promoter_shareholding_percent two_quarters "RELIANCE"
          = Some {| latest_percent := Some 51%Q; prev_percent := Some 50%Q;
                    change_qoq_pct_pts := Some (51 - 50)%Q |}) as H
    by reflexivity.
  split; [exact H|].
  destruct (promoter_snapshot_latest two_quarters "RELIANCE" _ H)
    as (cats & c & e & p & H1 & H2 & H3 & H4 & H5 & _).
  exists cats, c, e, p. repeat split; assumption.
Defined.

(* ===================================================================== *)
(** ** The output of [main] *)
(* ===================================================================== *)
Section MainProps2.

Context (P : providers) (net : nat → string → response).

Lemma build_universe_unsupported (index_name : string) (limit : option Z) (n : nat) :
  NIFTY_CSV_URLS !! upper index_name = None →
  build_universe net index_name limit n
  = (Raised (RetryError (ValueError ("Unsupported index: " ++ upper index_name))), n).
Proof.
  intros Hno. unfold build_universe, fetch_nifty_constituents.
  unfold mbind, M_bind, bind. cbn [retry].
  unfold fetch_nifty_constituents_once. rewrite Hno. reflexivity.
Qed.

Lemma hard_mask_main_config (args : RunScreener.Namespace) (r : row) :
  hard_mask (main_config args) r = hard_mask DEFAULT_CONFIG r.
Proof. reflexivity. Qed.

(** X21: a run that ends well is a screen of the universe [build_universe]
    returned, for which it sent between one and four requests for the
    index file (the downloads and lookups of [run_screen] are not
    counted); its rows are rows of tickers of the universe, an upper-case
    root followed by [.NS]; a positive limit bounds their number, in a
    buy run every row meets the thresholds of the default configuration,
    and there are never more than the 150 rows of the default
    fundamentals cap. *)
Theorem main_output (args : RunScreener.Namespace) (n n' : nat) (df : DataFrame) :
  RunScreener.main P net args n = (Returned df, n') →
  (∃ symbols,
      build_universe net (upper (RunScreener.universe args))
        (limit (universe (main_config args))) n = (Returned symbols, n')
      ∧ df = run_screen P symbols (main_config args) (negb (RunScreener.sell args)))
  ∧ (n < n')%nat ∧ (n' ≤ n + 4)%nat
  ∧ ((0 < RunScreener.limit args)%Z →
     (length (rows df) ≤ Z.to_nat (RunScreener.limit args))%nat)
  ∧ Forall (λ r, ∃ root, at_col r "ticker" = CStr (root ++ ".NS") ∧ upper root = root)
      (rows df)
  ∧ (RunScreener.sell args = false →
     Forall (λ r, hard_mask DEFAULT_CONFIG r = true) (rows df))
  ∧ (length (rows df) ≤ 150)%nat.
Proof.
  rewrite main_stages.
  destruct (build_universe net (upper (RunScreener.universe args))
              (limit (universe (main_config args))) n) as [[symbols|e] m] eqn:E; [|done].
  intros [= <- <-].
  pose proof (build_universe_requests net (upper (RunScreener.universe args))
                (limit (universe (main_config args))) n) as (_ & Hle & _ & Hlt).
  destruct (build_universe_returns net _ _ _ _ _ E) as [Hfmt Hlen].
  rewrite E in Hle, Hlt. cbn [snd] in Hle, Hlt.
  split; [by exists symbols|].
  split; [|split; [done|split; [|split; [|split]]]].
  - apply Hlt.
    destruct (NIFTY_CSV_URLS !! upper (upper (RunScreener.universe args))) eqn:Hurl; [eauto|].
    by rewrite (build_universe_unsupported _ _ _ Hurl) in E.
  - intros Hpos. etrans; [apply rows_le_symbols|].
    apply Hlen; [|lia]. rewrite main_limit.
    by destruct (Z.ltb_spec 0 (RunScreener.limit args)); [|lia].
  - eapply Forall_impl; [apply output_rows_tech|].
    intros r (y & Hy & Ht & _). cbn beta.
    destruct (proj1 (Forall_forall _ _) Hfmt y Hy) as (root & -> & Hroot & _).
    by exists root.
  - intros ->. cbn [negb].
    eapply Forall_impl; [apply buy_rows_pass_hard_mask|].
    intros r Hr. cbn beta. by rewrite <- (hard_mask_main_config args).
  - change 150%nat with (Z.to_nat 150). by apply rows_le_cap.
Qed.

(** X22: of its arguments [main] reads the universe, without regard to case,
    the limit, where anything not positive means no limit, and the sell
    flag; the buy flag and the output path do not change the frame. *)
Theorem main_arguments (args args' : RunScreener.Namespace) :
  upper (RunScreener.universe args) = upper (RunScreener.universe args') →
  RunScreener.sell args = RunScreener.sell args' →
  RunScreener.limit args = RunScreener.limit args'
  ∨ ((RunScreener.limit args <= 0)%Z ∧ (RunScreener.limit args' <= 0)%Z) →
  RunScreener.main P net args = RunScreener.main P net args'.
Proof.
  intros Hu Hs Hl. unfold RunScreener.main. cbv zeta. rewrite Hu, Hs.
  assert ((if negb (RunScreener.limit args =? 0)%Z && (0 <? RunScreener.limit args)%Z
           then Some (RunScreener.limit args) else None)
          = (if negb (RunScreener.limit args' =? 0)%Z && (0 <? RunScreener.limit args')%Z
             then Some (RunScreener.limit args') else None)) as ->; [|done].
  destruct Hl as [->|[H1 H2]]; [done|].
  destruct (Z.ltb_spec 0 (RunScreener.limit args)); [lia|].
  destruct (Z.ltb_spec 0 (RunScreener.limit args')); [lia|].
  by rewrite !andb_false_r.
Qed.

End MainProps2.

Lemma main_output_witness :
  RunScreener.main two_caps flaky_network quick_run 0
  = (Returned (run_screen two_caps ["RELIANCE.NS"] (main_config quick_run) false), 3%nat)
  ∧ (0 < RunScreener.limit quick_run)%Z
  ∧ (length (rows (run_screen two_caps ["RELIANCE.NS"] (main_config quick_run) false))
     ≤ Z.to_nat (RunScreener.limit quick_run))%nat.
Proof.
  assert (RunScreener.main two_caps flaky_network quick_run 0
          = (Returned (run_screen two_caps ["RELIANCE.NS"] (main_config quick_run) false),
             3%nat)) as H.
  { rewrite main_stages.
    assert (build_universe flaky_network (upper (RunScreener.universe quick_run))
              (limit (universe (main_config quick_run))) 0
            = (Returned ["RELIANCE.NS"], 3%nat)) as -> by (vm_compute; reflexivity).
    reflexivity. }
  assert (0 < RunScreener.limit quick_run)%Z as Hpos by reflexivity.
  split; [exact H|]. split; [exact Hpos|].
  exact (proj1 (proj2 (proj2 (proj2
    (main_output two_caps flaky_network quick_run 0 3 _ H)))) Hpos).
Defined.

Lemma main_arguments_witness :
  upper (RunScreener.universe quick_run) = upper "NIFTY50"
  ∧ RunScreener.main two_caps flaky_network quick_run
    = RunScreener.main two_caps flaky_network
        {| RunScreener.universe := "NIFTY50"; RunScreener.limit := 1;
           RunScreener.buy := false; RunScreener.sell := true;
           RunScreener.out := "other.csv" |}.
Proof.
  split; [reflexivity|].
  apply (main_arguments two_caps flaky_network quick_run); [reflexivity|reflexivity|].
  left. reflexivity.
Defined.

(* ===================================================================== *)
(** ** The symbol column, and the EV/EBITDA threshold *)
(* ===================================================================== *)
Section SymbolColumn.

Context (net : nat → string → response).

Lemma retry_returned {A} (f : M A) (more n n' : nat) (a : A) :
  retry more f n = (Returned a, n') → ∃ m, (f m).1 = Returned a.
Proof.
  revert n. induction more as [|k IH]; intros n; cbn [retry];
    destruct (f n) as [[b|e] m] eqn:E; try done.
  - intros [= <- <-]. exists n. by rewrite E.
  - intros [= <- <-]. exists n. by rewrite E.
  - apply IH.
Qed.

Lemma rename_has_symbol (df : table) (sym_col : string) :
  sym_col ∈ df.*1 →
  "Symbol" ∈ (prod_map (λ c, if String.eqb c sym_col then "Symbol" else c) id <$> df).*1.
Proof.
  intros Hin. apply list_elem_of_fmap in Hin as ([c v] & -> & Hin).
  apply list_elem_of_fmap. exists ("Symbol", v). split; [done|].
  apply list_elem_of_fmap. exists (c, v). split; [|done].
  unfold prod_map. cbn [fst snd id]. by rewrite String.eqb_refl.
Qed.

Lemma fetch_once_has_symbol (index_name : string) (n : nat) (df : table) :
  (fetch_nifty_constituents_once net index_name n).1 = Returned df →
  "Symbol" ∈ df.*1.
Proof.
  unfold fetch_nifty_constituents_once.
  destruct (NIFTY_CSV_URLS !! upper index_name) as [url|]; [|done].
  unfold mbind, M_bind, bind, requests_get, raise, ret.
  destruct (net n url) as [| |[t|]]; cbv zeta; cbn [fst]; try done.
  case_bool_decide as Hsym; cbn [fst].
  - by intros [= <-].
  - destruct (List.find _ _) as [sym_col|] eqn:Hfind; cbn [fst]; [|done].
    intros [= <-]. apply rename_has_symbol.
    apply find_some in Hfind as [Hin _]. by apply list_elem_of_In.
Qed.

(** X23: a table the index provider returns always has a column labelled
    [Symbol], so the [df["Symbol"]] of [build_universe] never raises
    [KeyError]: it gives the values of that column, or, when several
    columns carry the label, a DataFrame, on which [tolist] raises
    [AttributeError]. *)
Theorem fetched_table_has_symbol (index_name : string) (n n' : nat) (df : table) :
  fetch_nifty_constituents net index_name n = (Returned df, n') →
  "Symbol" ∈ df.*1
  ∧ ((∃ vs, filter (λ c, c.1 = "Symbol") df = [("Symbol", vs)]
            ∧ column "Symbol" df n' = (Returned vs, n'))
     ∨ ((1 < length (filter (λ c, c.1 = "Symbol") df))%nat
        ∧ column "Symbol" df n'
          = (Raised (AttributeError "'DataFrame' object has no attribute 'tolist'"), n'))).
Proof.
  intros H. apply retry_returned in H as [m Hm].
  apply fetch_once_has_symbol in Hm. split; [done|].
  apply list_elem_of_fmap in Hm as ([c vs] & Hc & Hin). cbn [fst] in Hc. subst c.
  unfold column.
  destruct (filter (λ c, c.1 = "Symbol") df) as [|[c vs'] [|c' l]] eqn:E.
  - exfalso. by apply (filter_nil_not_elem_of _ _ ("Symbol", vs) E).
  - left. exists vs'. split; [|done].
    assert (((c, vs') : string * list string) ∈ filter (λ c, c.1 = "Symbol") df) as Hc
      by (rewrite E; apply list_elem_of_here).
    apply list_elem_of_filter in Hc as [Hc _]. cbn [fst] in Hc. by subst c.
  - right. split; [cbn [length]; lia|done].
Qed.

End SymbolColumn.

Lemma fetched_table_has_symbol_witness :
  fetch_nifty_constituents flaky_network "nifty50" 0
  = (Returned [("Company Name", ["Reliance Industries Ltd."; "TCS Ltd."]);
               ("Symbol", ["reliance "; "Tcs"])], 3%nat)
  ∧ "Symbol" ∈ [("Company Name", ["Reliance Industries Ltd."; "TCS Ltd."]);
                ("Symbol", ["reliance "; "Tcs"])].*1.
Proof.
  assert (fetch_nifty_constituents flaky_network "nifty50" 0
          = (Returned [("Company Name", ["Reliance Industries Ltd."; "TCS Ltd."]);
                       ("Symbol", ["reliance "; "Tcs"])], 3%nat)) as H
    by (vm_compute; reflexivity).
  split; [exact H|].
  exact (proj1 (fetched_table_has_symbol flaky_network "nifty50" 0 3 _ H)).
Defined.

Section EvEbitda.

Lemma hard_mask_ev_ebitda (cfg : ScreenerConfig) (r : row) (c : cell) :
  hard_mask cfg (<["ev_ebitda" := c]> r)
  = hard_condition cfg "ev_ebitda" c && hard_mask cfg (<["ev_ebitda" := CNaN]> r).
Proof.
  rewrite !hard_mask_columns. unfold hard_columns. cbn [forallb].
  rewrite !at_col_insert_eq, !at_col_insert_ne by done.
  assert (hard_condition cfg "ev_ebitda" CNaN = true) as ->.
  { unfold hard_condition. cbn [String.eqb Ascii.eqb Bool.eqb].
    destruct (max_ev_ebitda (valuation cfg)); [|done]. apply orb_true_r. }
  generalize (hard_condition cfg "pe" (at_col r "pe")),
    (hard_condition cfg "pb" (at_col r "pb")),
    (hard_condition cfg "ev_ebitda" c).
  intros [] [] []; reflexivity.
Qed.

Lemma Qsum_ext {A} (f g : A → Q) (l : list A) :
  Forall (λ x, f x == g x)%Q l → (Qsum (f <$> l) == Qsum (g <$> l))%Q.
Proof.
  intros H. apply Qle_antisym; apply Qsum_le; eapply Forall_impl; try exact H;
    cbn beta; intros x Hx; rewrite Hx; apply Qle_refl.
Qed.

Lemma score_ev_ebitda (cfg : ScreenerConfig) (r : row) (c c' : cell) :
  opt_truthy (max_ev_ebitda (valuation cfg)) = false →
  (_score_buy_row (<["ev_ebitda" := c]> r) cfg
   == _score_buy_row (<["ev_ebitda" := c']> r) cfg)%Q.
Proof.
  intros Hmax. rewrite !score_sum. apply Qsum_ext, Forall_forall. intros s _.
  destruct (decide (s = SigEvEbitda)) as [->|Hne].
  - unfold contribution. cbn [signal_key earns]. rewrite !get_insert_eq, Hmax.
    rewrite !andb_false_r. reflexivity.
  - change "ev_ebitda" with (signal_key SigEvEbitda).
    rewrite !contribution_insert_ne by done. reflexivity.
Qed.

(** X24: without a maximal EV/EBITDA the hard filter does not look at the
    column and the scorer gives no point for it; a maximum of zero still
    filters, and still earns nothing. *)
Theorem ev_ebitda_threshold (cfg : ScreenerConfig) (r : row) (c c' : cell) :
  (max_ev_ebitda (valuation cfg) = None →
   hard_mask cfg (<["ev_ebitda" := c]> r) = hard_mask cfg (<["ev_ebitda" := c']> r)
   ∧ (_score_buy_row (<["ev_ebitda" := c]> r) cfg
      == _score_buy_row (<["ev_ebitda" := c']> r) cfg)%Q)
  ∧ (∀ m, max_ev_ebitda (valuation cfg) = Some m →
       hard_mask cfg (<["ev_ebitda" := c]> r)
       = (cle c m || isna c) && hard_mask cfg (<["ev_ebitda" := CNaN]> r)
       ∧ ((m == 0)%Q →
          (_score_buy_row (<["ev_ebitda" := c]> r) cfg
           == _score_buy_row (<["ev_ebitda" := c']> r) cfg)%Q)).
Proof.
  split.
  - intros Hmax. split.
    + rewrite (hard_mask_ev_ebitda cfg r c), (hard_mask_ev_ebitda cfg r c').
      unfold hard_condition. cbn [String.eqb Ascii.eqb Bool.eqb]. by rewrite Hmax.
    + apply score_ev_ebitda. by rewrite Hmax.
  - intros m Hmax. split.
    + rewrite (hard_mask_ev_ebitda cfg r c).
      unfold hard_condition. cbn [String.eqb Ascii.eqb Bool.eqb]. by rewrite Hmax.
    + intros Hm. apply score_ev_ebitda. rewrite Hmax. cbn [opt_truthy].
      by rewrite (proj2 (Qeq_bool_iff m 0) Hm).
Qed.

End EvEbitda.

Lemma ev_ebitda_threshold_witness :
  max_ev_ebitda (valuation no_ev_config) = None
  ∧ hard_mask no_ev_config (<["ev_ebitda" := CNum 1000]> flags_set_row)
    = hard_mask no_ev_config (<["ev_ebitda" := CNone]> flags_set_row)
  ∧ (_score_buy_row (<["ev_ebitda" := CNum 1000]> flags_set_row) no_ev_config
     == _score_buy_row (<["ev_ebitda" := CNone]> flags_set_row) no_ev_config)%Q.
Proof.
  split; [reflexivity|].
  exact (proj1 (ev_ebitda_threshold no_ev_config flags_set_row (CNum 1000) CNone) eq_refl).
Defined.

(* ===================================================================== *)
(** ** The promoter point *)
(* ===================================================================== *)
Section PromoterPoint.

Context (P : providers) (symbols : list string) (cfg : ScreenerConfig).
Context (api : string → option (list Nse.category_series)).

Lemma fetch_change_None (symbol : string) :
  (∀ cats c, api symbol = Some cats → List.find Nse.is_promoter cats = Some c →
     (length (omap Nse.percent (Nse.data c)) < 2)%nat) →
  match Nse.fetch_promoter_shareholding_percent api symbol with
  | Some snap => change_qoq_pct_pts snap = None
  | None => True
  end.
Proof.
  intros H. unfold Nse.fetch_promoter_shareholding_percent.
  destruct (api symbol) as [cats|]; [|done].
  destruct (List.find Nse.is_promoter cats) as [c|] eqn:Hfind; [|done].
  specialize (H cats c eq_refl Hfind).
  destruct (Nse.data c) as [|e0 l0]; [done|]. cbv zeta.
  set (l := e0 :: l0) in *.
  assert (length (omap Nse.percent (Nse.sorted l)) < 2)%nat as Hlen
    by (by rewrite sorted_perm).
  destruct (last (omap Nse.percent (Nse.sorted l))); [|done].
  cbn [change_qoq_pct_pts].
  by destruct (Nat.leb_spec 2 (length (omap Nse.percent (Nse.sorted l)))); [lia|].
Qed.

(** X25: the promoter signal earns its point only with two quarters of
    promoter holdings on record: for a symbol with fewer, or without an
    answer of the NSE, no row of the output has the point. *)
Theorem promoter_point_needs_two_quarters (for_buy : bool) (y : string) :
  fetch_promoter_shareholding_percent P = Nse.fetch_promoter_shareholding_percent api →
  (∀ cats c, api (remove_dot_NS y) = Some cats →
     List.find Nse.is_promoter cats = Some c →
     (length (omap Nse.percent (Nse.data c)) < 2)%nat) →
  Forall (λ r, at_col r "ticker" = CStr y →
               contribution cfg r SigPromoterChange = 0%Q)
    (rows (run_screen P symbols cfg for_buy)).
Proof.
  intros HP Hfew.
  eapply Forall_impl; [apply output_rows_cells|].
  intros r (y' & _ & Hy' & Hprov) Hticker. cbn beta.
  rewrite Hticker in Hy'. injection Hy' as <-.
  assert (at_col r "promoter_change_qoq_pct_pts" = CNone
          ∨ at_col r "promoter_change_qoq_pct_pts" = CNaN) as Hcell.
  { apply (Hprov "promoter_change_qoq_pct_pts").
    unfold provided_cells. cbv zeta. rewrite HP.
    pose proof (fetch_change_None (remove_dot_NS y) Hfew) as Hnone.
    destruct (Nse.fetch_promoter_shareholding_percent api (remove_dot_NS y)) as [snap|].
    - rewrite Hnone. cbn [of_option]. do 12 apply list_elem_of_further.
      apply list_elem_of_here.
    - do 12 apply list_elem_of_further. apply list_elem_of_here. }
  unfold contribution. cbn [signal_key].
  assert (get r "promoter_change_qoq_pct_pts" = CNone
          ∨ get r "promoter_change_qoq_pct_pts" = CNaN) as [-> | ->].
  { destruct Hcell as [Hc|Hc]; [|by apply at_col_nan_get].
    left. unfold at_col in Hc. unfold get.
    destruct (r !! "promoter_change_qoq_pct_pts") as [v|]; cbn [default] in *; [done|].
    discriminate Hc. }
  - by rewrite earns_None.
  - by rewrite earns_NaN.
Qed.

End PromoterPoint.

Lemma promoter_point_needs_two_quarters_witness :
  Forall (λ r, at_col r "ticker" = CStr "X.NS" →
               contribution DEFAULT_CONFIG r SigPromoterChange = 0%Q)
    (rows (run_screen (nse_providers one_quarter) ["X.NS"] DEFAULT_CONFIG false)).
Proof.
  apply (promoter_point_needs_two_quarters (nse_providers one_quarter) ["X.NS"]
           DEFAULT_CONFIG one_quarter false "X.NS"); [reflexivity|].
  intros cats c [= <-] [= <-]. cbn. lia.
Defined.

(* ===================================================================== *)
(** ** The trend flags *)
(* ===================================================================== *)

Section TrendFlags.

Lemma gt_finite_true (a b : option Q) :
  gt_finite a b = true ↔ ∃ x y, a = Some x ∧ b = Some y ∧ (y < x)%Q.
Proof.
  destruct a as [x|], b as [y|]; cbn [gt_finite];
    try (split; [done|by intros (? & ? & ? & ? & _)]).
  unfold Qltb. rewrite negb_true_iff. split.
  - intros H. exists x, y. split; [done|]. split; [done|].
    apply Qnot_le_lt. intros Hle. apply Qle_bool_iff in Hle. congruence.
  - intros (x' & y' & [= <-] & [= <-] & Hlt).
    apply not_true_is_false. intros Hle%Qle_bool_iff. lra.
Qed.

Lemma flag_true (b : bool) : Some (CBool b) = Some (CBool true) ↔ b = true.
Proof. split; [by intros [= ->]|by intros ->]. Qed.

(** X26: the two trend flags of a snapshot need a hundred closes: the
    price flag is true exactly when the last close is above the mean of
    the last closes (200 at most), the average flag exactly when the mean
    of the last 50 closes is above it. *)
Theorem trend_flags (df : frame) :
  let close := dropna (Close <$> df) in
  let n := length close in
  let mean w := (fsum (tail w close) / inject_Z (Z.of_nat (Nat.min w n)))%Q in
  let snap := compute_technical_snapshot df in
  df ≠ [] →
  (snap !! "price_above_200d" = Some (CBool true)
   ↔ (100 ≤ n)%nat ∧ ∃ c, iloc_last close = Some c ∧ (mean 200%nat < c)%Q)
  ∧ (snap !! "sma50_above_200d" = Some (CBool true)
     ↔ (100 ≤ n)%nat ∧ (mean 200%nat < mean 50%nat)%Q).
Proof.
  cbv zeta. intros Hdf.
  rewrite snapshot_price_above_200d, snapshot_sma50_above_200d by done.
  set (close := dropna (Close <$> df)).
  assert (Forall is_Some close) as Hsome by apply dropna_Forall.
  rewrite !sma_last by (done || lia).
  change (200 / 2)%nat with 100%nat. change (50 / 2)%nat with 25%nat.
  rewrite !flag_true, !gt_finite_true.
  destruct (decide (Nat.max 1 100 ≤ length close)%nat) as [H100|H100].
  - rewrite decide_True by lia. split.
    + split.
      * intros (c & m & Hc & Hm & Hlt). injection Hm as <-.
        split; [lia|]. by exists c.
      * intros (_ & c & Hc & Hlt). eauto.
    + split.
      * intros (c & m & Hc & Hm & Hlt). injection Hc as <-. injection Hm as <-.
        split; [lia|done].
      * intros (_ & Hlt). eauto.
  - split; (split; [by intros (? & ? & _ & ? & _)|intros [? _]; lia]).
Qed.

End TrendFlags.

Lemma trend_flags_witness :
  rising_frame 120 ≠ []
  ∧ compute_technical_snapshot (rising_frame 120) !! "price_above_200d" = Some (CBool true)
  ∧ (100 ≤ length (dropna (Close <$> rising_frame 120)))%nat.
Proof.
  assert (rising_frame 120 ≠ []) as H1 by discriminate.
  assert (compute_technical_snapshot (rising_frame 120) !! "price_above_200d"
          = Some (CBool true)) as H2 by (vm_compute; reflexivity).
  split; [exact H1|]. split; [exact H2|].
  exact (proj1 (proj1 (proj1 (trend_flags (rising_frame 120) H1)) H2)).
Defined.

(* ===================================================================== *)
(** ** The tickers of the output *)
(* ===================================================================== *)

Section OutputTickers.

Context (P : providers) (symbols : list string) (cfg : ScreenerConfig).

Lemma enriched_tickers_sublist (for_buy : bool) :
  tolist_str "ticker" (enriched_table P symbols cfg for_buy) `sublist_of` symbols.
Proof.
  rewrite table_tickers, table_dicts_eq.
  pose proof (symbols_for_funda_sublist P symbols cfg for_buy) as Hsub.
  pose proof (symbols_for_funda_subseteq P symbols cfg for_buy) as Hin.
  destruct (symbols_for_funda P symbols cfg for_buy) as [|y0 l].
  - rewrite fmap_nil, fmap_fmap_id; [done|].
    intros y. apply ticker_of_dict, tech_row_dict.
  - rewrite (fmap_cons _ y0 l), <- (fmap_cons _ y0 l).
    by rewrite fmap_ticker_of_enrich.
Qed.

Lemma filtered_tickers_sublist (for_buy : bool) :
  tolist_str "ticker" (filtered_table P symbols cfg for_buy) `sublist_of` symbols.
Proof.
  etrans; [|apply (enriched_tickers_sublist for_buy)].
  destruct for_buy; [|by rewrite filtered_table_sell].
  rewrite filtered_table_buy. unfold hard_filter, tolist_str.
  destruct (negb _); [|done]. unfold select. cbn [rows].
  apply fmap_sublist, sublist_filter.
Qed.

Lemma output_tickers (for_buy : bool) :
  tolist_str "ticker" (run_screen P symbols cfg for_buy)
  ≡ₚ tolist_str "ticker" (filtered_table P symbols cfg for_buy).
Proof.
  rewrite run_screen_stages. destruct (negb _); [|done].
  by rewrite tolist_str_sort_values, tolist_str_assign_score.
Qed.

(** X27: the tickers of the output are, up to their order, a subsequence
    of the symbols: no symbol has more rows in the output than it has
    places in the input, so distinct symbols give distinct rows. *)
Theorem output_tickers_of_symbols (for_buy : bool) :
  tolist_str "ticker" (run_screen P symbols cfg for_buy) ⊆+ symbols
  ∧ (NoDup symbols → NoDup (tolist_str "ticker" (run_screen P symbols cfg for_buy))).
Proof.
  assert (tolist_str "ticker" (run_screen P symbols cfg for_buy) ⊆+ symbols) as H.
  { rewrite output_tickers. apply sublist_submseteq, filtered_tickers_sublist. }
  split; [done|]. intros Hnd.
  rewrite output_tickers. apply (sublist_NoDup _ symbols); [exact Hnd|apply filtered_tickers_sublist].
Qed.

End OutputTickers.

Lemma output_tickers_of_symbols_witness :
  NoDup ["A.NS"; "B.NS"]
  ∧ NoDup (tolist_str "ticker" (run_screen two_caps ["A.NS"; "B.NS"] DEFAULT_CONFIG false)).
Proof.
  assert (NoDup ["A.NS"; "B.NS"]) as H.
  { apply NoDup_cons. split; [|apply NoDup_singleton].
    intros Hin. apply list_elem_of_singleton in Hin. discriminate Hin. }
  split; [exact H|].
  exact (proj2 (output_tickers_of_symbols two_caps ["A.NS"; "B.NS"] DEFAULT_CONFIG false) H).
Defined.
